(** * Rodeo main process: kernel sessions and the display-data transform

    A shallow embedding of [src/node/index.js]: option validation
    ([assertValidObject]), the table of kernel clients with its bluebird
    promises, the IPC handlers that drive it, and the transform that moves
    inline display payloads to temporary files served by the plot server.

    JavaScript objects are association lists in property enumeration order;
    the table [kernelClients] is a finite map over its own properties, read
    through [table_get], which also finds what the table inherits.
    Promises live in a store indexed by references, with bluebird's
    cancellation, which [index.js] switches on; callbacks are
    first-order codes interpreted by [run_handler] and [run_listener], and
    everything outside this file of the repository (the python client, the
    plot server, the file helpers) appears either as a recorded call that
    the environment answers later or as a member of [Platform].

    The functions of [index.js] that deal with windows, dialogs, start-up
    and quitting are embedded after that, over [Host]: they list the actions
    they take on electron and on the other services. *)

From Stdlib Require Import ZArith NArith Ascii String List.
From stdpp Require Import base tactics option list gmap strings pretty stringmap.

Local Open Scope string_scope.
Local Open Scope list_scope.
Set Warnings "-register-all".

(** ** JavaScript values *)

Inductive value :=
| VUndefined
| VNull
| VBool (b : bool)
| VNumber (n : Z)
| VString (s : string)
| VBuffer (bytes : list Byte.byte)
| VObject (props : list (string * value))
| VClient (c : nat)
| VPromise (p : nat).

Abbreviation object := (list (string * value)).

Inductive error :=
| Error (message : string)
| TypeError (message : string)
| TimeoutError (message : string)
| CancellationError (message : string).

Inductive result (A : Type) :=
| Return (a : A)
| Throw (e : error).
Arguments Return {A} a.
Arguments Throw {A} e.

(** [!v] is [negb (truthy v)]. *)
Definition truthy (v : value) : bool :=
  match v with
  | VUndefined | VNull => false
  | VBool b => b
  | VNumber n => negb (n =? 0)%Z
  | VString s => negb (String.eqb s "")
  | VBuffer _ | VObject _ | VClient _ | VPromise _ => true
  end.

(** String conversion as done by [+] with a string operand. Numbers are whole
    numbers here and print as JavaScript prints them up to
    [Number.MAX_SAFE_INTEGER]; beyond that JavaScript rounds, and from 1e21 on
    it prints an exponent. There are no arrays among the values. *)
Definition to_string (v : value) : string :=
  match v with
  | VUndefined => "undefined"
  | VNull => "null"
  | VBool true => "true"
  | VBool false => "false"
  | VNumber n => pretty n
  | VString s => s
  | VBuffer bytes => string_of_list_ascii (map ascii_of_byte bytes)
  | VObject _ | VClient _ | VPromise _ => "[object Object]"
  end.

(** [obj[key]] on the own properties of an object. *)
Fixpoint get_own (obj : object) (key : string) : option value :=
  match obj with
  | [] => None
  | (k, v) :: rest => if String.eqb k key then Some v else get_own rest key
  end.

Definition get_prop (obj : object) (key : string) : value :=
  default VUndefined (get_own obj key).

(** [obj[key] = v]: an existing property keeps its place, a new one goes last. *)
Fixpoint set_prop (obj : object) (key : string) (v : value) : object :=
  match obj with
  | [] => [(key, v)]
  | (k, v0) :: rest =>
      if String.eqb k key then (k, v) :: rest else (k, v0) :: set_prop rest key v
  end.

(** [v[key]] on any value: primitives have none of the keys used here. *)
Definition member (v : value) (key : string) : value :=
  match v with
  | VObject props => get_prop props key
  | _ => VUndefined
  end.

(** [_.get(v, path)] *)
Fixpoint lodash_get (v : value) (path : list string) : value :=
  match path with
  | [] => v
  | key :: rest => lodash_get (member v key) rest
  end.

Definition object_keys (obj : object) : list string := map fst obj.

(** [_.omit(obj, keys)] *)
Definition lodash_omit (obj : object) (keys : list string) : object :=
  filter (λ kv, negb (existsb (String.eqb kv.1) keys)) obj.

(** An array of strings converted to a string: the elements joined by commas. *)
Definition array_to_string (xs : list string) : string := String.concat "," xs.

(** The names that every object inherits from [Object.prototype]. *)
Definition inherited_names : list string :=
  [ "constructor"; "__defineGetter__"; "__defineSetter__"; "hasOwnProperty";
    "__lookupGetter__"; "__lookupSetter__"; "isPrototypeOf"; "propertyIsEnumerable";
    "toString"; "valueOf"; "__proto__"; "toLocaleString" ].

(** [_.isLength(v)], lodash's test for the [length] of something it walks as
    an array: a whole number from 0 to [Number.MAX_SAFE_INTEGER]. *)
Definition isLength (v : value) : bool :=
  match v with
  | VNumber n => (0 <=? n)%Z && (n <=? 9007199254740991)%Z
  | _ => false
  end.

(** [_.size(obj)]: an object whose [length] passes that test counts as an
    array and its [length] is its size; any other object has the size of the
    number of its properties. *)
Definition lodash_size (obj : object) : Z :=
  match get_prop obj "length" with
  | VNumber n => if isLength (VNumber n) then n else Z.of_nat (length obj)
  | _ => Z.of_nat (length obj)
  end.

(** The values and keys that [_.each(obj, f)] passes to [f], in order: for an
    object whose [length] passes the test the indices below it, each with what
    the object holds there, and for any other object its properties. *)
Definition lodash_each (obj : object) : list (string * value) :=
  match get_prop obj "length" with
  | VNumber n =>
      if isLength (VNumber n)
      then map (λ index : nat, (pretty index, get_prop obj (pretty index)))
             (seq 0 (Z.to_nat n))
      else obj
  | _ => obj
  end.

(** ** The platform

    Modelled from the spec: the collaborators that [index.js] requires but
    that are not part of it. [cuid] is the id generator (its n-th result),
    [tmp_path] the path that [files.saveToTemporaryFile] picks for "a new
    temporary file with the field's canonical extension" given the files that
    exist and the extension,
    [route_key] the key that the plot server's [addRouteToFile] hands out
    given the routes that exist and the suggested key ("collisions are
    rejected by re-deriving a new key, never by overwriting"), and
    [base64_decode] the decoding done by [new Buffer(text, 'base64')]. *)
Class Platform := {
  cuid : nat → string;
  cuid_inj : Inj (=) (=) cuid;
  tmp_path : gmap string value → string → string;
  tmp_path_fresh : ∀ fs ext, fs !! tmp_path fs ext = None;
  tmp_path_extension : ∀ fs ext, ∃ stem, tmp_path fs ext = stem +:+ ext;
  route_key : gmap string string → string → string;
  route_key_fresh : ∀ routes suggested, routes !! route_key routes suggested = None;
  base64_decode : string → list Byte.byte;
  path_sep : ascii;
}.

(** ** Promises, callbacks and the state of the main process *)

Inductive outcome :=
| Fulfilled (v : value)
| Rejected (e : error).

(** The callbacks that [index.js] passes to [.then] and [.catch]. *)
Inductive handler :=
| HClientCreated (instanceId : string) (resolveClient : nat)
    (* onCreateKernelInstance: [function (client) { ... }] after [create(options)] *)
| HCreateFailed (instanceId : string)
    (* onCreateKernelInstance: [.catch(function () { ... })] *)
| HClientCall (method : string) (args : list value)
    (* [client => client.method(args...)] *)
| HKilled (id : string).
    (* onKillKernelInstance: the last [.then(function () { ... })] *)

(** The callbacks that [index.js] passes to [client.on]. *)
Inductive listener :=
| LReady (instanceId : string) (resolveClient : nat)
| LLogEvent (instanceId : string)
| LLogError (instanceId : string)
| LClose (instanceId : string)
| LForward (windowName eventName : string).

(** What waits on a promise: the callbacks given to [then] or [catch] with
    the promise that the call returned, or, with no callbacks, a promise that
    was resolved with this one and follows it. *)
Record reaction := MkReaction {
  on_fulfilled : option handler;
  on_rejected : option handler;
  child : nat;
  follows : bool;
}.

(** The reaction of a [then] or a [catch]. *)
Abbreviation Reaction onFulfilled onRejected promise :=
  (MkReaction onFulfilled onRejected promise false).

(** Cancellation is switched on ([bluebird.config] at the top of the file): a
    promise that is not settled can be cancelled, and then never settles. *)
Inductive pstate :=
| Pending (reactions : list reaction)
| Settled (o : outcome)
| Cancelled.

(** Where a cancellation goes on from a promise: to the promise whose [then]
    or [catch] made it, or to the promise that it follows. *)
Inductive source :=
| MadeFrom (parent : nat)
| Following (followee : nat).

Record job := Job { job_reaction : reaction; job_outcome : outcome }.

Record timer := Timer { deadline : N; timed : nat; timeout_message : string }.

(** What [kernelClients[id]] finds: the promise stored under [id], or a member
    that the table inherits. *)
Inductive entry :=
| Stored (promise : nat)
| Inherited.

(** What the main process asks of its collaborators, oldest first. A call that
    returns a promise records the reference of that promise; the environment
    settles it later. *)
Inductive call :=
| CreateClient (options : object) (p : nat)
| CheckClient (options : object) (p : nat)
| ClientRequest (c : nat) (method : string) (args : list value) (p : nat)
| CopyFile (source destination : string) (p : nat)
| WindowSend (windowName eventName : string) (args : list value).

Record world := World {
  kernelClients : gmap string nat;
  promises : gmap nat pstate;
  next_ref : nat;
  jobs : list job;
  timers : list timer;
  now : N;
  listeners : list (nat * string * listener);
  calls : list call;
  logs : list (string * list string);
  cuid_count : nat;
  files : gmap string value;
  urls : gmap string string;
  upstream : gmap nat source;
}.

Definition empty_world : world :=
  World ∅ ∅ 0 [] [] 0 [] [] [] 0 ∅ ∅ ∅.

Definition set_kernelClients (f : gmap string nat → gmap string nat) (w : world) : world :=
  World (f (kernelClients w)) (promises w) (next_ref w) (jobs w) (timers w) (now w)
    (listeners w) (calls w) (logs w) (cuid_count w) (files w) (urls w) (upstream w).
Definition set_promises (f : gmap nat pstate → gmap nat pstate) (w : world) : world :=
  World (kernelClients w) (f (promises w)) (next_ref w) (jobs w) (timers w) (now w)
    (listeners w) (calls w) (logs w) (cuid_count w) (files w) (urls w) (upstream w).
Definition set_next_ref (n : nat) (w : world) : world :=
  World (kernelClients w) (promises w) n (jobs w) (timers w) (now w)
    (listeners w) (calls w) (logs w) (cuid_count w) (files w) (urls w) (upstream w).
Definition set_jobs (f : list job → list job) (w : world) : world :=
  World (kernelClients w) (promises w) (next_ref w) (f (jobs w)) (timers w) (now w)
    (listeners w) (calls w) (logs w) (cuid_count w) (files w) (urls w) (upstream w).
Definition set_timers (f : list timer → list timer) (w : world) : world :=
  World (kernelClients w) (promises w) (next_ref w) (jobs w) (f (timers w)) (now w)
    (listeners w) (calls w) (logs w) (cuid_count w) (files w) (urls w) (upstream w).
Definition set_now (t : N) (w : world) : world :=
  World (kernelClients w) (promises w) (next_ref w) (jobs w) (timers w) t
    (listeners w) (calls w) (logs w) (cuid_count w) (files w) (urls w) (upstream w).
Definition set_listeners (f : list (nat * string * listener) → list (nat * string * listener))
    (w : world) : world :=
  World (kernelClients w) (promises w) (next_ref w) (jobs w) (timers w) (now w)
    (f (listeners w)) (calls w) (logs w) (cuid_count w) (files w) (urls w) (upstream w).
Definition set_calls (f : list call → list call) (w : world) : world :=
  World (kernelClients w) (promises w) (next_ref w) (jobs w) (timers w) (now w)
    (listeners w) (f (calls w)) (logs w) (cuid_count w) (files w) (urls w) (upstream w).
Definition set_logs (f : list (string * list string) → list (string * list string))
    (w : world) : world :=
  World (kernelClients w) (promises w) (next_ref w) (jobs w) (timers w) (now w)
    (listeners w) (calls w) (f (logs w)) (cuid_count w) (files w) (urls w) (upstream w).
Definition set_cuid_count (n : nat) (w : world) : world :=
  World (kernelClients w) (promises w) (next_ref w) (jobs w) (timers w) (now w)
    (listeners w) (calls w) (logs w) n (files w) (urls w) (upstream w).
Definition set_files (f : gmap string value → gmap string value) (w : world) : world :=
  World (kernelClients w) (promises w) (next_ref w) (jobs w) (timers w) (now w)
    (listeners w) (calls w) (logs w) (cuid_count w) (f (files w)) (urls w) (upstream w).
Definition set_urls (f : gmap string string → gmap string string) (w : world) : world :=
  World (kernelClients w) (promises w) (next_ref w) (jobs w) (timers w) (now w)
    (listeners w) (calls w) (logs w) (cuid_count w) (files w) (f (urls w)) (upstream w).
Definition set_upstream (f : gmap nat source → gmap nat source) (w : world) : world :=
  World (kernelClients w) (promises w) (next_ref w) (jobs w) (timers w) (now w)
    (listeners w) (calls w) (logs w) (cuid_count w) (files w) (urls w) (f (upstream w)).

(** ** Synchronous code: state and exceptions

    A throw keeps the effects made before it, as in JavaScript. *)
Definition M (A : Type) : Type := world → result A * world.

Definition ret {A} (a : A) : M A := λ w, (Return a, w).
Definition throw {A} (e : error) : M A := λ w, (Throw e, w).
Definition bind {A B} (m : M A) (k : A → M B) : M B :=
  λ w, match m w with
       | (Return a, w') => k a w'
       | (Throw e, w') => (Throw e, w')
       end.
Definition modify (f : world → world) : M unit := λ w, (Return tt, f w).
Definition gets {A} (f : world → A) : M A := λ w, (Return (f w), w).
(** [try { m } catch (e) { ... }]: the result of [m], thrown or returned. *)
Definition attempt {A} (m : M A) : M (result A) :=
  λ w, let (r, w') := m w in (Return r, w').

Declare Scope js_scope.
Delimit Scope js_scope with js.
Notation "'let!' x ':=' m 'in' k" := (bind m (λ x, k))
  (at level 10, x name, m at level 100, k at level 200) : js_scope.
Notation "m '>>' k" := (bind m (λ _, k))
  (at level 61, left associativity, only parsing) : js_scope.
Local Open Scope js_scope.

(** [log(level, ...)]: the level and the string arguments are recorded. *)
Definition log (level : string) (args : list string) : M unit :=
  modify (set_logs (λ l, l ++ [(level, args)])).

Definition record_call (c : call) : M unit :=
  modify (set_calls (λ l, l ++ [c])).

Definition lift {A} (r : result A) : M A := λ w, (r, w).

(** ** Constants of the module *)

Definition autoCompleteTimeout : Z := 5.
Definition second : Z := 1000.

(** ** assertValidObject *)

Definition isString (v : value) : bool :=
  match v with VString _ => true | _ => false end.
Definition isPlainObject (v : value) : bool :=
  match v with VObject _ => true | _ => false end.
Definition isNumber (v : value) : bool :=
  match v with VNumber _ => true | _ => false end.
Definition isBoolean (v : value) : bool :=
  match v with VBool _ => true | _ => false end.
Definition isObject (v : value) : bool :=
  match v with
  | VObject _ | VBuffer _ | VClient _ | VPromise _ => true
  | _ => false
  end.
Definition isUndefined (v : value) : bool :=
  match v with VUndefined => true | _ => false end.

(** The table [validators], looked up by a key. *)
Definition validators (key : string) : option (value → bool) :=
  if String.eqb key "string" then Some isString
  else if String.eqb key "object" then Some isPlainObject
  else if String.eqb key "number" then Some isNumber
  else if String.eqb key "boolean" then Some isBoolean
  else None.

(** The body of the callback given to [_.each(validOptions, ...)]. *)
Definition assertValidProperty (obj : object) (definition : value) (key : string)
    : result unit :=
  let value := get_prop obj key in
  let typed :=
    if isObject definition
    then Some (member definition "type", member definition "required")
    else if isString definition then Some (definition, VBool false)
    else None in
  match typed with
  | None =>
      Throw (Error ("Bad definition of object type assertion: " +:+ to_string definition
                    +:+ " for " +:+ key))
  | Some (expectedType, isRequired) =>
      match validators (to_string expectedType) with
      | None =>
          Throw (Error ("Missing validator type " +:+ to_string expectedType
                        +:+ " for property " +:+ key))
      | Some validator =>
          if truthy isRequired && isUndefined value
          then Throw (Error ("Missing required property " +:+ key))
          else if negb (isUndefined value) && negb (validator value)
          then Throw (Error ("Invalid property " +:+ key +:+ ": expected "
                             +:+ to_string expectedType +:+ " but got " +:+ to_string value))
          else Return tt
      end
  end.

(** [_.each(validOptions, function (definition, key) { ... })] over the
    pairs that [_.each] takes from the definitions. *)
Fixpoint assertValidProperties (obj : object) (validOptions : object) : result unit :=
  match validOptions with
  | [] => Return tt
  | (key, definition) :: rest =>
      match assertValidProperty obj definition key with
      | Return _ => assertValidProperties obj rest
      | Throw e => Throw e
      end
  end.

Definition assertValidObject (obj validOptions : object) : result unit :=
  let bannedProperties := lodash_omit obj (object_keys validOptions) in
  if (0 <? lodash_size bannedProperties)%Z
  then Throw (Error ("Properties " +:+ array_to_string (object_keys bannedProperties)
                     +:+ " are not allowed"))
  else assertValidProperties obj (lodash_each validOptions).

(** The definition object that [onCheckKernel] and [onCreateKernelInstance]
    both pass: [{cmd: {type: 'string', isRequired: true}, cwd: {type: 'string'}}]. *)
Definition kernelOptions : object :=
  [ ("cmd", VObject [("type", VString "string"); ("isRequired", VBool true)]);
    ("cwd", VObject [("type", VString "string")]) ].

Section Main.
Context `{Platform}.

(** ** Temporary files and plot routes *)

(** Modelled from the spec: [files.saveToTemporaryFile(extension, data)]
    persists the content to a new temporary file and yields its path. The file
    is taken as written when the call is made. *)
Definition saveToTemporaryFile (extension : string) (data : value) : M string :=
  let! existing := gets files in
  let filepath := tmp_path existing extension in
  modify (set_files (insert filepath data)) >>
  ret filepath.

(** Modelled from the spec: [plotServerInstance.addRouteToFile(filePath,
    suggestedKey)] registers a mapping under a key that no route has yet and
    returns that key; [plotServerInstance.urls] is the mapping. *)
Definition addRouteToFile (filepath route : string) : M string :=
  let! routes := gets urls in
  let key := route_key routes route in
  modify (set_urls (insert key filepath)) >>
  ret key.

(** [s.split(sep)] for a one-character separator. *)
Fixpoint split (s : string) (sep : ascii) : list string :=
  match s with
  | EmptyString => [""]
  | String c rest =>
      if Ascii.eqb c sep then "" :: split rest sep
      else match split rest sep with
           | [] => [String c ""]
           | x :: xs => String c x :: xs
           end
  end.

(** [_.last] of an array of strings, as it reads once added to a string. *)
Definition lodash_last (xs : list string) : string := default "undefined" (last xs).

(** [v[key] = x] where [v] is an object. *)
Definition set_member (v : value) (key : string) (x : value) : value :=
  match v with
  | VObject props => VObject (set_prop props key x)
  | _ => v
  end.

(** The object [v] after the assignment that replaces what sits at [path]. *)
Fixpoint update_in (v : value) (path : list string) (x : value) : value :=
  match path with
  | [] => x
  | key :: rest => set_member v key (update_in (member v key) rest x)
  end.

(** [new Buffer(v, 'base64')]. Text is decoded and a buffer is copied; a
    number is refused because an encoding comes with it, and so is anything
    else. The wording of the two messages varies with the version of Node. *)
Definition new_Buffer (v : value) : result value :=
  match v with
  | VString s => Return (VBuffer (base64_decode s))
  | VBuffer bytes => Return (VBuffer bytes)
  | VNumber n =>
      Throw (Error "If encoding is specified then the first argument must be a string")
  | _ => Throw (TypeError "must start with number, buffer, array or string")
  end.

(** [data] is the object that the event holds: the assignment is returned as
    the new state of that same object. *)
Definition replacePropertyWithTemporaryFile (extension : string) (data : value)
    (property : string) : M value :=
  if truthy (member data property) then
    let! filepath := saveToTemporaryFile extension (member data property) in
    let name := lodash_last (split filepath path_sep) in
    let! route := addRouteToFile filepath ("/" +:+ name) in
    log "info" ["new plot served from"; route] >>
    ret (set_member data property (VString route))
  else
    log "debug" ["no"; property; "on data"] >>
    ret data.

Definition is_display_data (type : value) : bool :=
  match type with VString s => String.eqb s "display_data" | _ => false end.

(** The function returns a promise; the model gives the event that the promise
    resolves with and the state at that moment. The three replacements are
    started in the order html, png, svg; each one touches its own property,
    its own file and its own route, and they are run here in that order. *)
Definition displayDataTransform (event : value) : M value :=
  let type := lodash_get event ["result"; "msg_type"] in
  let data := lodash_get event ["result"; "content"; "data"] in
  if is_display_data type && truthy data then
    let! data :=
      (if truthy (member data "image/png")
       then let! buffer := lift (new_Buffer (member data "image/png")) in
            ret (set_member data "image/png" buffer)
       else ret data) in
    let! data := replacePropertyWithTemporaryFile ".html" data "text/html" in
    let! data := replacePropertyWithTemporaryFile ".png" data "image/png" in
    let! data := replacePropertyWithTemporaryFile ".svg" data "image/svg" in
    ret (update_in event ["result"; "content"; "data"] data)
  else ret event.

(** What the first statement of the transform makes of the data object: its
    [image/png] field, if it holds something, becomes a buffer, or the
    construction of the buffer throws. *)
Inductive buffered (data : value) : result value → Prop :=
| buffered_none :
    truthy (member data "image/png") = false → buffered data (Return data)
| buffered_some buffer :
    truthy (member data "image/png") = true →
    new_Buffer (member data "image/png") = Return buffer →
    buffered data (Return (set_member data "image/png" buffer))
| buffered_throw e :
    truthy (member data "image/png") = true →
    new_Buffer (member data "image/png") = Throw e →
    buffered data (Throw e).

(** ** Bluebird promises *)

(** A new promise takes the next reference; nothing is on record yet about
    where it comes from. *)
Definition new_promise (st : pstate) : M nat :=
  let! p := gets next_ref in
  modify (set_promises (insert p st)) >>
  modify (set_upstream (delete p)) >>
  modify (set_next_ref (S p)) >>
  ret p.

(** A pending promise settles once; its reactions are queued in the order of
    their registration. Settling a settled or a cancelled promise does
    nothing. *)
Definition settled_with (o : outcome) (st : pstate) : pstate :=
  match st with
  | Pending _ => Settled o
  | Settled o' => Settled o'
  | Cancelled => Cancelled
  end.

Definition reactions_of (st : option pstate) : list reaction :=
  match st with
  | Some (Pending reactions) => reactions
  | _ => []
  end.

Definition settle (p : nat) (o : outcome) : M unit :=
  let! st := gets (λ w, promises w !! p) in
  modify (set_promises (alter (settled_with o) p)) >>
  modify (set_jobs (λ q, q ++ map (λ r, Job r o) (reactions_of st))).

(** Registering a reaction: kept by a pending promise, queued at once for a
    settled one. Who comes to a cancelled promise is turned away with a
    rejection. *)
Definition with_reaction (r : reaction) (st : pstate) : pstate :=
  match st with
  | Pending reactions => Pending (reactions ++ [r])
  | Settled o => Settled o
  | Cancelled => Cancelled
  end.

Definition late_observer : error := CancellationError "late cancellation observer".

Definition job_now (r : reaction) (st : option pstate) : list job :=
  match st with
  | Some (Settled o) => [Job r o]
  | Some Cancelled => [Job r (Rejected late_observer)]
  | _ => []
  end.

Definition subscribe (p : nat) (r : reaction) : M unit :=
  let! st := gets (λ w, promises w !! p) in
  modify (set_promises (alter (with_reaction r) p)) >>
  modify (set_jobs (λ q, q ++ job_now r st)).

(** [p.then(h)] *)
Definition then_ (p : nat) (h : handler) : M nat :=
  let! q := new_promise (Pending []) in
  subscribe p (Reaction (Some h) None q) >>
  modify (set_upstream (insert q (MadeFrom p))) >>
  ret q.

(** [p.catch(h)] *)
Definition catch_ (p : nat) (h : handler) : M nat :=
  let! q := new_promise (Pending []) in
  subscribe p (Reaction None (Some h) q) >>
  modify (set_upstream (insert q (MadeFrom p))) >>
  ret q.

(** [p.timeout(ms, message)]: a promise that takes the outcome of [p] and that
    a timer rejects with a [TimeoutError] if it is still pending when the
    timer fires. Bluebird makes it in two steps, [p.then()] and from that the
    promise it returns; the two settle together and only the second is handed
    out, so they share one reference here. Bluebird clears the timer once the
    promise is settled; here the timer stays and does nothing when it fires
    then (see [fire]). *)
Definition timeout (p : nat) (ms : Z) (message : string) : M nat :=
  let! q := new_promise (Pending []) in
  subscribe p (Reaction None None q) >>
  modify (set_upstream (insert q (MadeFrom p))) >>
  let! t := gets now in
  modify (set_timers (λ l, l ++ [Timer (t + Z.to_N ms) q message])) >>
  ret q.

(** Resolving [q] with what a callback returned: a promise is followed, any
    other value fulfils. *)
Definition resolve (q : nat) (v : value) : M unit :=
  match v with
  | VPromise r =>
      subscribe r (MkReaction None None q true) >>
      modify (set_upstream (insert q (Following r)))
  | _ => settle q (Fulfilled v)
  end.

(** ** Cancellation

    [p.cancel()] as bluebird does it with cancellation switched on. The
    request climbs from a promise to the promise it was made from for as long
    as that one is pending and has no other [then] or [catch] waiting on it
    that has not been cancelled; a promise that follows another one hands the
    request to that one. Where the climb ends, the promise is cancelled and
    with it every promise that waits on it, through [then], [catch] or by
    following; none of their callbacks is called. Bluebird counts the
    branches of a promise that remain to be cancelled; here a branch that has
    been cancelled is taken off the list of those that wait, and the branches
    that remain are counted on the list. What a collaborator does when the
    promise of one of its calls is cancelled is its own business: here that
    promise is cancelled and a later answer does nothing. [fuel] and [budget]
    bound the walks by the number of promises there are. *)

Definition is_pending (st : option pstate) : bool :=
  match st with
  | Some (Pending _) => true
  | _ => false
  end.

(** [p._cancel()] and its effect on those that wait on [p]. *)
Fixpoint cancel_down (fuel : nat) (p : nat) (ps : gmap nat pstate) : gmap nat pstate :=
  match ps !! p with
  | Some (Pending reactions) =>
      match fuel with
      | O => <[p := Cancelled]> ps
      | S fuel' =>
          foldl (λ ps' r, cancel_down fuel' (child r) ps') (<[p := Cancelled]> ps) reactions
      end
  | _ => ps
  end.

(** The branches of a promise that remain once the branch of [c] has been
    cancelled: the [then]s and [catch]es other than the one that made [c]. *)
Definition other_branches (c : nat) (reactions : list reaction) : list reaction :=
  List.filter (λ r, negb (follows r) && negb (Nat.eqb (child r) c)) reactions.

Definition without_branch (c : nat) (reactions : list reaction) : list reaction :=
  List.filter (λ r, follows r || negb (Nat.eqb (child r) c)) reactions.

(** The request to cancel arrives at [p]: from [p.cancel()] itself when [from]
    is [None], from its child [c] when [from] is [Some c]. *)
Fixpoint cancel_up (fuel : nat) (up : gmap nat source) (budget : nat) (p : nat)
    (from : option nat) (ps : gmap nat pstate) : gmap nat pstate :=
  match ps !! p with
  | Some (Pending reactions) =>
      let remaining :=
        match from with
        | Some c => other_branches c reactions
        | None => []
        end in
      match remaining, from with
      | _ :: _, Some c =>
          (* other branches wait on [p]: only the branch of [c] is cancelled *)
          let ps' := <[p := Pending (without_branch c reactions)]> ps in
          match up !! c with
          | Some (Following followee) =>
              match fuel with
              | S fuel' => cancel_up fuel' up budget followee None ps'
              | O => ps'
              end
          | _ => cancel_down budget c ps'
          end
      | _, _ =>
          match up !! p with
          | Some (Following followee) =>
              match fuel with
              | S fuel' => cancel_up fuel' up budget followee None ps
              | O => ps
              end
          | Some (MadeFrom parent) =>
              if is_pending (ps !! parent)
              then match fuel with
                   | S fuel' => cancel_up fuel' up budget parent (Some p) ps
                   | O => ps
                   end
              else cancel_down budget p ps
          | None => cancel_down budget p ps
          end
      end
  | _ => ps
  end.

(** What [p.timeout] does after it has rejected the promise [q] it returned:
    it cancels the [p.then()] it made [q] from, and the request goes on to
    [p], the branch of [q] being cancelled. *)
Definition cancel_behind (q : nat) : M unit :=
  modify (λ w,
    match upstream w !! q with
    | Some (MadeFrom p) =>
        set_promises (cancel_up (next_ref w) (upstream w) (next_ref w) p (Some q)) w
    | _ => w
    end).

(** A call to a collaborator that answers with a promise. *)
Definition request (mk : nat → call) : M nat :=
  let! r := new_promise (Pending []) in
  record_call (mk r) >>
  ret r.

(** ** Kernel events forwarded to a window *)

Fixpoint transform_all (args : list value) : M (list value) :=
  match args with
  | [] => ret []
  | arg :: rest =>
      let! arg' := displayDataTransform arg in
      let! rest' := transform_all rest in
      ret (arg' :: rest')
  end.

Definition client_on (c : nat) (eventName : string) (l : listener) : M unit :=
  modify (set_listeners (λ ls, ls ++ [(c, eventName, l)])).

Definition subscribeBrowserWindowToEvent (windowName : string) (emitter : nat)
    (eventName : string) : M unit :=
  client_on emitter eventName (LForward windowName eventName).

Definition subscribeWindowToKernelEvents (windowName : string) (client : nat) : M unit :=
  subscribeBrowserWindowToEvent windowName client "shell" >>
  subscribeBrowserWindowToEvent windowName client "iopub" >>
  subscribeBrowserWindowToEvent windowName client "stdin" >>
  subscribeBrowserWindowToEvent windowName client "event" >>
  subscribeBrowserWindowToEvent windowName client "input_request" >>
  subscribeBrowserWindowToEvent windowName client "error" >>
  subscribeBrowserWindowToEvent windowName client "close".

(** ** The callbacks *)

Definition run_listener (l : listener) (client : nat) (args : list value) : M unit :=
  match l with
  | LReady instanceId resolveClient =>
      log "info" ["new python kernel process is ready"; instanceId; "process"] >>
      resolve resolveClient (VClient client)
  | LLogEvent instanceId =>
      log "info" ["python kernel process event"; instanceId; "process"]
  | LLogError instanceId =>
      log "info" ["python kernel process error"; instanceId; "process"]
  | LClose instanceId =>
      log "info" ["python kernel process closed"; instanceId; "process"] >>
      modify (set_kernelClients (delete instanceId))
  | LForward windowName eventName =>
      (* the payloads pass through the transform, then go to the window *)
      let! normalizedList := transform_all args in
      record_call (WindowSend windowName eventName normalizedList)
  end.

Definition run_handler (h : handler) (o : outcome) : M value :=
  match h with
  | HClientCreated instanceId resolveClient =>
      match o with
      | Fulfilled (VClient client) =>
          log "info" ["created new python kernel process"; instanceId; "process"] >>
          client_on client "ready" (LReady instanceId resolveClient) >>
          client_on client "event" (LLogEvent instanceId) >>
          client_on client "error" (LLogError instanceId) >>
          client_on client "close" (LClose instanceId) >>
          subscribeWindowToKernelEvents "mainWindow" client >>
          let! table := gets kernelClients in
          ret (match table !! instanceId with
               | Some p => VPromise p
               | None => VUndefined
               end)
      | _ => throw (TypeError "Cannot read property 'pid' of undefined")
      end
  | HCreateFailed instanceId =>
      log "error" ["failed to create instance"; instanceId] >>
      modify (set_kernelClients (delete instanceId)) >>
      ret VUndefined
  | HClientCall method args =>
      match o with
      | Fulfilled (VClient client) =>
          let! r := request (ClientRequest client method args) in
          ret (VPromise r)
      | _ => throw (TypeError ("client." +:+ method +:+ " is not a function"))
      end
  | HKilled id =>
      log "info" ["successfully killed python kernel process reference"; id] >>
      ret VUndefined
  end.

(** One queued reaction: the matching callback runs and its result resolves
    the child; without a matching callback the outcome passes to the child. *)
Definition run_job (j : job) : M unit :=
  let r := job_reaction j in
  let callback :=
    match job_outcome j with
    | Fulfilled _ => on_fulfilled r
    | Rejected _ => on_rejected r
    end in
  match callback with
  | Some h =>
      let! returned := attempt (run_handler h (job_outcome j)) in
      match returned with
      | Return v => resolve (child r) v
      | Throw e => settle (child r) (Rejected e)
      end
  | None => settle (child r) (job_outcome j)
  end.

(** The queue is emptied before the next event is taken. *)
Fixpoint drain (fuel : nat) (w : world) : option world :=
  match jobs w with
  | [] => Some w
  | j :: rest =>
      match fuel with
      | O => None
      | S fuel' => drain fuel' (run_job j (set_jobs (λ _, rest) w)).2
      end
  end.

(** ** The IPC handlers *)

Definition onCheckKernel (options : object) : M value :=
  lift (assertValidObject options kernelOptions) >>
  let! r := request (CheckClient options) in
  ret (VPromise r).

Definition onCreateKernelInstance (options : object) : M value :=
  lift (assertValidObject options kernelOptions) >>
  let! n := gets cuid_count in
  let instanceId := cuid n in
  modify (set_cuid_count (S n)) >>
  (* the executor of the stored promise runs before the assignment *)
  let! resolveClient := new_promise (Pending []) in
  log "info" ["creating new python kernel process"; "creating python client"] >>
  let! created := request (CreateClient options) in
  let! wired := then_ created (HClientCreated instanceId resolveClient) in
  let! _ := catch_ wired (HCreateFailed instanceId) in
  modify (set_kernelClients (insert instanceId resolveClient)) >>
  let! outer := new_promise (Settled (Fulfilled (VString instanceId))) in
  ret (VPromise outer).

(** [kernelClients[id]]. The table is a plain object: under a name that
    every object inherits it holds, unless a session is stored under that
    name, the member of [Object.prototype], which is truthy and no promise. *)
Definition table_get (table : gmap string nat) (id : string) : option entry :=
  match table !! id with
  | Some promise => Some (Stored promise)
  | None => if bool_decide (id ∈ inherited_names) then Some Inherited else None
  end.
Arguments table_get : simpl never.

Definition onKillKernelInstance (id : string) : M value :=
  let! table := gets kernelClients in
  match table_get table id with
  | None => throw (Error "Kernel with that id does not exist.")
  | Some found =>
      log "info" ["deleted python kernel process reference"; id] >>
      match found with
      | Stored promise =>
          let! killing := then_ promise (HClientCall "kill" []) in
          let! killed := then_ killing (HKilled id) in
          ret (VPromise killed)
      | Inherited => throw (TypeError "promise.then is not a function")
      end
  end.

Definition getKernelInstanceById (id : value) : M entry :=
  log "info" ["getKernelInstanceById"; to_string id] >>
  let! table := gets kernelClients in
  match table_get table (to_string id) with
  | None => throw (Error ("Kernel with this id does not exist: " +:+ to_string id))
  | Some found => ret found
  end.

(** [getKernelInstanceById(options.instanceId).then(client => client.method(args))] *)
Definition forward (options : object) (method : string) (args : list value) : M nat :=
  let! found := getKernelInstanceById (get_prop options "instanceId") in
  match found with
  | Stored promise => then_ promise (HClientCall method args)
  | Inherited => throw (TypeError "getKernelInstanceById(...).then is not a function")
  end.

Definition onExecuteWithKernel (options : object) (text : value) : M value :=
  if negb (truthy text) then throw (Error "Missing text to execute")
  else
    log "info" ["onExecuteWithKernel"; to_string text] >>
    let! q := forward options "execute" [text] in
    ret (VPromise q).

Definition onGetAutoComplete (options : object) (text cursorPos : value) : M value :=
  let! q := forward options "getAutoComplete" [text; cursorPos] in
  let! t := timeout q (autoCompleteTimeout * second)
              ("AutoComplete failed to finish in " +:+ to_string (VNumber autoCompleteTimeout)
               +:+ " seconds") in
  ret (VPromise t).

Definition onIsComplete (options : object) (text : value) : M value :=
  let! q := forward options "isComplete" [text] in ret (VPromise q).

Definition onGetInspection (options : object) (text cursorPos : value) : M value :=
  let! q := forward options "getInspection" [text; cursorPos] in ret (VPromise q).

Definition onGetStatus (options : object) : M value :=
  let! q := forward options "getStatus" [] in ret (VPromise q).

Definition onExecuteHidden (options : object) (code resolveEvent : value) : M value :=
  let! q := forward options "executeHidden" [code; resolveEvent] in ret (VPromise q).

Definition onEval (options : object) (text : value) : M value :=
  let! q := forward options "getEval" [text] in ret (VPromise q).

Definition onInterrupt (options : object) : M value :=
  let! q := forward options "interrupt" [] in ret (VPromise q).

Definition onSavePlot (url filename : string) : M value :=
  let! routes := gets urls in
  match routes !! url with
  | None => throw (Error ("No such url: " +:+ url))
  | Some tempFilename =>
      log "info" ["onSavePlot"] >>
      let! r := request (CopyFile tempFilename filename) in
      ret (VPromise r)
  end.

(** ** The event loop

    Between two events the queue of reactions is empty. An event is a request
    over IPC, a collaborator settling a promise it returned, a client emitting
    an event, time passing, or a timer that is due firing. *)

Inductive ipc :=
| CheckKernel (options : object)
| CreateKernelInstance (options : object)
| KillKernelInstance (id : string)
| ExecuteWithKernel (options : object) (text : value)
| GetAutoComplete (options : object) (text cursorPos : value)
| IsComplete (options : object) (text : value)
| GetInspection (options : object) (text cursorPos : value)
| GetStatus (options : object)
| ExecuteHidden (options : object) (code resolveEvent : value)
| Eval (options : object) (text : value)
| Interrupt (options : object)
| SavePlot (url filename : string).

Definition handle (r : ipc) : M value :=
  match r with
  | CheckKernel options => onCheckKernel options
  | CreateKernelInstance options => onCreateKernelInstance options
  | KillKernelInstance id => onKillKernelInstance id
  | ExecuteWithKernel options text => onExecuteWithKernel options text
  | GetAutoComplete options text cursorPos => onGetAutoComplete options text cursorPos
  | IsComplete options text => onIsComplete options text
  | GetInspection options text cursorPos => onGetInspection options text cursorPos
  | GetStatus options => onGetStatus options
  | ExecuteHidden options code resolveEvent => onExecuteHidden options code resolveEvent
  | Eval options text => onEval options text
  | Interrupt options => onInterrupt options
  | SavePlot url filename => onSavePlot url filename
  end.

Inductive event :=
| Calls (r : ipc)
| Settles (p : nat) (o : outcome)
| Emits (client : nat) (eventName : string) (args : list value)
| Passes (ms : N)
| Fires (t : timer).

(** [client.emit(eventName, ...args)]: the listeners of that client and event
    run in the order of their registration; a throw ends the emission. *)
Fixpoint emit_to (ls : list (nat * string * listener)) (client : nat) (eventName : string)
    (args : list value) : M unit :=
  match ls with
  | [] => ret tt
  | (c, name, l) :: rest =>
      if Nat.eqb c client && String.eqb name eventName
      then run_listener l client args >> emit_to rest client eventName args
      else emit_to rest client eventName args
  end.

Definition emit (client : nat) (eventName : string) (args : list value) : M unit :=
  let! ls := gets listeners in
  emit_to ls client eventName args.

Definition timer_eqb (a b : timer) : bool :=
  N.eqb (deadline a) (deadline b) && Nat.eqb (timed a) (timed b)
  && String.eqb (timeout_message a) (timeout_message b).

Definition is_due (t : timer) (w : world) : bool :=
  existsb (timer_eqb t) (timers w) && (deadline t <=? now w)%N.

(** The callback of the timer: [if (ret.isPending()) afterTimeout(ret,
    message, parent)], which rejects the promise and cancels what is behind
    it. *)
Definition fire (t : timer) : M unit :=
  modify (set_timers (filter (λ t', negb (timer_eqb t t')))) >>
  let! st := gets (λ w, promises w !! timed t) in
  settle (timed t) (Rejected (TimeoutError (timeout_message t))) >>
  if is_pending st then cancel_behind (timed t) else ret tt.

(** The promises that collaborators hold: those their calls returned. *)
Definition call_promise (c : call) : option nat :=
  match c with
  | CreateClient _ p | CheckClient _ p | ClientRequest _ _ _ p | CopyFile _ _ p => Some p
  | WindowSend _ _ _ => None
  end.

Definition answers_call (p : nat) (w : world) : bool :=
  existsb (λ c, match call_promise c with Some q => Nat.eqb q p | None => false end)
    (calls w).

Definition step (fuel : nat) (e : event) (w : world) : option world :=
  match e with
  | Calls r => drain fuel (handle r w).2
  | Settles p o => if answers_call p w then drain fuel (settle p o w).2 else None
  | Emits client eventName args => drain fuel (emit client eventName args w).2
  | Passes ms => Some (set_now (now w + ms)%N w)
  | Fires t => if is_due t w then drain fuel (fire t w).2 else None
  end.

Fixpoint run (fuel : nat) (es : list event) (w : world) : option world :=
  match es with
  | [] => Some w
  | e :: rest =>
      match step fuel e w with
      | Some w' => run fuel rest w'
      | None => None
      end
  end.

End Main.

(** ** A reference platform

    One platform that meets the contract, used to run the model on concrete
    inputs: ids are [c0], [c1], ...; temporary files are [/tmp/rodeo-0.png],
    [/tmp/rodeo-1.png], ..., the first that does not exist; a route is the
    suggested key if it is free, or else the first free one made from it. *)

Definition sextet (c : ascii) : option N :=
  let n := N_of_ascii c in
  if ((65 <=? n) && (n <=? 90))%N then Some (n - 65)%N
  else if ((97 <=? n) && (n <=? 122))%N then Some (n - 71)%N
  else if ((48 <=? n) && (n <=? 57))%N then Some (n + 4)%N
  else if ((n =? 43) || (n =? 45))%N then Some 62%N
  else if ((n =? 47) || (n =? 95))%N then Some 63%N
  else None.

Fixpoint sextets (s : string) : list N :=
  match s with
  | EmptyString => []
  | String c rest =>
      if Ascii.eqb c "=" then []
      else match sextet c with
           | Some n => n :: sextets rest
           | None => sextets rest
           end
  end.

Definition byte_of (n : N) : Byte.byte := default Byte.x00 (Byte.of_N (n mod 256)).

Fixpoint bytes_of_sextets (l : list N) : list Byte.byte :=
  match l with
  | a :: b :: c :: d :: rest =>
      byte_of (a * 4 + b / 16) :: byte_of (b * 16 + c / 4) :: byte_of (c * 64 + d)
      :: bytes_of_sextets rest
  | [a; b; c] => [byte_of (a * 4 + b / 16); byte_of (b * 16 + c / 4)]
  | [a; b] => [byte_of (a * 4 + b / 16)]
  | _ => []
  end%N.

Definition reference_base64_decode (s : string) : list Byte.byte :=
  bytes_of_sextets (sextets s).

Definition reference_cuid (n : nat) : string := String "c" (pretty n).

Definition tmp_candidate (extension : string) (n : nat) : string :=
  "/tmp/rodeo-" +:+ pretty n +:+ extension.

Fixpoint first_free (fs : gmap string value) (extension : string) (fuel n : nat) : string :=
  match fuel with
  | O => tmp_candidate extension n
  | S fuel' =>
      match fs !! tmp_candidate extension n with
      | None => tmp_candidate extension n
      | Some _ => first_free fs extension fuel' (S n)
      end
  end.

(** Among the first [size fs + 1] candidates one is free. *)
Definition reference_tmp_path (fs : gmap string value) (extension : string) : string :=
  first_free fs extension (size fs) 0.

#[export, refine] Instance reference_platform : Platform := {|
  cuid := reference_cuid;
  tmp_path := reference_tmp_path;
  route_key routes suggested := fresh_string suggested routes;
  base64_decode := reference_base64_decode;
  path_sep := "/"%char;
|}.
Proof.
  - (* cuid_inj *)
    intros n m Heq. unfold reference_cuid in Heq.
    injection Heq as Heq. by apply (inj pretty).
  - (* tmp_path_fresh *)
    intros fs extension.
    assert (Hlength : ∀ s1 s2,
      String.length (s1 +:+ s2) = (String.length s1 + String.length s2)%nat).
    { intros s1 s2. induction s1 as [|c s1 IH]; simpl; [done|]. f_equal. exact IH. }
    assert (Htail : ∀ s1 s2 e, s1 +:+ e = s2 +:+ e → s1 = s2).
    { intros s1. induction s1 as [|c s1 IH]; intros [|c' s2] e Heq.
      - done.
      - apply (f_equal String.length) in Heq. rewrite !Hlength in Heq.
        simpl in Heq. lia.
      - apply (f_equal String.length) in Heq. rewrite !Hlength in Heq.
        simpl in Heq. lia.
      - change (String c (s1 +:+ e) = String c' (s2 +:+ e)) in Heq.
        injection Heq as -> Heq. f_equal. by eapply IH. }
    assert (Hinj : Inj (=) (=) (tmp_candidate extension)).
    { intros n m Heq. unfold tmp_candidate in Heq.
      apply (inj (String.app _)) in Heq. apply Htail in Heq.
      by apply (inj pretty). }
    assert (Hfree : ∀ fuel n,
      (∀ k, (k < n)%nat → is_Some (fs !! tmp_candidate extension k)) →
      (n + fuel = size fs)%nat →
      fs !! first_free fs extension fuel n = None).
    { intros fuel. induction fuel as [|fuel IH]; intros n Htaken Hsize; cbn.
      - destruct (fs !! tmp_candidate extension n) as [x|] eqn:Hn; [exfalso|done].
        assert (Hsub : list_to_set (tmp_candidate extension <$> seq 0 (S n)) ⊆ dom fs).
        { intros key [k [-> Hk%elem_of_seq]]%elem_of_list_to_set%list_elem_of_fmap.
          apply elem_of_dom. destruct (decide (k = n)) as [->|]; [by eexists|].
          apply Htaken. lia. }
        apply subseteq_size in Hsub. rewrite size_dom in Hsub.
        rewrite size_list_to_set in Hsub by (apply NoDup_fmap_2; [done|apply NoDup_seq]).
        rewrite length_fmap, length_seq in Hsub. lia.
      - destruct (fs !! tmp_candidate extension n) as [x|] eqn:Hn; [|done].
        apply IH; [|lia]. intros k Hk.
        destruct (decide (k = n)) as [->|]; [by eexists|]. apply Htaken. lia. }
    apply Hfree; [lia|done].
  - (* tmp_path_extension *)
    intros fs extension. unfold reference_tmp_path. generalize 0%nat.
    induction (size fs) as [|fuel IH]; intros n; cbn.
    + by exists ("/tmp/rodeo-" +:+ pretty n).
    + destruct (fs !! tmp_candidate extension n); [apply IH|].
      by exists ("/tmp/rodeo-" +:+ pretty n).
  - (* route_key_fresh *)
    intros routes suggested. apply fresh_string_fresh.
Defined.

(** ** Vocabulary of the statements *)

(** The type and the data of a kernel message, where the transform reads them. *)
Definition event_type (event : value) : value :=
  lodash_get event ["result"; "msg_type"].
Definition event_data (event : value) : value :=
  lodash_get event ["result"; "content"; "data"].

(** The names of the fields a value carries. *)
Definition keys_of (v : value) : list string :=
  match v with
  | VObject props => object_keys props
  | _ => []
  end.

(** The [image/png] field is text, or holds nothing: [new Buffer] does not throw. *)
Definition png_is_text_or_empty (data : value) : bool :=
  isString (member data "image/png") || negb (truthy (member data "image/png")).

(** The key under which a request looks its session up. *)
Definition session_of (r : ipc) : option string :=
  match r with
  | KillKernelInstance id => Some id
  | ExecuteWithKernel options _ | GetAutoComplete options _ _ | IsComplete options _
  | GetInspection options _ _ | GetStatus options | ExecuteHidden options _ _
  | Eval options _ | Interrupt options =>
      Some (to_string (get_prop options "instanceId"))
  | CheckKernel _ | CreateKernelInstance _ | SavePlot _ _ => None
  end.

(** [execute] comes with a text to run. *)
Definition has_text (r : ipc) : bool :=
  match r with
  | ExecuteWithKernel _ text => truthy text
  | _ => true
  end.

(** The two errors thrown for a session id that the table does not hold. *)
Definition not_found (id : string) (e : error) : Prop :=
  e = Error "Kernel with that id does not exist."
  ∨ e = Error ("Kernel with this id does not exist: " +:+ id).

(** Options as the interface describes them: [cmd] a non-empty string, [cwd]
    a string if present, and nothing else. *)
Definition valid_options (options : object) : bool :=
  forallb (λ key, String.eqb key "cmd" || String.eqb key "cwd") (object_keys options)
  && match get_own options "cmd" with
     | Some (VString cmd) => negb (String.eqb cmd "")
     | _ => false
     end
  && match get_own options "cwd" with
     | None | Some (VString _) => true
     | _ => false
     end.

(** No promise sits at or above the next reference to be handed out. *)
Definition heap_ok (w : world) : Prop :=
  map_Forall (λ r _, (r < next_ref w)%nat) (promises w).

(** Every id in the table came from [cuid], at a count already passed. *)
Definition ids_ok `{Platform} (w : world) : Prop :=
  ∀ id, is_Some (kernelClients w !! id) → ∃ n, (n < cuid_count w)%nat ∧ id = cuid n.

(** What the handlers rely on between two events. *)
Definition inv `{Platform} (w : world) : Prop := heap_ok w ∧ ids_ok w.

(** A computation that maintains it, whether it returns or throws. *)
Definition keeps `{Platform} {A} (m : M A) : Prop := ∀ w, inv w → inv (m w).2.

(** The states that a fresh process reaches, whatever the window, the
    collaborators and the clock do. *)
Inductive reachable `{Platform} : world → Prop :=
| reachable_start : reachable empty_world
| reachable_step fuel e w w' : reachable w → step fuel e w = Some w' → reachable w'.

(** The wiring that [onCreateKernelInstance] leaves behind while the python
    client is being created: the table entry, the pending readiness promise
    with whoever waits on it, the unanswered creation with its [then] callback,
    and the [catch] callback behind it. *)
Definition under_construction (w : world) (id : string) (ready created : nat) : Prop :=
  ∃ wired caught waiting,
    kernelClients w !! id = Some ready
    ∧ promises w !! ready = Some (Pending waiting)
    ∧ promises w !! created
      = Some (Pending [Reaction (Some (HClientCreated id ready)) None wired])
    ∧ promises w !! wired
      = Some (Pending [Reaction None (Some (HCreateFailed id)) caught])
    ∧ promises w !! caught = Some (Pending [])
    ∧ (ready ≠ created ∧ ready ≠ wired ∧ ready ≠ caught
       ∧ created ≠ wired ∧ created ≠ caught ∧ wired ≠ caught)
    ∧ answers_call created w = true
    ∧ jobs w = [].

(** ** Sample messages, options and states *)

Definition status_event : value :=
  VObject [("result", VObject [("msg_type", VString "status");
                               ("content", VObject [("execution_state", VString "idle")])])].

Definition png_event : value :=
  VObject [("result", VObject [("msg_type", VString "display_data");
                               ("content", VObject [("data", VObject
                                  [("text/plain", VString "<Figure>");
                                   ("image/png", VString "iVBORw0KGgo=")])])])].

Definition html_event : value :=
  VObject [("result", VObject [("msg_type", VString "display_data");
                               ("content", VObject [("data", VObject
                                  [("text/html", VString "<b>plot</b>")])])])].

(** [html_event] and the state after one pass of the transform over it. *)
Definition html_event_served : value :=
  VObject [("result", VObject [("msg_type", VString "display_data");
                               ("content", VObject [("data", VObject
                                  [("text/html", VString "/rodeo-0.html")])])])].

Definition world_served : world := (displayDataTransform html_event empty_world).2.

Definition python3_options : object := [("cmd", VString "python3")].

(** The state after [createSession({cmd: 'python3'})] in a fresh process. *)
Definition creating_world : world :=
  (onCreateKernelInstance python3_options empty_world).2.

(** The events that bring up the client of that session, and the state then. *)
Definition ready_events : list event :=
  [Calls (CreateKernelInstance python3_options);
   Settles 1 (Fulfilled (VClient 0));
   Emits 0 "ready" []].

Definition ready_world : world :=
  default empty_world (run 8 ready_events empty_world).

(** ** The desktop around the kernels

    Windows, dialogs, menus, the updater and the child processes belong to
    electron and to services of the repository other than [index.js]. What
    [index.js] asks of them is recorded as a list of actions, oldest first;
    what they answer is read from [Host], the environment as it stands when a
    function of [index.js] is called. Windows and their web contents are
    numbered, a window and its web contents by the same number. *)

Inductive action :=
| LogLine (level : string) (args : list string)
| SendToWindow (windowName eventName : string) (args : list value)
| CreateWindow (method name : string) (options : object)
| ShowWindow (window : nat)
| CloseWindow (window : nat)
| OpenDevTools (window : nat)
| ToggleDevTools (webContents : nat)
| SetFullScreen (window : nat) (flag : bool)
| ShowOpenDialog (options : object)
| ShowSaveDialog (options : object)
| ListenTo (webContents : nat) (eventName : string)
| GetMenu (name : string)
| SetApplicationMenu (webContents : nat)
| AttachIpcMainEvents
| StatFile (path : string)
| ReadDirectory (path : string)
| ChangeDirectory (path : string)
| KillProcess (child : nat)
| QuitApp
| ExitProcess (code : Z)
| UpdateTo (version : value).

(** [created name] is the window that [browserWindows.create],
    [createMainWindow] or [createStartupWindow] returns for that name;
    [dirname] is [__dirname] and [getJSONFileSafeSync dir] what
    [files.getJSONFileSafeSync] reads from the [package.json] of a directory;
    [chdir path] is the error that [process.chdir] throws, if it throws;
    [getStats], [readDirectory], [kill] and [update] tell how the promise that
    the service returns settles; [application_menu] is the error that stops
    the making of the application menu, if one does; [argv_files] is
    [argv._]. *)
Class Host := {
  (* services/browser-windows *)
  getWindowNames : list string;
  getByName : string → option nat;
  created : string → nat;
  isFullScreen : nat → bool;
  (* node: path, os, process *)
  staticFileDir : string;
  path_join : string → string → string;
  path_resolve : string → string;
  path_delimiter : string;
  homedir : string;
  dirname : list string;
  process_platform : string;
  chdir : string → option error;
  (* services/args *)
  argv_dev : value;
  argv_design : value;
  argv_startup : value;
  argv_files : list string;
  (* services/files *)
  resolveHomeDirectory : value → value;
  getJSONFileSafeSync : list string → value;
  getStats : string → outcome;
  readDirectory : string → outcome;
  (* services/processes, services/menu-definitions, services/updater *)
  getChildren : list nat;
  kill : nat → outcome;
  application_menu : option error;
  update : value → outcome;
}.

(** Code that talks to the desktop: the actions it takes, and the value it
    returns or the error it throws. Inside a promise chain a throw is a
    rejection, and the callbacks of a chain run in the order of the chain. *)
Definition D (A : Type) : Type := list action * result A.

Definition pure {A} (a : A) : D A := ([], Return a).
Definition fail {A} (e : error) : D A := ([], Throw e).
Definition tell (a : action) : D unit := ([a], Return tt).
Definition and_then {A B} (m : D A) (k : A → D B) : D B :=
  match m with
  | (acts, Return a) => let (acts', r) := k a in (acts ++ acts', r)
  | (acts, Throw e) => (acts, Throw e)
  end.
(** [try { m } catch (e) { h e }], and [p.catch(h)] on a chain. *)
Definition recover {A} (m : D A) (h : error → D A) : D A :=
  match m with
  | (acts, Throw e) => let (acts', r) := h e in (acts ++ acts', r)
  | (acts, Return a) => (acts, Return a)
  end.
(** [_.each(xs, f)], also [xs.map(f)] for its effects. *)
Fixpoint each {A} (f : A → D unit) (xs : list A) : D unit :=
  match xs with
  | [] => pure tt
  | x :: rest => and_then (f x) (λ _, each f rest)
  end.
(** The promise that a function hands back once its body has run. *)
Definition settled (m : D value) : list action * outcome :=
  match m with
  | (acts, Return v) => (acts, Fulfilled v)
  | (acts, Throw e) => (acts, Rejected e)
  end.

Declare Scope desk_scope.
Delimit Scope desk_scope with desk.
Notation "'do!' x ':=' m 'in' k" := (and_then m (λ x, k))
  (at level 10, x name, m at level 100, k at level 200) : desk_scope.
Notation "m ;; k" := (and_then m (λ _, k))
  (at level 100, k at level 200, right associativity, only parsing) : desk_scope.

(** [v.key] where [v] may be [undefined] or [null]: reading a property of
    those throws. *)
Definition property_of (v : value) (key : string) : result value :=
  match v with
  | VUndefined | VNull =>
      Throw (TypeError ("Cannot read property '" +:+ key +:+ "' of " +:+ to_string v))
  | _ => Return (member v key)
  end.

(** [v === true] *)
Definition is_true (v : value) : bool :=
  match v with VBool true => true | _ => false end.

(** An array as a value: an object whose keys are the indices. *)
Definition array (xs : list value) : value :=
  VObject (imap (λ i x, (pretty i, x)) xs).

(** [_.pick(obj, keys)]: the properties of [obj] among [keys], in the order of
    [keys]. *)
Fixpoint lodash_pick (obj : object) (keys : list string) : object :=
  match keys with
  | [] => []
  | key :: rest =>
      match get_own obj key with
      | Some v => (key, v) :: lodash_pick obj rest
      | None => lodash_pick obj rest
      end
  end.

(** [options || {}] read as an object: a value without properties of its own
    reads as the empty object. *)
Definition object_or_empty (options : value) : object :=
  match options with
  | VObject props => props
  | _ => []
  end.

(** [/needle/.test(s)] for a needle without special characters. *)
Fixpoint includes (needle s : string) : bool :=
  String.prefix needle s
  || match s with
     | EmptyString => false
     | String _ rest => includes needle rest
     end.

Definition windowUrls : object :=
  [ ("mainWindow", VString "main.html");
    ("startupWindow", VString "startup.html");
    ("designWindow", VString "design.html");
    ("freeTabsOnlyWindow", VString "free-tabs-only.html") ].

Definition systemFactTimeout : Z := 120.

Section Desktop.
Context `{Host}.
Local Open Scope desk_scope.

(** [log(level, ...)] on the desktop side: the level and the string
    arguments are recorded. *)
Definition dlog (level : string) (args : list string) : D unit := tell (LogLine level args).

(** ** Finding package.json

    A directory is the list of the names below the root, innermost first (a
    POSIX path): [dir.length > 1] holds for every directory but the root, and
    [path.resolve(dir, '..')] drops the innermost name. *)
Fixpoint getPkg_above (dir : list string) : value :=
  match dir with
  | [] => VBool false
  | _ :: parent =>
      let pkg := getJSONFileSafeSync parent in
      if truthy pkg then pkg else getPkg_above parent
  end.

Definition getPkg : value := getPkg_above dirname.

(** ** Quitting *)

(** The callback after [processes.kill(child).reflect()]. *)
Definition report_kill (child : nat) : D unit :=
  match kill child with
  | Rejected _ => dlog "info" ["process"; "unable to be killed"]
  | Fulfilled _ => dlog "info" ["process"; "successfully killed"]
  end.

(** The kills are requested one after the other; the reports follow as the
    kills settle, here in the order of the children. *)
Definition quitApplication : D unit :=
  dlog "info" ["killing all children processes"] ;;
  each (λ child, tell (KillProcess child)) getChildren ;;
  each report_kill getChildren ;;
  (* finally *)
  dlog "info" ["quiting"] ;;
  tell QuitApp ;;
  if String.eqb process_platform "linux"
  then dlog "info" ["forcing quit on linux"] ;; tell (ExitProcess 0)
  else pure tt.

Definition onQuitApplication : D unit :=
  dlog "info" ["onQuitApplication"] ;;
  quitApplication.

(** ** Printing to PDF *)

(** The callback that [onPDF] gives to the save dialog; [destfile] is what the
    dialog passes, [undefined] when it was cancelled. *)
Definition onPDF_chosen (destfile : value) : D unit :=
  let destfile :=
    if includes ".pdf" (to_string destfile) then destfile
    else VString (to_string destfile +:+ ".pdf") in
  tell (SendToWindow "mainWindow" "pdf" [destfile]).

(** ** Windows *)

Definition window_url (windowName : string) : string :=
  "file://" +:+ path_join staticFileDir (to_string (get_prop windowUrls windowName)).

Definition createMainWindow (options : object) : D nat :=
  tell (CreateWindow "createMainWindow" "mainWindow" options) ;;
  pure (created "mainWindow").

Definition preloadMainWindow : D nat :=
  createMainWindow [("url", VString (window_url "mainWindow"))].

Definition getMainWindow : D nat :=
  match getByName "mainWindow" with
  | Some window => pure window
  | None => createMainWindow [("url", VString (window_url "mainWindow"))]
  end.

Definition attachApplicationMenu (ipcEmitter : nat) : D unit :=
  tell (GetMenu "application") ;;
  match application_menu with
  | Some e => fail e
  | None => tell (SetApplicationMenu ipcEmitter)
  end.

Definition startMainWindow : D value :=
  do! window := getMainWindow in
  (if is_true argv_dev then tell (OpenDevTools window) else pure tt) ;;
  attachApplicationMenu window ;;
  tell (ShowWindow window) ;;
  pure VUndefined.

Definition startMainWindowWithOpenFile (filename : string) (stats : value) : D value :=
  do! window := createMainWindow
    [ ("url", VString (window_url "mainWindow"));
      ("startActions", array [VObject [("type", VString "ADD_FILE");
                                       ("filename", VString filename);
                                       ("stats", stats)]]) ] in
  (if truthy argv_dev then tell (OpenDevTools window) else pure tt) ;;
  attachApplicationMenu window ;;
  tell (ShowWindow window) ;;
  pure VUndefined.

Definition startStartupWindow : D value :=
  tell (CreateWindow "createStartupWindow" "startupWindow"
          [("url", VString (window_url "startupWindow"))]) ;;
  let window := created "startupWindow" in
  dlog "info" ["startStartupWindow"] ;;
  (if is_true argv_dev then tell (OpenDevTools window) else pure tt) ;;
  preloadMainWindow ;;
  tell (ListenTo window "did-finish-load") ;;
  pure VUndefined.

Definition startMainWindowWithWorkingDirectory (filename : string) : D value :=
  tell (ChangeDirectory filename) ;;
  match chdir filename with
  | Some _ =>
      dlog "error" ["failed to change working directory to"; filename] ;;
      startStartupWindow
  | None =>
      tell (ReadDirectory filename) ;;
      match readDirectory filename with
      | Rejected e => fail e
      | Fulfilled files =>
          do! window := createMainWindow
            [ ("url", VString (window_url "mainWindow"));
              ("startActions", array [VObject [("type", VString "SET_VIEWED_PATH");
                                               ("path", VString filename);
                                               ("files", files)]]) ] in
          (if truthy argv_dev then tell (OpenDevTools window) else pure tt) ;;
          attachApplicationMenu window ;;
          tell (ShowWindow window) ;;
          pure VUndefined
      end
  end.

(** One element of [statSearch], once it has settled. *)
Definition stat_search (arg : string) : value :=
  let stats :=
    match getStats arg with
    | Fulfilled stats => stats
    | Rejected _ => VUndefined   (* .catch(_.noop) *)
    end in
  VObject [("name", VString (path_resolve arg)); ("stats", stats)].

Definition lodash_compact (xs : list value) : list value := List.filter truthy xs.

(** The callback after [bluebird.all(statSearch)]. *)
Definition start_with_files (files : list value) : D value :=
  match head (lodash_compact files) with
  | Some file =>
      do! isDirectory := ([], property_of (member file "stats") "isDirectory") in
      if truthy isDirectory
      then startMainWindowWithWorkingDirectory (to_string (member file "name"))
      else startMainWindowWithOpenFile (to_string (member file "name")) (member file "stats")
  | None =>
      dlog "info" ["no files found with"] ;;
      startStartupWindow
  end.

Definition onReady : D unit :=
  dlog "info" ["onReady"] ;;
  recover
    ((if truthy argv_design then
        tell (CreateWindow "create" "designWindow"
                [("url", VString (window_url "designWindow"))]) ;;
        tell (ShowWindow (created "designWindow")) ;;
        pure VUndefined
      else if (0 <? length argv_files)%nat then
        each (λ arg, tell (StatFile arg)) argv_files ;;
        start_with_files (map stat_search argv_files)
      else if match argv_startup with VBool false => true | _ => false end then
        startMainWindow
      else
        startStartupWindow) ;;
     tell AttachIpcMainEvents)
    (λ error, dlog "error" []).

(** ** Requests about windows and dialogs *)

Definition onCheckForUpdates : list action * outcome :=
  let pkg := getPkg in
  if negb (truthy pkg) then
    ([LogLine "error" ["Unable to find package.json"]], Fulfilled VUndefined)
  else if negb (truthy (member pkg "version")) then
    ([LogLine "error" ["Unable to find version in package.json"]], Fulfilled VUndefined)
  else
    ([UpdateTo (member pkg "version")], update (member pkg "version")).

Definition onCloseWindow (windowName : value) : list action * outcome :=
  if truthy windowName then
    match getByName (to_string windowName) with
    | Some window => ([CloseWindow window], Fulfilled VUndefined)
    | None =>
        ([LogLine "warn" ["tried to close non-existent window"; to_string windowName]],
         Rejected (Error ("tried to close non-existent window " +:+ to_string windowName)))
    end
  else
    ([LogLine "warn" ["tried to close window without saying name"]],
     Rejected (Error "tried to close window without saying name")).

(** What the dialog is asked: the options picked, with the default path
    resolved when there is one. The promise handed back is fulfilled with
    whatever the dialog answers. *)
Definition dialog_options (options : value) (keys : list string) : object :=
  let options := lodash_pick (object_or_empty options) keys in
  if truthy (get_prop options "defaultPath")
  then set_prop options "defaultPath" (resolveHomeDirectory (get_prop options "defaultPath"))
  else options.

Definition onOpenDialog (options : value) : action :=
  ShowOpenDialog (dialog_options options ["title"; "defaultPath"; "properties"; "filters"]).

Definition onSaveDialog (options : value) : action :=
  ShowSaveDialog (dialog_options options ["title"; "defaultPath"; "filters"]).

(** [new bluebird(executor)]: bluebird calls the executor as a plain function,
    so in this strict-mode file its [this] is [undefined]; what it throws
    rejects the promise. Both executors below end in [resolve()]. *)
Definition new_bluebird (executor : option nat → D unit) : list action * outcome :=
  settled (executor None ;; pure VUndefined).

(** [receiver.method(...)] where the receiver may be [undefined]. *)
Definition on_receiver {A} (receiver : option nat) (method : string) (k : nat → D A) : D A :=
  match receiver with
  | Some window => k window
  | None => fail (TypeError ("Cannot read property '" +:+ method +:+ "' of undefined"))
  end.

(** [this] is bound to the web contents that sent the request. *)
Definition onToggleDevTools (this : option nat) : list action * outcome :=
  let currentWindow := this in
  new_bluebird (λ _,
    on_receiver currentWindow "toggleDevTools" (λ window, tell (ToggleDevTools window))).

Definition onToggleFullScreen (this : option nat) : list action * outcome :=
  new_bluebird (λ this,
    let currentWindow := this in
    on_receiver currentWindow "isFullScreen" (λ window,
      let isFull := isFullScreen window in
      tell (SetFullScreen window (negb isFull)))).

(** What [windowUrls[key]] finds: an entry point of its own, a member that
    every object inherits, or nothing. *)
Inductive entry_point :=
| OwnEntry (file : string)
| InheritedMember
| NoEntry.

Definition window_entry (key : string) : entry_point :=
  match get_own windowUrls key with
  | Some file => OwnEntry (to_string file)
  | None => if bool_decide (key ∈ inherited_names) then InheritedMember else NoEntry
  end.

Definition onCreateWindow (name : string) (options : object) : D nat :=
  if negb (truthy (get_prop options "url")) then
    fail (Error "Missing url for createWindow")
  else
    match window_entry (to_string (get_prop options "url")) with
    | NoEntry =>
        fail (Error ("Cannot find window entry point for "
                     +:+ to_string (get_prop options "url")))
    | InheritedMember =>
        (* [path.join] refuses an argument that is not a string *)
        fail (TypeError "Path must be a string")
    | OwnEntry file =>
        let options := set_prop options "url"
                         (VString ("file://" +:+ path_join staticFileDir file)) in
        tell (CreateWindow "create" name options) ;;
        (if is_true argv_dev then tell (OpenDevTools (created name)) else pure tt) ;;
        pure (created name)
    end.

(** [this] is the web contents that sent the action. *)
Definition onShareAction (this : option nat) (action : object) : D unit :=
  let names := getWindowNames in
  let sender := this in
  let senderName :=
    List.find (λ name, match getByName name with
                       | Some window => bool_decide (sender = Some window)
                       | None => false
                       end) names in
  let action := set_prop action "senderName"
                  (match senderName with Some name => VString name | None => VUndefined end) in
  each (λ name,
          if negb (bool_decide (Some name = senderName))
          then tell (SendToWindow name "sharedAction" [VObject action])
          else pure tt) names.

End Desktop.

Section SystemFacts.
Context `{Platform} `{Host}.

(** The character that delimits a string. *)
Definition quote : string := String (ascii_of_nat 34) "".

(** [bluebird.props] of an object whose properties are plain values is
    fulfilled with that object. *)
Definition onGetSystemFacts : M value :=
  let! facts := new_promise (Settled (Fulfilled (VObject
                  [ ("homedir", VString homedir);
                    ("pathSep", VString (String path_sep ""));
                    ("delimiter", VString path_delimiter) ]))) in
  let! t := timeout facts (systemFactTimeout * second)
              ("Unable to call " +:+ quote +:+ "get system facts" +:+ quote
               +:+ " in under " +:+ to_string (VNumber systemFactTimeout) +:+ " seconds") in
  ret (VPromise t).

End SystemFacts.

(** ** Vocabulary of the further statements *)

(** What [assertValidObject] takes for a property declared as a string: a
    string, or nothing. *)
Definition string_or_undefined (v : value) : bool := isString v || isUndefined v.

(** The type name that a definition declares, as the key it looks up in
    [validators]. *)
Definition expected_type (definition : value) : string :=
  to_string (if isObject definition then member definition "type" else definition).

(** Definitions that [assertValidObject] walks as the properties of an object
    and whose names mean the same with and without [Object.prototype]: each
    property once, none of them called [length] (lodash's [each] walks an
    object with a numeric [length] as an array) or by an inherited name, and
    no type under an inherited name (for which [validators[expectedType]] is
    an inherited function). *)
Definition ordinary (validOptions : object) : bool :=
  bool_decide (NoDup (object_keys validOptions))
  && forallb (λ x : string * value,
       negb (String.eqb x.1 "length")
       && negb (bool_decide (x.1 ∈ inherited_names))
       && negb (bool_decide (expected_type x.2 ∈ inherited_names))) validOptions.

(** An object that [new Buffer] may read as an array or as the JSON of a
    buffer instead of refusing it: one with a [length], a [buffer] or a
    [type]. *)
Definition array_like (v : value) : bool :=
  match v with
  | VObject props =>
      match get_own props "length", get_own props "buffer", get_own props "type" with
      | None, None, None => false
      | _, _, _ => true
      end
  | _ => false
  end.

(** The client method that a request is passed to, with its arguments, for the
    requests that do nothing else with the session. *)
Definition client_method (r : ipc) : option (string * list value) :=
  match r with
  | ExecuteWithKernel _ text => Some ("execute", [text])
  | IsComplete _ text => Some ("isComplete", [text])
  | GetInspection _ text cursorPos => Some ("getInspection", [text; cursorPos])
  | GetStatus _ => Some ("getStatus", [])
  | ExecuteHidden _ code resolveEvent => Some ("executeHidden", [code; resolveEvent])
  | Eval _ text => Some ("getEval", [text])
  | Interrupt _ => Some ("interrupt", [])
  | _ => None
  end.

(** A client that no listener has been attached to yet. *)
Definition fresh_client (c : nat) (w : world) : Prop :=
  Forall (λ x : nat * string * listener, x.1.1 ≠ c) (listeners w).

(** Arguments of an event among which there is no display-data message. *)
Definition plain (args : list value) : bool :=
  forallb (λ arg, negb (is_display_data (event_type arg) && truthy (event_data arg))) args.

(** The events of a client that [subscribeWindowToKernelEvents] passes on. *)
Definition kernel_channels : list string :=
  ["shell"; "iopub"; "stdin"; "event"; "input_request"; "error"; "close"].

(** The listeners that [onCreateKernelInstance] attaches to the client of a
    session, in the order of their registration. *)
Definition session_listeners (id : string) (ready c : nat) : list (nat * string * listener) :=
  [ (c, "ready", LReady id ready);
    (c, "event", LLogEvent id);
    (c, "error", LLogError id);
    (c, "close", LClose id);
    (c, "shell", LForward "mainWindow" "shell");
    (c, "iopub", LForward "mainWindow" "iopub");
    (c, "stdin", LForward "mainWindow" "stdin");
    (c, "event", LForward "mainWindow" "event");
    (c, "input_request", LForward "mainWindow" "input_request");
    (c, "error", LForward "mainWindow" "error");
    (c, "close", LForward "mainWindow" "close") ].

(** The listeners of one client, oldest first. *)
Definition listeners_of (c : nat) (w : world) : list (nat * string * listener) :=
  List.filter (λ x : nat * string * listener, Nat.eqb x.1.1 c) (listeners w).

(** Client [c] serves session [id]: its listeners are those of the session,
    and the event loop is between two events. *)
Definition attached (w : world) (id : string) (ready c : nat) : Prop :=
  listeners_of c w = session_listeners id ready c ∧ jobs w = [].

(** A property of the temporary files and the routes of the plot server. *)
Definition holds (P : gmap string value → gmap string string → Prop) (w : world) : Prop :=
  P (files w) (urls w).

(** A computation that maintains it, whether it returns or throws. *)
Definition preserves (P : gmap string value → gmap string string → Prop) {A} (m : M A)
    : Prop :=
  ∀ w, holds P w → holds P (m w).2.

(** Every route leads to a temporary file that exists. *)
Definition routes_ok (fs : gmap string value) (us : gmap string string) : Prop :=
  ∀ route filepath, us !! route = Some filepath → is_Some (fs !! filepath).

(** Nothing of [fs0] and [us0] has been removed or replaced. *)
Definition extends (fs0 : gmap string value) (us0 : gmap string string)
    (fs : gmap string value) (us : gmap string string) : Prop :=
  fs0 ⊆ fs ∧ us0 ⊆ us.

(** ** Further samples *)

(** A display-data message with an HTML text and a PNG image. *)
Definition rich_event : value :=
  VObject [("result", VObject [("msg_type", VString "display_data");
                               ("content", VObject [("data", VObject
                                  [("text/html", VString "<b>plot</b>");
                                   ("image/png", VString "iVBORw0KGgo=")])])])].

(** A display-data message whose image is not text. *)
Definition broken_event : value :=
  VObject [("result", VObject [("msg_type", VString "display_data");
                               ("content", VObject [("data", VObject
                                  [("image/png", VBool true)])])])].

(** The state after the ready client of [c0] has sent a plot. *)
Definition plotted_world : world :=
  default empty_world (run 8 (ready_events ++ [Emits 0 "iopub" [png_event]]) empty_world).

(** A desktop on linux: a main window and a startup window, two child
    processes of which the second cannot be killed, a package file two
    directories up, and a command line that names a file that is not there. *)
#[export] Instance sample_host : Host := {|
  getWindowNames := ["mainWindow"; "startupWindow"];
  getByName name :=
    if String.eqb name "mainWindow" then Some 0%nat
    else if String.eqb name "startupWindow" then Some 1%nat
    else None;
  created _ := 2%nat;
  isFullScreen _ := false;
  staticFileDir := "/app/src/browser";
  path_join a b := a +:+ "/" +:+ b;
  path_resolve p := "/home/user/" +:+ p;
  path_delimiter := ":";
  homedir := "/home/user";
  dirname := ["node"; "src"; "app"];
  process_platform := "linux";
  chdir _ := None;
  argv_dev := VUndefined;
  argv_design := VUndefined;
  argv_startup := VUndefined;
  argv_files := ["missing.py"; "notes.py"];
  resolveHomeDirectory v := v;
  getJSONFileSafeSync dir :=
    match dir with
    | ["app"] => VObject [("name", VString "rodeo"); ("version", VString "2.0.0")]
    | _ => VUndefined
    end;
  getStats _ := Rejected (Error "ENOENT");
  readDirectory _ := Fulfilled (VObject []);
  getChildren := [7%nat; 8%nat];
  kill child := if Nat.eqb child 7 then Fulfilled VUndefined else Rejected (Error "ESRCH");
  application_menu := None;
  update _ := Fulfilled VUndefined;
|}.

(** * Theorems *)

(** ** The model on small inputs *)

Example decode_png_signature :
  reference_base64_decode "iVBORw0KGgo="
  = [Byte.x89; Byte.x50; Byte.x4e; Byte.x47; Byte.x0d; Byte.x0a; Byte.x1a; Byte.x0a].
Proof. reflexivity. Qed.

Example split_temporary_path :
  split "/tmp/rodeo-0.png" "/" = [""; "tmp"; "rodeo-0.png"].
Proof. reflexivity. Qed.

Example cmd_must_be_a_string :
  assertValidObject [("cmd", VNumber 5)] kernelOptions
  = Throw (Error "Invalid property cmd: expected string but got 5").
Proof. reflexivity. Qed.

Example cmd_and_cwd_pass :
  assertValidObject [("cmd", VString "python3"); ("cwd", VString "/home")] kernelOptions
  = Return tt.
Proof. reflexivity. Qed.

Example png_becomes_a_route :
  (displayDataTransform png_event empty_world).1
  = Return (VObject [("result", VObject [("msg_type", VString "display_data");
                       ("content", VObject [("data", VObject
                          [("text/plain", VString "<Figure>");
                           ("image/png", VString "/rodeo-0.png")])])])]).
Proof. vm_compute. reflexivity. Qed.

(** A [close] event of the client removes the entry, and the event still goes
    to the window. *)
Example close_removes_the_entry :
  ∃ w, step 4 (Emits 0 "close" [VNumber 0; VNull]) ready_world = Some w
    ∧ kernelClients ready_world !! "c0" = Some 0
    ∧ kernelClients w !! "c0" = None
    ∧ last (calls w) = Some (WindowSend "mainWindow" "close" [VNumber 0; VNull]).
Proof.
  eexists. split; [vm_compute; reflexivity|].
  repeat split; vm_compute; reflexivity.
Qed.

(** ** Evaluating the model *)

Ltac run_model :=
  unfold ret, throw, lift, bind, modify, gets; cbn.

(** ** Option validation *)

Lemma omit_keeps (obj : object) (keys : list string) (key : string) :
  key ∈ object_keys obj → key ∉ keys → key ∈ object_keys (lodash_omit obj keys).
Proof.
  unfold object_keys, lodash_omit. intros Hin Hout.
  apply list_elem_of_fmap in Hin as [[k v] [-> Hkv]].
  apply list_elem_of_fmap. exists (k, v). split; [done|].
  apply list_elem_of_filter. split; [|done]. cbn.
  apply negb_prop_intro. intros Hex. apply Is_true_true in Hex.
  apply existsb_exists in Hex as [k' [Hk' Heq]].
  apply String.eqb_eq in Heq. subst k'. apply Hout.
  by apply list_elem_of_In.
Qed.

Lemma get_own_omit (obj : object) (keys : list string) (key : string) :
  key ∉ keys → get_own (lodash_omit obj keys) key = get_own obj key.
Proof.
  intros Hout. unfold lodash_omit. induction obj as [|[k v] rest IH]; [done|].
  rewrite filter_cons. cbn [fst get_own].
  destruct (String.eqb k key) eqn:Hk.
  - apply String.eqb_eq in Hk as ->.
    assert (existsb (String.eqb key) keys = false) as ->.
    { apply not_true_is_false.
      intros (k' & Hin & ->%String.eqb_eq)%existsb_exists.
      apply Hout. by apply list_elem_of_In. }
    rewrite decide_True by (cbn; tauto). cbn [get_own]. by rewrite String.eqb_refl.
  - destruct (existsb (String.eqb k) keys).
    + rewrite decide_False by (cbn; tauto). apply IH.
    + rewrite decide_True by (cbn; tauto). cbn [get_own]. by rewrite Hk.
Qed.

Lemma omit_nil_keys (obj : object) (keys : list string) :
  lodash_omit obj keys = [] ↔ ∀ key, key ∈ object_keys obj → key ∈ keys.
Proof.
  unfold lodash_omit, object_keys. induction obj as [|[k v] rest IH].
  - split; [|done]. intros _ key Hkey. by apply elem_of_nil in Hkey.
  - rewrite filter_cons. cbn [fst map].
    destruct (existsb (String.eqb k) keys) eqn:Hk; cbn.
    + rewrite IH. apply existsb_exists in Hk as (k' & Hin & ->%String.eqb_eq).
      apply list_elem_of_In in Hin. split.
      * intros Hrest key [->|Hkey]%elem_of_cons; [done|by apply Hrest].
      * intros Hall key Hkey. apply Hall. by right.
    + split; [done|]. intros Hall. exfalso.
      assert (Hin : k ∈ keys) by (apply Hall; by left).
      apply list_elem_of_In in Hin.
      assert (existsb (String.eqb k) keys = true) as Heq; [|congruence].
      apply existsb_exists. exists k. split; [done|apply String.eqb_refl].
Qed.

(** The test [_.size(obj) > 0] fails for the empty object and for an object
    that carries a [length] of 0, whatever else it carries. *)
Lemma size_not_positive (obj : object) :
  (0 <? lodash_size obj)%Z = false ↔ obj = [] ∨ get_prop obj "length" = VNumber 0.
Proof.
  unfold lodash_size. split.
  - destruct (get_prop obj "length") as [| | |n| | | | |] eqn:Hlen.
    all: try (intros Hsize%Z.ltb_ge; left; destruct obj; [done|cbn [length] in Hsize; lia]).
    unfold isLength. destruct ((0 <=? n)%Z && (n <=? 9007199254740991)%Z) eqn:Hn.
    + intros Hsize%Z.ltb_ge. apply andb_prop in Hn as [Hn%Z.leb_le _].
      right. f_equal. lia.
    + intros Hsize%Z.ltb_ge. left. destruct obj; [done|cbn [length] in Hsize; lia].
  - intros [-> | ->]; reflexivity.
Qed.

Lemma assertValidObject_no_banned (obj validOptions : object) :
  (0 <? lodash_size (lodash_omit obj (object_keys validOptions)))%Z = false →
  assertValidObject obj validOptions
  = assertValidProperties obj (lodash_each validOptions).
Proof. unfold assertValidObject. by intros ->. Qed.

Lemma assertValidObject_accepts (obj validOptions : object) :
  assertValidObject obj validOptions = Return tt →
  (0 <? lodash_size (lodash_omit obj (object_keys validOptions)))%Z = false
  ∧ assertValidProperties obj (lodash_each validOptions) = Return tt.
Proof.
  unfold assertValidObject.
  destruct (0 <? lodash_size (lodash_omit obj (object_keys validOptions)))%Z; [|done].
  discriminate.
Qed.

Lemma assertValidObject_banned (obj validOptions : object) (key : string) :
  key ∈ object_keys obj → key ∉ object_keys validOptions →
  get_prop (lodash_omit obj (object_keys validOptions)) "length" ≠ VNumber 0 →
  assertValidObject obj validOptions =
    Throw (Error ("Properties "
                  +:+ array_to_string (object_keys (lodash_omit obj (object_keys validOptions)))
                  +:+ " are not allowed")).
Proof.
  intros Hin Hout Hlength. unfold assertValidObject.
  pose proof (omit_keeps _ _ _ Hin Hout) as Hkept.
  destruct (0 <? lodash_size (lodash_omit obj (object_keys validOptions)))%Z eqn:Hsize;
    [done|].
  apply size_not_positive in Hsize as [Hnone|Hzero]; [|done].
  rewrite Hnone in Hkept. by apply elem_of_nil in Hkept.
Qed.

Lemma each_kernelOptions : lodash_each kernelOptions = kernelOptions.
Proof. reflexivity. Qed.

Lemma length_outside_kernelOptions (options : object) :
  get_prop (lodash_omit options (object_keys kernelOptions)) "length"
  = get_prop options "length".
Proof.
  unfold get_prop. rewrite get_own_omit; [done|].
  change (object_keys kernelOptions) with ["cmd"; "cwd"]. intros Hin.
  repeat (apply elem_of_cons in Hin as [Hin|Hin]; [discriminate Hin|]).
  by apply elem_of_nil in Hin.
Qed.

(** What the two definitions of [cmd] and [cwd] ask of the options. *)
Lemma kernel_properties_pass (options : object) :
  assertValidProperties options kernelOptions = Return tt
  ↔ string_or_undefined (get_prop options "cmd") = true
    ∧ string_or_undefined (get_prop options "cwd") = true.
Proof.
  cbn [assertValidProperties kernelOptions]. unfold assertValidProperty.
  cbn [isObject member get_prop get_own String.eqb Ascii.eqb Bool.eqb default
       to_string validators truthy andb isUndefined].
  unfold string_or_undefined.
  destruct (get_prop options "cmd") as [| | | |cmd| | | |];
    destruct (get_prop options "cwd") as [| | | |cwd| | | |]; cbn; intuition congruence.
Qed.

Section Validation.
Context `{Platform}.

(** C10 (the code accepts what the claim says it rejects). The test for
    properties that are not allowed is [_.size(bannedProperties) > 0], and
    lodash takes the size of an object that carries a numeric [length] from
    that [length]. Options with a [length] of 0 therefore pass the test
    together with every other property they carry besides [cmd] and [cwd]:
    when [cmd] and [cwd] are strings or missing, session creation registers a
    table entry and asks the python client to create a kernel with these
    options, and the interpreter check asks the python client to check them. *)
Theorem zero_length_hides_banned_properties (options : object) (w : world) :
  get_own options "length" = Some (VNumber 0) →
  string_or_undefined (get_prop options "cmd") = true →
  string_or_undefined (get_prop options "cwd") = true →
  "length" ∈ object_keys (lodash_omit options ["cmd"; "cwd"])
  ∧ assertValidObject options kernelOptions = Return tt
  ∧ (∃ outer w',
       onCreateKernelInstance options w = (Return (VPromise outer), w')
       ∧ kernelClients w' = <[cuid (cuid_count w) := next_ref w]> (kernelClients w)
       ∧ calls w' = calls w ++ [CreateClient options (S (next_ref w))])
  ∧ (∃ w',
       onCheckKernel options w = (Return (VPromise (next_ref w)), w')
       ∧ calls w' = calls w ++ [CheckClient options (next_ref w)]).
Proof.
  intros Hlength Hcmd Hcwd.
  assert (Hpass : assertValidObject options kernelOptions = Return tt).
  { rewrite assertValidObject_no_banned.
    - rewrite each_kernelOptions. by apply kernel_properties_pass.
    - apply size_not_positive. right. rewrite length_outside_kernelOptions.
      unfold get_prop. by rewrite Hlength. }
  split.
  { apply omit_keeps.
    - apply list_elem_of_fmap. exists ("length", VNumber 0). split; [done|].
      clear -Hlength. induction options as [|[k v] rest IH]; [done|].
      cbn [get_own] in Hlength. destruct (String.eqb k "length") eqn:Hk.
      + apply String.eqb_eq in Hk as ->. injection Hlength as ->. by left.
      + right. by apply IH.
    - intros Hin. repeat (apply elem_of_cons in Hin as [Hin|Hin]; [discriminate Hin|]).
      by apply elem_of_nil in Hin. }
  split; [done|]. split.
  - unfold onCreateKernelInstance. rewrite Hpass.
    eexists _, _. split; [run_model; reflexivity|]. by destruct w.
  - unfold onCheckKernel. rewrite Hpass.
    eexists. split; [run_model; reflexivity|]. by destruct w.
Qed.

(** X29. Options that hold a property other than [cmd] and [cwd], and no
    [length] of 0, make both session creation and the interpreter check throw
    an error whose message lists the properties that are not allowed; the
    throw comes before anything else, so no call to a collaborator is recorded
    and no entry is added to the table: the state is the one before the
    call. *)
Theorem banned_properties_are_rejected (options : object) (key : string) (w : world) :
  key ∈ object_keys options → key ≠ "cmd" → key ≠ "cwd" →
  get_prop options "length" ≠ VNumber 0 →
  let banned := object_keys (lodash_omit options ["cmd"; "cwd"]) in
  let e := Error ("Properties " +:+ array_to_string banned +:+ " are not allowed") in
  key ∈ banned
  ∧ onCreateKernelInstance options w = (Throw e, w)
  ∧ onCheckKernel options w = (Throw e, w).
Proof.
  intros Hin Hcmd Hcwd Hlength banned e.
  assert (Hout : key ∉ object_keys kernelOptions).
  { cbn. intros Hk.
    apply elem_of_cons in Hk as [->|Hk]; [done|].
    apply elem_of_cons in Hk as [->|Hk]; [done|].
    by apply elem_of_nil in Hk. }
  split; [by apply (omit_keeps options ["cmd"; "cwd"])|].
  rewrite <- length_outside_kernelOptions in Hlength.
  pose proof (assertValidObject_banned options kernelOptions key Hin Hout Hlength) as Hthrow.
  unfold onCreateKernelInstance, onCheckKernel, bind, lift.
  by rewrite Hthrow.
Qed.

(** C1 (the code accepts what the claim says it rejects). The definition
    object marks [cmd] with [isRequired: true], but [assertValidObject] reads
    the flag from [definition.required]: the empty options object passes.
    Session creation then registers a table entry and asks the python client
    to create a kernel; the interpreter check asks the python client to check. *)
Theorem empty_options_are_accepted (w : world) :
  assertValidObject [] kernelOptions = Return tt
  ∧ (∃ outer w',
       onCreateKernelInstance [] w = (Return (VPromise outer), w')
       ∧ kernelClients w' = <[cuid (cuid_count w) := next_ref w]> (kernelClients w)
       ∧ calls w' = calls w ++ [CreateClient [] (S (next_ref w))])
  ∧ (∃ w',
       onCheckKernel [] w = (Return (VPromise (next_ref w)), w')
       ∧ calls w' = calls w ++ [CheckClient [] (next_ref w)]).
Proof.
  split; [reflexivity|]. split.
  - eexists _, _. split; [run_model; reflexivity|]. by destruct w.
  - eexists. split; [run_model; reflexivity|]. by destruct w.
Qed.

End Validation.

(** A run of C10 on [{cmd: 'python', port: 8888, length: 0}]. *)
Lemma zero_length_hides_banned_properties_witness :
  let options := [("cmd", VString "python"); ("port", VNumber 8888);
                  ("length", VNumber 0)] in
  "length" ∈ object_keys (lodash_omit options ["cmd"; "cwd"])
  ∧ assertValidObject options kernelOptions = Return tt
  ∧ (∃ outer w',
       onCreateKernelInstance options empty_world = (Return (VPromise outer), w')
       ∧ kernelClients w' = <["c0" := 0%nat]> (kernelClients empty_world)
       ∧ calls w' = calls empty_world ++ [CreateClient options 1])
  ∧ (∃ w',
       onCheckKernel options empty_world = (Return (VPromise 0), w')
       ∧ calls w' = calls empty_world ++ [CheckClient options 0]).
Proof.
  intros options. change "c0" with (cuid (cuid_count empty_world)).
  apply (zero_length_hides_banned_properties options empty_world); reflexivity.
Defined.

(** A run of X29 on [{cmd: 'python', port: 8888}]. *)
Lemma banned_properties_are_rejected_witness :
  let options := [("cmd", VString "python"); ("port", VNumber 8888)] in
  onCreateKernelInstance options empty_world
    = (Throw (Error "Properties port are not allowed"), empty_world)
  ∧ onCheckKernel options empty_world
    = (Throw (Error "Properties port are not allowed"), empty_world).
Proof.
  intros options.
  refine (proj2 (banned_properties_are_rejected options "port" empty_world _ _ _ _)).
  - cbn. apply list_elem_of_further, list_elem_of_here.
  - discriminate.
  - discriminate.
  - discriminate.
Defined.

(** ** Objects: reading after writing *)

Lemma get_own_set_prop_eq (obj : object) (key : string) (v : value) :
  get_own (set_prop obj key v) key = Some v.
Proof.
  induction obj as [|[k v0] rest IH]; cbn.
  - by rewrite String.eqb_refl.
  - destruct (String.eqb k key) eqn:Hk; cbn; rewrite Hk; [done|apply IH].
Qed.

Lemma get_own_set_prop_ne (obj : object) (key key' : string) (v : value) :
  key ≠ key' → get_own (set_prop obj key v) key' = get_own obj key'.
Proof.
  intros Hne. induction obj as [|[k v0] rest IH]; cbn.
  - by apply String.eqb_neq in Hne as ->.
  - destruct (String.eqb k key) eqn:Hk; cbn.
    + apply String.eqb_eq in Hk as ->.
      by apply String.eqb_neq in Hne as ->.
    + by rewrite IH.
Qed.

Lemma set_prop_same (obj : object) (key : string) (v : value) :
  get_own obj key = Some v → set_prop obj key v = obj.
Proof.
  induction obj as [|[k v0] rest IH]; cbn; [done|].
  destruct (String.eqb k key) eqn:Hk.
  - by intros [= ->].
  - intros Hrest. by rewrite IH.
Qed.

Lemma set_prop_keys (obj : object) (key : string) (v : value) :
  is_Some (get_own obj key) → object_keys (set_prop obj key v) = object_keys obj.
Proof.
  unfold object_keys. induction obj as [|[k v0] rest IH]; cbn.
  - by intros [? ?].
  - destruct (String.eqb k key) eqn:Hk; cbn; [done|].
    intros Hrest. by rewrite IH.
Qed.

Lemma truthy_member_own (v : value) (key : string) :
  truthy (member v key) = true →
  ∃ props, v = VObject props ∧ get_own props key = Some (member v key).
Proof.
  destruct v as [| | | | | |props| |]; cbn; try discriminate.
  unfold get_prop. destruct (get_own props key) as [x|] eqn:Hx; cbn; [|discriminate].
  intros _. by exists props.
Qed.

Lemma member_set_member_eq (v : value) (key : string) (x : value) :
  truthy (member v key) = true → member (set_member v key x) key = x.
Proof.
  intros Ht. apply truthy_member_own in Ht as (props & -> & _).
  cbn. unfold get_prop. by rewrite get_own_set_prop_eq.
Qed.

Lemma member_set_member_ne (v : value) (key key' : string) (x : value) :
  key ≠ key' → member (set_member v key x) key' = member v key'.
Proof.
  intros Hne. destruct v; cbn; try done.
  unfold get_prop. by rewrite get_own_set_prop_ne.
Qed.

Lemma keys_of_set_member (v : value) (key : string) (x : value) :
  truthy (member v key) = true → keys_of (set_member v key x) = keys_of v.
Proof.
  intros Ht. apply truthy_member_own in Ht as (props & -> & Hown).
  cbn. apply set_prop_keys. by eexists.
Qed.

Lemma lodash_get_undefined (path : list string) :
  lodash_get VUndefined path = VUndefined.
Proof. induction path as [|key rest IH]; cbn; done. Qed.

Lemma truthy_get_own (v : value) (key : string) (rest : list string) :
  truthy (lodash_get v (key :: rest)) = true →
  ∃ props, v = VObject props ∧ get_own props key = Some (member v key).
Proof.
  cbn. intros Ht.
  destruct v as [| | | | | |props| |]; cbn in *;
    try (rewrite lodash_get_undefined in Ht; discriminate).
  unfold get_prop in *. destruct (get_own props key) as [x|] eqn:Hx; cbn in *.
  - by exists props.
  - rewrite lodash_get_undefined in Ht. discriminate.
Qed.

Lemma lodash_get_update_in (v : value) (path : list string) (x : value) :
  truthy (lodash_get v path) = true → lodash_get (update_in v path x) path = x.
Proof.
  revert v. induction path as [|key rest IH]; intros v Ht; [done|].
  destruct (truthy_get_own _ _ _ Ht) as (props & -> & Hown).
  cbn in *. unfold get_prop at 1. rewrite get_own_set_prop_eq. cbn.
  by apply IH.
Qed.

Lemma update_in_same (v : value) (path : list string) :
  truthy (lodash_get v path) = true → update_in v path (lodash_get v path) = v.
Proof.
  revert v. induction path as [|key rest IH]; intros v Ht; [done|].
  destruct (truthy_get_own _ _ _ Ht) as (props & -> & Hown).
  cbn in *. rewrite IH by done. by rewrite set_prop_same.
Qed.

(** ** The display-data transform *)

Section Transform.
Context `{Platform}.

Lemma replace_skips (extension : string) (data : value) (property : string) (w : world) :
  truthy (member data property) = false →
  replacePropertyWithTemporaryFile extension data property w
  = (Return data, set_logs (λ l, l ++ [("debug", ["no"; property; "on data"])]) w).
Proof. intros Hf. unfold replacePropertyWithTemporaryFile. by rewrite Hf. Qed.

Lemma replace_saves (extension : string) (data : value) (property : string) (w : world) :
  truthy (member data property) = true →
  let filepath := tmp_path (files w) extension in
  let route := route_key (urls w) ("/" +:+ lodash_last (split filepath path_sep)) in
  replacePropertyWithTemporaryFile extension data property w
  = (Return (set_member data property (VString route)),
     set_logs (λ l, l ++ [("info", ["new plot served from"; route])])
       (set_urls (insert route filepath)
          (set_files (insert filepath (member data property)) w))).
Proof. intros Ht. unfold replacePropertyWithTemporaryFile. by rewrite Ht. Qed.

(** What one replacement leaves alone: the other properties, the set of
    property names, and every file and route that existed. *)
Lemma replace_frame (extension : string) (data : value) (property : string) (w : world) :
  ∃ data' w',
    replacePropertyWithTemporaryFile extension data property w = (Return data', w')
    ∧ keys_of data' = keys_of data
    ∧ (∀ key, key ≠ property → member data' key = member data key)
    ∧ files w ⊆ files w'
    ∧ urls w ⊆ urls w'.
Proof.
  destruct (truthy (member data property)) eqn:Ht.
  - eexists _, _. split; [by apply replace_saves|].
    split; [by apply keys_of_set_member|].
    split; [intros key Hne; by apply member_set_member_ne|].
    cbn. split; apply insert_subseteq.
    + apply tmp_path_fresh.
    + apply route_key_fresh.
  - eexists _, _. split; [by apply replace_skips|]. done.
Qed.

Lemma replace_keeps (extension : string) (data data' : value) (property : string)
    (w w' : world) :
  replacePropertyWithTemporaryFile extension data property w = (Return data', w') →
  keys_of data' = keys_of data
  ∧ (∀ key, key ≠ property → member data' key = member data key)
  ∧ files w ⊆ files w'
  ∧ urls w ⊆ urls w'.
Proof.
  intros Hr. destruct (replace_frame extension data property w) as (d & w0 & Hr0 & Hrest).
  rewrite Hr in Hr0. by injection Hr0 as <- <-.
Qed.

(** What one replacement does to a property that holds something. *)
Lemma replace_moves (extension : string) (data : value) (property : string) (w : world) :
  truthy (member data property) = true →
  ∃ data' w' route filepath,
    replacePropertyWithTemporaryFile extension data property w = (Return data', w')
    ∧ member data' property = VString route
    ∧ urls w !! route = None
    ∧ urls w' !! route = Some filepath
    ∧ files w !! filepath = None
    ∧ files w' !! filepath = Some (member data property).
Proof.
  intros Ht. eexists _, _, _, _. split; [by apply replace_saves|].
  split; [by apply member_set_member_eq|].
  cbn.
  split; [apply route_key_fresh|].
  split; [apply lookup_insert_eq|].
  split; [apply tmp_path_fresh|].
  apply lookup_insert_eq.
Qed.

End Transform.

Lemma bind_return {A B} (m : M A) (k : A → M B) (w w' : world) (a : A) :
  m w = (Return a, w') → bind m k w = k a w'.
Proof. intros Hm. unfold bind. by rewrite Hm. Qed.

Lemma bind_throw {A B} (m : M A) (k : A → M B) (w w' : world) (e : error) :
  m w = (Throw e, w') → bind m k w = (Throw e, w').
Proof. intros Hm. unfold bind. by rewrite Hm. Qed.

Section TransformSteps.
Context `{Platform}.

Lemma buffered_total (data : value) : ∃ r, buffered data r.
Proof.
  destruct (truthy (member data "image/png")) eqn:Ht.
  - destruct (new_Buffer (member data "image/png")) as [buffer|e] eqn:Hb.
    + eexists. by apply buffered_some.
    + eexists. by apply buffered_throw.
  - eexists. by apply buffered_none.
Qed.

Lemma transform_not_display (event : value) (w : world) :
  is_display_data (event_type event) = false ∨ truthy (event_data event) = false →
  displayDataTransform event w = (Return event, w).
Proof.
  intros Hno. unfold displayDataTransform.
  fold (event_type event). fold (event_data event).
  by destruct Hno as [-> | ->]; [|rewrite andb_false_r].
Qed.

Lemma transform_throws (event : value) (w : world) (e : error) :
  is_display_data (event_type event) = true → truthy (event_data event) = true →
  buffered (event_data event) (Throw e) →
  displayDataTransform event w = (Throw e, w).
Proof.
  intros Hd Ht Hb. unfold displayDataTransform.
  fold (event_type event). fold (event_data event). rewrite Hd, Ht. cbn [andb].
  inversion Hb as [| |e' Hpng Hnew]; subst.
  rewrite Hpng. unfold bind, lift. by rewrite Hnew.
Qed.

Lemma transform_steps (event data : value) (w : world) :
  is_display_data (event_type event) = true → truthy (event_data event) = true →
  buffered (event_data event) (Return data) →
  ∃ html w1 png w2 svg w3,
    replacePropertyWithTemporaryFile ".html" data "text/html" w = (Return html, w1)
    ∧ replacePropertyWithTemporaryFile ".png" html "image/png" w1 = (Return png, w2)
    ∧ replacePropertyWithTemporaryFile ".svg" png "image/svg" w2 = (Return svg, w3)
    ∧ displayDataTransform event w
      = (Return (update_in event ["result"; "content"; "data"] svg), w3).
Proof.
  intros Hd Ht Hb.
  destruct (replace_frame ".html" data "text/html" w) as (html & w1 & H1 & _).
  destruct (replace_frame ".png" html "image/png" w1) as (png & w2 & H2 & _).
  destruct (replace_frame ".svg" png "image/svg" w2) as (svg & w3 & H3 & _).
  exists html, w1, png, w2, svg, w3. do 3 (split; [done|]).
  unfold displayDataTransform.
  fold (event_type event). fold (event_data event). rewrite Hd, Ht. cbn [andb].
  assert (Hfirst :
    (if truthy (member (event_data event) "image/png")
     then let! buffer := lift (new_Buffer (member (event_data event) "image/png"))
          in ret (set_member (event_data event) "image/png" buffer)
     else ret (event_data event)) w = (Return data, w)).
  { inversion Hb as [Hpng | buffer Hpng Hnew |]; subst; rewrite Hpng; [done|].
    unfold bind, lift. by rewrite Hnew. }
  rewrite (bind_return _ _ _ _ _ Hfirst).
  rewrite (bind_return _ _ _ _ _ H1).
  rewrite (bind_return _ _ _ _ _ H2).
  by rewrite (bind_return _ _ _ _ _ H3).
Qed.

Lemma event_data_transformed (event data : value) :
  truthy (event_data event) = true →
  event_data (update_in event ["result"; "content"; "data"] data) = data.
Proof. intros Ht. by apply lodash_get_update_in. Qed.

(** C7. An event that is not a display-data event, or whose data is missing
    or empty, comes back as it was and nothing else changes; an event whose
    data is not a plain object comes back as it was; and whenever the
    transform returns an event, its data has no field that the original data
    did not have. *)
Theorem transform_leaves_other_events_alone (event : value) (w : world) :
  (is_display_data (event_type event) = false ∨ truthy (event_data event) = false →
   displayDataTransform event w = (Return event, w))
  ∧ (isPlainObject (event_data event) = false →
     ∃ w', displayDataTransform event w = (Return event, w'))
  ∧ (∀ event' w', displayDataTransform event w = (Return event', w') →
     ∀ field, field ∉ keys_of (event_data event) → field ∉ keys_of (event_data event')).
Proof.
  split; [apply transform_not_display|].
  assert (Hsame : is_display_data (event_type event) = false
                  ∨ truthy (event_data event) = false →
    (isPlainObject (event_data event) = false →
     ∃ w', displayDataTransform event w = (Return event, w'))
    ∧ (∀ event' w', displayDataTransform event w = (Return event', w') →
       ∀ field, field ∉ keys_of (event_data event) → field ∉ keys_of (event_data event'))).
  { intros Hno. rewrite (transform_not_display event w Hno). split.
    - intros _. by eexists.
    - intros event' w' Hr field Hfield. by simplify_eq. }
  destruct (is_display_data (event_type event)) eqn:Hd; [|apply Hsame; by left].
  destruct (truthy (event_data event)) eqn:Ht; [|apply Hsame; by right].
  clear Hsame. split.
  - intros Hplain.
    assert (Hmember : ∀ key, truthy (member (event_data event) key) = false).
    { intros key. by destruct (event_data event). }
    destruct (transform_steps event (event_data event) w Hd Ht)
      as (html & w1 & png & w2 & svg & w3 & H1 & H2 & H3 & Hr).
    { by apply buffered_none. }
    rewrite replace_skips in H1 by done. simplify_eq.
    rewrite replace_skips in H2 by done. simplify_eq.
    rewrite replace_skips in H3 by done. simplify_eq.
    eexists. rewrite Hr. by rewrite update_in_same.
  - intros event' w' Hr field Hfield.
    destruct (buffered_total (event_data event)) as [[data|e] Hb].
    + destruct (transform_steps event data w Hd Ht Hb)
        as (html & w1 & png & w2 & svg & w3 & H1 & H2 & H3 & Hr').
      assert (event' = update_in event ["result"; "content"; "data"] svg) as ->
        by congruence.
      rewrite event_data_transformed by done.
      destruct (replace_keeps _ _ _ _ _ _ H1) as (K1 & _).
      destruct (replace_keeps _ _ _ _ _ _ H2) as (K2 & _).
      destruct (replace_keeps _ _ _ _ _ _ H3) as (K3 & _).
      rewrite K3, K2, K1.
      inversion Hb as [Hpng | buffer Hpng Hnew |]; subst; [done|].
      by rewrite keys_of_set_member.
    + rewrite (transform_throws event w e) in Hr by done. simplify_eq.
Qed.

End TransformSteps.

Section TransformPayloads.
Context `{Platform}.

Lemma truthy_text (text : string) : text ≠ "" → truthy (VString text) = true.
Proof. intros Hne. cbn. by apply String.eqb_neq in Hne as ->. Qed.

Lemma member_truthy_data (data : value) (key : string) :
  truthy (member data key) = true → truthy data = true.
Proof. intros Ht. by apply truthy_member_own in Ht as (props & -> & _). Qed.

(** C8. A display-data event whose [image/png] field holds non-empty base64
    text: the text is decoded to bytes, the bytes are written to a temporary
    file that did not exist, a route that did not exist is registered for that
    file, and the field then holds the route; looking the route up in the plot
    server's table gives the file, whose content is the decoded bytes, and
    [onSavePlot] on that route asks for a copy of that file. *)
Theorem png_payload_is_decoded_and_served (event : value) (text : string) (w : world) :
  is_display_data (event_type event) = true →
  member (event_data event) "image/png" = VString text →
  text ≠ "" →
  ∃ event' w' route filepath,
    displayDataTransform event w = (Return event', w')
    ∧ member (event_data event') "image/png" = VString route
    ∧ urls w !! route = None
    ∧ urls w' !! route = Some filepath
    ∧ files w !! filepath = None
    ∧ files w' !! filepath = Some (VBuffer (base64_decode text))
    ∧ ∀ destination,
        (onSavePlot route destination w').2.(calls)
        = calls w' ++ [CopyFile filepath destination (next_ref w')].
Proof.
  intros Hd Hpng Htext.
  pose proof (truthy_text text Htext) as Htruthy.
  assert (Hpng_t : truthy (member (event_data event) "image/png") = true)
    by by rewrite Hpng.
  pose proof (member_truthy_data _ _ Hpng_t) as Ht.
  set (data := set_member (event_data event) "image/png" (VBuffer (base64_decode text))).
  assert (Hb : buffered (event_data event) (Return data)).
  { apply buffered_some; [done|]. by rewrite Hpng. }
  destruct (transform_steps event data w Hd Ht Hb)
    as (html & w1 & png & w2 & svg & w3 & H1 & H2 & H3 & Hr).
  destruct (replace_keeps _ _ _ _ _ _ H1) as (_ & M1 & F1 & U1).
  destruct (replace_keeps _ _ _ _ _ _ H3) as (_ & M3 & F3 & U3).
  assert (Hbuf : member html "image/png" = VBuffer (base64_decode text)).
  { rewrite M1 by discriminate. by apply member_set_member_eq. }
  destruct (replace_moves ".png" html "image/png" w1) as
    (png' & w2' & route & filepath & H2' & Hroute & Hnew_r & Hurl & Hnew_f & Hfile).
  { by rewrite Hbuf. }
  rewrite H2 in H2'. injection H2' as <- <-.
  exists (update_in event ["result"; "content"; "data"] svg), w3, route, filepath.
  split; [done|].
  split; [rewrite event_data_transformed by done; rewrite M3 by discriminate; done|].
  split; [by eapply lookup_weaken_None|].
  split; [by eapply lookup_weaken|].
  split; [by eapply lookup_weaken_None|].
  split; [rewrite Hbuf in Hfile; by eapply lookup_weaken|].
  intros destination. unfold onSavePlot, bind, gets. cbn.
  assert (Hlook : urls w3 !! route = Some filepath) by by eapply lookup_weaken.
  rewrite Hlook. by destruct w3.
Qed.

End TransformPayloads.

(** A run of C8 on a PNG signature sent as [iVBORw0KGgo=]. *)
Lemma png_payload_is_decoded_and_served_witness :
  ∃ event' w' route filepath,
    displayDataTransform png_event empty_world = (Return event', w')
    ∧ member (event_data event') "image/png" = VString route
    ∧ urls empty_world !! route = None
    ∧ urls w' !! route = Some filepath
    ∧ files empty_world !! filepath = None
    ∧ files w' !! filepath = Some (VBuffer (base64_decode "iVBORw0KGgo="))
    ∧ ∀ destination,
        (onSavePlot route destination w').2.(calls)
        = calls w' ++ [CopyFile filepath destination (next_ref w')].
Proof.
  apply (png_payload_is_decoded_and_served png_event "iVBORw0KGgo=" empty_world).
  - reflexivity.
  - reflexivity.
  - discriminate.
Defined.

Section TransformAgain.
Context `{Platform}.

Lemma buffered_text_or_empty (data : value) :
  png_is_text_or_empty data = true →
  ∃ data', buffered data (Return data')
    ∧ ∀ key, key ≠ "image/png" → member data' key = member data key.
Proof.
  unfold png_is_text_or_empty. intros Hok.
  destruct (truthy (member data "image/png")) eqn:Ht.
  - rewrite orb_false_r in Hok.
    destruct (member data "image/png") as [| | | |text| | | |] eqn:Hpng; try discriminate.
    exists (set_member data "image/png" (VBuffer (base64_decode text))). split.
    + apply buffered_some; by rewrite Hpng.
    + intros key Hne. by apply member_set_member_ne.
  - exists data. split; [by apply buffered_none|done].
Qed.

Lemma registered_is_not_fresh (routes routes' : gmap string string) (route route' : string) :
  is_Some (routes !! route) → routes ⊆ routes' → routes' !! route' = None → route' ≠ route.
Proof.
  intros [filepath Hin] Hsub Hfresh ->.
  pose proof (lookup_weaken _ _ _ _ Hin Hsub). congruence.
Qed.

(** C6, as the code has it. The transform keeps no mark on a field it has
    rewritten. A recognized field that holds a registered route key, which is
    non-empty text, is handled like any payload: the key itself is written
    ([image/png]: after base64 decoding) to a temporary file that did not
    exist, and the field receives another route key than the one it held. *)
Theorem rewritten_field_is_rewritten_again (event : value) (field route : string)
    (w : world) :
  field ∈ ["text/html"; "image/png"; "image/svg"] →
  is_display_data (event_type event) = true →
  png_is_text_or_empty (event_data event) = true →
  member (event_data event) field = VString route →
  route ≠ "" →
  is_Some (urls w !! route) →
  ∃ event' w' route' filepath,
    displayDataTransform event w = (Return event', w')
    ∧ member (event_data event') field = VString route'
    ∧ route' ≠ route
    ∧ urls w' !! route' = Some filepath
    ∧ files w !! filepath = None
    ∧ files w' !! filepath
      = Some (if String.eqb field "image/png"
              then VBuffer (base64_decode route) else VString route).
Proof.
  intros Hfield Hd Hok Hroute Hne Hreg.
  pose proof (truthy_text route Hne) as Htruthy.
  assert (Hfield_t : truthy (member (event_data event) field) = true)
    by by rewrite Hroute.
  pose proof (member_truthy_data _ _ Hfield_t) as Ht.
  destruct (buffered_text_or_empty _ Hok) as (data & Hb & Hother).
  destruct (transform_steps event data w Hd Ht Hb)
    as (html & w1 & png & w2 & svg & w3 & H1 & H2 & H3 & Hr).
  destruct (replace_keeps _ _ _ _ _ _ H1) as (_ & M1 & F1 & U1).
  destruct (replace_keeps _ _ _ _ _ _ H2) as (_ & M2 & F2 & U2).
  destruct (replace_keeps _ _ _ _ _ _ H3) as (_ & M3 & F3 & U3).
  exists (update_in event ["result"; "content"; "data"] svg), w3.
  rewrite event_data_transformed by done.
  repeat (apply elem_of_cons in Hfield as [->|Hfield]);
    [| | |by apply elem_of_nil in Hfield].
  - (* text/html: the first replacement *)
    assert (Hheld : member data "text/html" = VString route)
      by by rewrite Hother.
    destruct (replace_moves ".html" data "text/html" w) as
      (d & w' & route' & filepath & H1' & Hnew & Hfresh & Hurl & Hnofile & Hfile).
    { by rewrite Hheld. }
    rewrite H1 in H1'. injection H1' as <- <-.
    exists route', filepath. split; [done|].
    split; [by rewrite M3, M2 by discriminate|].
    split; [by eapply (registered_is_not_fresh (urls w) (urls w))|].
    split; [eapply lookup_weaken; [|exact U3]; by eapply lookup_weaken|].
    split; [done|].
    rewrite Hheld in Hfile. cbn.
    eapply lookup_weaken; [|exact F3]. by eapply lookup_weaken.
  - (* image/png: the buffer made from the key goes to the file *)
    assert (Hpng_t : truthy (member (event_data event) "image/png") = true)
      by by rewrite Hroute.
    assert (Hheld : member html "image/png" = VBuffer (base64_decode route)).
    { rewrite M1 by discriminate.
      inversion Hb as [Hfalse | buffer _ Hnew |]; subst; [congruence|].
      rewrite Hroute in Hnew. injection Hnew as <-.
      by apply member_set_member_eq. }
    destruct (replace_moves ".png" html "image/png" w1) as
      (d & w' & route' & filepath & H2' & Hnew & Hfresh & Hurl & Hnofile & Hfile).
    { by rewrite Hheld. }
    rewrite H2 in H2'. injection H2' as <- <-.
    exists route', filepath. split; [done|].
    split; [by rewrite M3 by discriminate|].
    split; [by eapply (registered_is_not_fresh (urls w) (urls w1))|].
    split; [by eapply lookup_weaken|].
    split; [by eapply lookup_weaken_None|].
    rewrite Hheld in Hfile. cbn. by eapply lookup_weaken.
  - (* image/svg: the last replacement *)
    assert (Hheld : member png "image/svg" = VString route)
      by by rewrite M2, M1, Hother.
    destruct (replace_moves ".svg" png "image/svg" w2) as
      (d & w' & route' & filepath & H3' & Hnew & Hfresh & Hurl & Hnofile & Hfile).
    { by rewrite Hheld. }
    rewrite H3 in H3'. injection H3' as <- <-.
    exists route', filepath. split; [done|].
    split; [done|].
    split; [eapply (registered_is_not_fresh (urls w) (urls w2)); [done| |done];
            by etrans|].
    split; [done|].
    split; [eapply lookup_weaken_None; [|exact F1]; by eapply lookup_weaken_None|].
    by rewrite Hheld in Hfile.
Qed.

End TransformAgain.

(** C6 as stated does not hold: the field that the first pass turned into the
    route [/rodeo-0.html] is rewritten by a second pass over the same event,
    which stores the text [/rodeo-0.html] in a second file and hands out a
    second route. *)
Lemma transform_twice_differs_from_once :
  ∃ once w1 twice w2,
    displayDataTransform html_event empty_world = (Return once, w1)
    ∧ displayDataTransform once w1 = (Return twice, w2)
    ∧ member (event_data once) "text/html" = VString "/rodeo-0.html"
    ∧ member (event_data twice) "text/html" = VString "/rodeo-1.html"
    ∧ files w2 !! "/tmp/rodeo-1.html" = Some (VString "/rodeo-0.html")
    ∧ twice ≠ once.
Proof.
  eexists _, _, _, _.
  split; [vm_compute; reflexivity|].
  split; [vm_compute; reflexivity|].
  split; [reflexivity|].
  split; [reflexivity|].
  split; [vm_compute; reflexivity|].
  discriminate.
Qed.

(** A run of the amended C6 on the event and the state that the first pass
    over [html_event] leaves. *)
Lemma rewritten_field_is_rewritten_again_witness :
  ∃ event' w' route' filepath,
    displayDataTransform html_event_served world_served = (Return event', w')
    ∧ member (event_data event') "text/html" = VString route'
    ∧ route' ≠ "/rodeo-0.html"
    ∧ urls w' !! route' = Some filepath
    ∧ files world_served !! filepath = None
    ∧ files w' !! filepath = Some (VString "/rodeo-0.html").
Proof.
  apply (rewritten_field_is_rewritten_again html_event_served "text/html"
           "/rodeo-0.html" world_served).
  - apply list_elem_of_here.
  - reflexivity.
  - reflexivity.
  - reflexivity.
  - discriminate.
  - exists "/tmp/rodeo-0.html". vm_compute. reflexivity.
Defined.

(** ** Requests for a session that is not in the table *)

Lemma table_get_stored (table : gmap string nat) (id : string) (promise : nat) :
  table !! id = Some promise → table_get table id = Some (Stored promise).
Proof. unfold table_get. by intros ->. Qed.

Lemma table_get_unknown (table : gmap string nat) (id : string) :
  table !! id = None → id ∉ inherited_names → table_get table id = None.
Proof. unfold table_get. intros -> Hout. by rewrite bool_decide_eq_false_2. Qed.

Lemma table_get_inherited (table : gmap string nat) (id : string) :
  table !! id = None → id ∈ inherited_names → table_get table id = Some Inherited.
Proof. unfold table_get. intros -> Hin. by rewrite bool_decide_eq_true_2. Qed.

Section UnknownSession.
Context `{Platform}.

Lemma getKernelInstanceById_unknown (id : value) (w : world) :
  kernelClients w !! to_string id = None → to_string id ∉ inherited_names →
  getKernelInstanceById id w
  = (Throw (Error ("Kernel with this id does not exist: " +:+ to_string id)),
     set_logs (λ l, l ++ [("info", ["getKernelInstanceById"; to_string id])]) w).
Proof.
  intros Hnone Hout. unfold getKernelInstanceById. run_model.
  by rewrite table_get_unknown.
Qed.

Lemma forward_unknown (options : object) (method : string) (args : list value) (w : world) :
  kernelClients w !! to_string (get_prop options "instanceId") = None →
  to_string (get_prop options "instanceId") ∉ inherited_names →
  forward options method args w
  = (Throw (Error ("Kernel with this id does not exist: "
                   +:+ to_string (get_prop options "instanceId"))),
     set_logs (λ l, l ++ [("info", ["getKernelInstanceById";
                                    to_string (get_prop options "instanceId")])]) w).
Proof.
  intros Hnone Hout. unfold forward.
  by rewrite (bind_throw _ _ _ _ _ (getKernelInstanceById_unknown _ _ Hnone Hout)).
Qed.

Lemma forward_inherited (options : object) (method : string) (args : list value)
    (w : world) :
  kernelClients w !! to_string (get_prop options "instanceId") = None →
  to_string (get_prop options "instanceId") ∈ inherited_names →
  forward options method args w
  = (Throw (TypeError "getKernelInstanceById(...).then is not a function"),
     set_logs (λ l, l ++ [("info", ["getKernelInstanceById";
                                    to_string (get_prop options "instanceId")])]) w).
Proof.
  intros Hnone Hin. unfold forward, getKernelInstanceById. run_model.
  by rewrite table_get_inherited.
Qed.

(** C4 (the code does not do what the claim says). The table is a plain
    object, so [kernelClients[id]] is truthy for an id that names a member of
    [Object.prototype], such as [toString] or [constructor], although no
    session is stored under it. The guard for an unknown id lets such an id
    pass: the request goes on to call [then] on the member it found and throws
    a [TypeError], which is neither of the two errors for an unknown kernel.
    The table, the promises and the calls to collaborators are as they were. *)
Theorem inherited_name_is_not_not_found (w : world) (r : ipc) (id : string) :
  session_of r = Some id → kernelClients w !! id = None → id ∈ inherited_names →
  has_text r = true →
  ∃ message w',
    handle r w = (Throw (TypeError message), w')
    ∧ ¬ not_found id (TypeError message)
    ∧ kernelClients w' = kernelClients w
    ∧ promises w' = promises w
    ∧ jobs w' = jobs w
    ∧ calls w' = calls w.
Proof.
  intros Hsession Hnone Hin Htext.
  assert (Hother : ∀ message, ¬ not_found id (TypeError message)).
  { intros message [Hkill | Hget]; discriminate. }
  destruct r; cbn in Hsession; simplify_eq; cbn [handle].
  - (* kill *)
    eexists _, _. split.
    { unfold onKillKernelInstance. run_model. rewrite table_get_inherited by done.
      reflexivity. }
    split; [apply Hother|done].
  - (* execute *)
    cbn in Htext. eexists _, _. split.
    { unfold onExecuteWithKernel, forward, getKernelInstanceById.
      rewrite Htext. run_model. rewrite table_get_inherited by done. reflexivity. }
    split; [apply Hother|done].
  - eexists _, _. unfold onGetAutoComplete. split.
    { by rewrite (bind_throw _ _ _ _ _ (forward_inherited _ _ _ _ Hnone Hin)). }
    split; [apply Hother|done].
  - eexists _, _. unfold onIsComplete. split.
    { by rewrite (bind_throw _ _ _ _ _ (forward_inherited _ _ _ _ Hnone Hin)). }
    split; [apply Hother|done].
  - eexists _, _. unfold onGetInspection. split.
    { by rewrite (bind_throw _ _ _ _ _ (forward_inherited _ _ _ _ Hnone Hin)). }
    split; [apply Hother|done].
  - eexists _, _. unfold onGetStatus. split.
    { by rewrite (bind_throw _ _ _ _ _ (forward_inherited _ _ _ _ Hnone Hin)). }
    split; [apply Hother|done].
  - eexists _, _. unfold onExecuteHidden. split.
    { by rewrite (bind_throw _ _ _ _ _ (forward_inherited _ _ _ _ Hnone Hin)). }
    split; [apply Hother|done].
  - eexists _, _. unfold onEval. split.
    { by rewrite (bind_throw _ _ _ _ _ (forward_inherited _ _ _ _ Hnone Hin)). }
    split; [apply Hother|done].
  - eexists _, _. unfold onInterrupt. split.
    { by rewrite (bind_throw _ _ _ _ _ (forward_inherited _ _ _ _ Hnone Hin)). }
    split; [apply Hother|done].
Qed.

(** X28. For an id that the table does not hold and that is no name that the
    table inherits, every request addressed to a session throws at once with
    the error for an unknown kernel, and leaves the table, the promises, the
    queue and the calls to collaborators as they were; [execute] does so when
    it comes with a text, and with an empty text it throws the error for a
    missing text before it looks the session up. *)
Theorem unknown_session_is_not_found (w : world) :
  (∀ r id, session_of r = Some id → kernelClients w !! id = None →
     id ∉ inherited_names → has_text r = true →
     ∃ e w', handle r w = (Throw e, w')
       ∧ not_found id e
       ∧ kernelClients w' = kernelClients w
       ∧ promises w' = promises w
       ∧ jobs w' = jobs w
       ∧ calls w' = calls w)
  ∧ (∀ options text, truthy text = false →
       onExecuteWithKernel options text w = (Throw (Error "Missing text to execute"), w)).
Proof.
  split.
  - intros r id Hsession Hnone Hout Htext.
    destruct r; cbn in Hsession; simplify_eq; cbn [handle].
    + (* kill *)
      exists (Error "Kernel with that id does not exist."), w.
      split; [|split; [by left|done]].
      unfold onKillKernelInstance. run_model. by rewrite table_get_unknown.
    + (* execute *)
      cbn in Htext. eexists _, _. split.
      { unfold onExecuteWithKernel, forward, getKernelInstanceById.
        rewrite Htext. run_model. rewrite table_get_unknown by done. reflexivity. }
      split; [by right|done].
    + eexists _, _. unfold onGetAutoComplete. split.
      { by rewrite (bind_throw _ _ _ _ _ (forward_unknown _ _ _ _ Hnone Hout)). }
      split; [by right|done].
    + eexists _, _. unfold onIsComplete. split.
      { by rewrite (bind_throw _ _ _ _ _ (forward_unknown _ _ _ _ Hnone Hout)). }
      split; [by right|done].
    + eexists _, _. unfold onGetInspection. split.
      { by rewrite (bind_throw _ _ _ _ _ (forward_unknown _ _ _ _ Hnone Hout)). }
      split; [by right|done].
    + eexists _, _. unfold onGetStatus. split.
      { by rewrite (bind_throw _ _ _ _ _ (forward_unknown _ _ _ _ Hnone Hout)). }
      split; [by right|done].
    + eexists _, _. unfold onExecuteHidden. split.
      { by rewrite (bind_throw _ _ _ _ _ (forward_unknown _ _ _ _ Hnone Hout)). }
      split; [by right|done].
    + eexists _, _. unfold onEval. split.
      { by rewrite (bind_throw _ _ _ _ _ (forward_unknown _ _ _ _ Hnone Hout)). }
      split; [by right|done].
    + eexists _, _. unfold onInterrupt. split.
      { by rewrite (bind_throw _ _ _ _ _ (forward_unknown _ _ _ _ Hnone Hout)). }
      split; [by right|done].
  - intros options text Htext. unfold onExecuteWithKernel. by rewrite Htext.
Qed.

End UnknownSession.

(** A run of C4: [getStatus] for the id [toString] on the empty table. *)
Lemma inherited_name_is_not_not_found_witness :
  ∃ message w',
    handle (GetStatus [("instanceId", VString "toString")]) empty_world
    = (Throw (TypeError message), w')
    ∧ ¬ not_found "toString" (TypeError message)
    ∧ kernelClients w' = kernelClients empty_world
    ∧ promises w' = promises empty_world
    ∧ jobs w' = jobs empty_world
    ∧ calls w' = calls empty_world.
Proof.
  apply (inherited_name_is_not_not_found empty_world
           (GetStatus [("instanceId", VString "toString")]) "toString").
  - reflexivity.
  - reflexivity.
  - apply (bool_decide_eq_true_1 _). reflexivity.
  - reflexivity.
Defined.

(** A run of X28: [getStatus] for the id [k1] on the empty table. *)
Lemma unknown_session_is_not_found_witness :
  ∃ e w', handle (GetStatus [("instanceId", VString "k1")]) empty_world = (Throw e, w')
    ∧ not_found "k1" e
    ∧ kernelClients w' = kernelClients empty_world
    ∧ promises w' = promises empty_world
    ∧ jobs w' = jobs empty_world
    ∧ calls w' = calls empty_world.
Proof.
  apply (proj1 (unknown_session_is_not_found empty_world)
           (GetStatus [("instanceId", VString "k1")]) "k1").
  - reflexivity.
  - reflexivity.
  - apply (bool_decide_eq_false_1 _). reflexivity.
  - reflexivity.
Defined.

(** ** Running the model step by step *)

Lemma heap_ok_lt (w : world) (p : nat) (st : pstate) :
  heap_ok w → promises w !! p = Some st → (p < next_ref w)%nat.
Proof. intros Hok Hp. exact (Hok p st Hp). Qed.

Lemma heap_ok_fresh (w : world) (r : nat) :
  heap_ok w → (next_ref w ≤ r)%nat → promises w !! r = None.
Proof.
  intros Hok Hr. destruct (promises w !! r) as [st|] eqn:Hst; [|done].
  pose proof (heap_ok_lt _ _ _ Hok Hst). lia.
Qed.

Lemma bind_bind {A B C} (m : M A) (k1 : A → M B) (k2 : B → M C) (w : world) :
  bind (bind m k1) k2 w = bind m (λ a, bind (k1 a) k2) w.
Proof. unfold bind. by destruct (m w) as [[a|e] w']. Qed.

Lemma bind_ret {A B} (a : A) (k : A → M B) (w : world) : bind (ret a) k w = k a w.
Proof. done. Qed.

Lemma bind_throw_l {A B} (e : error) (k : A → M B) (w : world) :
  bind (throw e) k w = (Throw e, w).
Proof. done. Qed.

Lemma bind_modify {B} (f : world → world) (k : unit → M B) (w : world) :
  bind (modify f) k w = k tt (f w).
Proof. done. Qed.

Lemma bind_gets {A B} (f : world → A) (k : A → M B) (w : world) :
  bind (gets f) k w = k (f w) w.
Proof. done. Qed.

Lemma bind_lift_return {A B} (a : A) (k : A → M B) (w : world) :
  bind (lift (Return a)) k w = k a w.
Proof. done. Qed.

Lemma bind_lift_throw {A B} (e : error) (k : A → M B) (w : world) :
  bind (lift (Throw e : result A)) k w = (Throw e, w).
Proof. done. Qed.

Lemma bind_attempt {A B} (m : M A) (k : result A → M B) (w : world) :
  bind (attempt m) k w = k (m w).1 (m w).2.
Proof. unfold bind, attempt. by destruct (m w). Qed.

Lemma modify_run (f : world → world) (w : world) : modify f w = (Return tt, f w).
Proof. done. Qed.

Lemma ret_run {A} (a : A) (w : world) : ret a w = (Return a, w).
Proof. done. Qed.

Lemma throw_run {A} (e : error) (w : world) : @throw A e w = (Throw e, w).
Proof. done. Qed.

Section DrainLaws.
Context `{Platform}.

Lemma drain_cons fuel kc pr n j rest ts t ls cs lg cc fs us up :
  drain (S fuel) (World kc pr n (j :: rest) ts t ls cs lg cc fs us up)
  = drain fuel (run_job j (World kc pr n rest ts t ls cs lg cc fs us up)).2.
Proof. done. Qed.

Lemma drain_nil fuel kc pr n ts t ls cs lg cc fs us up :
  drain fuel (World kc pr n [] ts t ls cs lg cc fs us up)
  = Some (World kc pr n [] ts t ls cs lg cc fs us up).
Proof. by destruct fuel. Qed.

Lemma drain_quiet (fuel : nat) (w : world) : jobs w = [] → drain fuel w = Some w.
Proof. intros Hq. destruct fuel; cbn; by rewrite Hq. Qed.

Lemma answers_call_last p kc pr n js ts t ls cs c lg cc fs us up :
  call_promise c = Some p →
  answers_call p (World kc pr n js ts t ls (cs ++ [c]) lg cc fs us up) = true.
Proof.
  intros Hc. unfold answers_call. cbn. rewrite existsb_app. cbn.
  rewrite Hc, Nat.eqb_refl. by rewrite orb_true_r.
Qed.

End DrainLaws.

Section EmitLaws.
Context `{Platform}.

Lemma emit_to_skip ls ls' (c : nat) (name : string) (args : list value) (w : world) :
  Forall (λ x : nat * string * listener, x.1.1 ≠ c) ls →
  emit_to (ls ++ ls') c name args w = emit_to ls' c name args w.
Proof.
  induction 1 as [|[[c' name'] l] rest Hne _ IH]; [done|].
  cbn [app emit_to]. cbn in Hne. apply Nat.eqb_neq in Hne as ->. by cbn [andb].
Qed.

Lemma emit_to_hit (c : nat) (name : string) l rest (args : list value) (w : world) :
  emit_to ((c, name, l) :: rest) c name args w
  = bind (run_listener l c args) (λ _, emit_to rest c name args) w.
Proof. cbn [emit_to]. by rewrite Nat.eqb_refl, String.eqb_refl. Qed.

Lemma emit_to_miss (c c' : nat) (name name' : string) l rest (args : list value)
    (w : world) :
  String.eqb name' name = false →
  emit_to ((c', name', l) :: rest) c name args w = emit_to rest c name args w.
Proof. intros Hne. cbn [emit_to]. by rewrite Hne, andb_false_r. Qed.

Lemma emit_to_nil (c : nat) (name : string) (args : list value) (w : world) :
  emit_to [] c name args w = (Return tt, w).
Proof. done. Qed.

End EmitLaws.

Ltac world_norm :=
  cbv [set_kernelClients set_promises set_next_ref set_jobs set_timers set_now
       set_listeners set_calls set_logs set_cuid_count set_files set_urls set_upstream];
  cbn [kernelClients promises next_ref jobs timers now listeners calls logs
       cuid_count files urls upstream fst snd app map
       job_reaction job_outcome on_fulfilled on_rejected child follows
       reactions_of job_now settled_with with_reaction is_pending
       option_fmap option_map fmap].

Ltac use_lookups :=
  repeat match goal with
         | H : ?m !! ?k = _ |- context [?m !! ?k] => rewrite H
         end.

Ltac heap_lookups :=
  repeat first
    [ rewrite lookup_insert_eq
    | rewrite lookup_insert_ne by lia
    | rewrite lookup_alter_eq
    | rewrite lookup_alter_ne by lia
    | rewrite lookup_delete_eq
    | rewrite lookup_delete_ne by lia ].

Ltac js_law :=
  first [ rewrite bind_bind | rewrite bind_ret | rewrite bind_throw_l
        | rewrite bind_modify | rewrite bind_gets
        | rewrite bind_lift_return | rewrite bind_lift_throw
        | rewrite bind_attempt
        | rewrite modify_run | rewrite ret_run | rewrite throw_run
        | rewrite drain_cons | rewrite drain_nil ].

Ltac js_unfold :=
  unfold log, record_call, new_promise, settle, subscribe, then_, catch_, timeout,
    resolve, request, client_on, subscribeBrowserWindowToEvent,
    subscribeWindowToKernelEvents, run_listener, run_handler, run_job, forward,
    getKernelInstanceById, table_get, emit, fire, cancel_behind.

Ltac js_eval :=
  repeat (progress (js_unfold; repeat (js_law; world_norm); heap_lookups; use_lookups;
                    world_norm)).

Ltac js_emit :=
  repeat (progress (repeat first [ rewrite emit_to_hit
                                 | rewrite emit_to_miss by reflexivity
                                 | rewrite emit_to_nil ];
                    js_eval)).

(** ** Cancellation, one step at a time *)

Lemma cancel_down_pending (fuel p : nat) (reactions : list reaction)
    (ps : gmap nat pstate) :
  ps !! p = Some (Pending reactions) →
  cancel_down (S fuel) p ps
  = foldl (λ ps' r, cancel_down fuel (child r) ps') (<[p := Cancelled]> ps) reactions.
Proof. intros Hp. cbn [cancel_down]. by rewrite Hp. Qed.

Lemma cancel_down_other (fuel p : nat) (ps : gmap nat pstate) :
  is_pending (ps !! p) = false → cancel_down fuel p ps = ps.
Proof.
  intros Hp. destruct fuel; cbn [cancel_down];
    by destruct (ps !! p) as [[reactions|o|]|].
Qed.

Section CancelUp.
Variables (up : gmap nat source) (budget p : nat) (ps : gmap nat pstate).
Variable reactions : list reaction.
Hypothesis Hp : ps !! p = Some (Pending reactions).

Lemma cancel_up_branch (fuel c : nat) :
  other_branches c reactions ≠ [] →
  match up !! c with
  | Some (Following _) => False
  | _ => True
  end →
  cancel_up fuel up budget p (Some c) ps
  = cancel_down budget c (<[p := Pending (without_branch c reactions)]> ps).
Proof.
  intros Hothers Hup. destruct fuel; cbn [cancel_up]; rewrite Hp;
    destruct (other_branches c reactions); try done;
    by destruct (up !! c) as [[parent|followee]|].
Qed.

Lemma cancel_up_climb (fuel c parent : nat) :
  other_branches c reactions = [] → up !! p = Some (MadeFrom parent) →
  is_pending (ps !! parent) = true →
  cancel_up (S fuel) up budget p (Some c) ps = cancel_up fuel up budget parent (Some p) ps.
Proof. intros Hothers Hup Hparent. cbn [cancel_up]. by rewrite Hp, Hothers, Hup, Hparent. Qed.

Lemma cancel_up_follow (fuel c followee : nat) :
  other_branches c reactions = [] → up !! p = Some (Following followee) →
  cancel_up (S fuel) up budget p (Some c) ps = cancel_up fuel up budget followee None ps.
Proof. intros Hothers Hup. cbn [cancel_up]. by rewrite Hp, Hothers, Hup. Qed.

Lemma cancel_up_stop (fuel c : nat) :
  other_branches c reactions = [] →
  match up !! p with
  | Some (MadeFrom parent) => is_pending (ps !! parent) = false
  | Some (Following _) => False
  | None => True
  end →
  cancel_up fuel up budget p (Some c) ps = cancel_down budget p ps.
Proof.
  intros Hothers Hup. destruct fuel; cbn [cancel_up]; rewrite Hp, Hothers;
    destruct (up !! p) as [[parent|followee]|]; try done; by rewrite Hup.
Qed.

Lemma cancel_up_self (fuel : nat) :
  match up !! p with
  | Some (MadeFrom parent) => is_pending (ps !! parent) = false
  | Some (Following _) => False
  | None => True
  end →
  cancel_up fuel up budget p None ps = cancel_down budget p ps.
Proof.
  intros Hup. destruct fuel; cbn [cancel_up]; rewrite Hp;
    destruct (up !! p) as [[parent|followee]|]; try done; by rewrite Hup.
Qed.

End CancelUp.

Ltac same_or_not :=
  repeat first [ rewrite Nat.eqb_refl | rewrite (proj2 (Nat.eqb_neq _ _)) by lia ].

Ltac cancel_norm :=
  world_norm;
  cbn [other_branches without_branch List.filter follows child negb andb orb is_pending].

Ltac cancel_side :=
  cancel_norm; heap_lookups; use_lookups; cancel_norm; same_or_not; cancel_norm;
  first [ reflexivity | done ].

Ltac cancel_eval :=
  repeat first
    [ erewrite cancel_up_climb; [|cancel_side|cancel_side|cancel_side|cancel_side]
    | erewrite cancel_up_follow; [|cancel_side|cancel_side|cancel_side]
    | erewrite cancel_up_stop; [|cancel_side|cancel_side|cancel_side]
    | erewrite cancel_up_self; [|cancel_side|cancel_side]
    | erewrite cancel_up_branch; [|cancel_side|cancel_side|cancel_side]
    | erewrite cancel_down_pending; [|cancel_side]
    | rewrite cancel_down_other by cancel_side
    | progress cbn [foldl child without_branch List.filter follows negb orb]
    | progress same_or_not ].

(** ** What every reachable state satisfies *)

Section Invariant.
Context `{Platform}.

Lemma inv_frame (w w' : world) :
  kernelClients w' = kernelClients w → promises w' = promises w →
  next_ref w' = next_ref w → cuid_count w' = cuid_count w →
  inv w → inv w'.
Proof.
  intros Hk Hp Hn Hc [Hheap Hids]. unfold inv, heap_ok, ids_ok.
  rewrite Hk, Hp, Hn, Hc. done.
Qed.

Lemma keeps_ret {A} (a : A) : keeps (ret a).
Proof. by intros w Hw. Qed.

Lemma keeps_throw {A} (e : error) : keeps (@throw A e).
Proof. by intros w Hw. Qed.

Lemma keeps_gets {A} (f : world → A) : keeps (gets f).
Proof. by intros w Hw. Qed.

Lemma keeps_lift {A} (r : result A) : keeps (lift r).
Proof. by intros w Hw. Qed.

Lemma keeps_bind {A B} (m : M A) (k : A → M B) :
  keeps m → (∀ a, keeps (k a)) → keeps (bind m k).
Proof.
  intros Hm Hk w Hw. unfold bind. specialize (Hm w Hw).
  destruct (m w) as [[a|e] w1]; cbn in *; [by apply Hk|done].
Qed.

Lemma keeps_attempt {A} (m : M A) : keeps m → keeps (attempt m).
Proof.
  intros Hm w Hw. unfold attempt. specialize (Hm w Hw). by destruct (m w).
Qed.

Lemma keeps_modify (f : world → world) : (∀ w, inv w → inv (f w)) → keeps (modify f).
Proof. intros Hf w Hw. by apply Hf. Qed.

Lemma keeps_set_jobs f : keeps (modify (set_jobs f)).
Proof. apply keeps_modify. intros w. by apply inv_frame. Qed.
Lemma keeps_set_timers f : keeps (modify (set_timers f)).
Proof. apply keeps_modify. intros w. by apply inv_frame. Qed.
Lemma keeps_set_listeners f : keeps (modify (set_listeners f)).
Proof. apply keeps_modify. intros w. by apply inv_frame. Qed.
Lemma keeps_set_calls f : keeps (modify (set_calls f)).
Proof. apply keeps_modify. intros w. by apply inv_frame. Qed.
Lemma keeps_set_logs f : keeps (modify (set_logs f)).
Proof. apply keeps_modify. intros w. by apply inv_frame. Qed.
Lemma keeps_set_files f : keeps (modify (set_files f)).
Proof. apply keeps_modify. intros w. by apply inv_frame. Qed.
Lemma keeps_set_urls f : keeps (modify (set_urls f)).
Proof. apply keeps_modify. intros w. by apply inv_frame. Qed.

Lemma keeps_alter (f : pstate → pstate) (p : nat) :
  keeps (modify (set_promises (alter f p))).
Proof.
  apply keeps_modify. intros w [Hheap Hids]. split; [|done].
  intros r st Hr. cbn in *. apply lookup_alter_Some in Hr as [(-> & st' & Hst & _)|[_ Hr]].
  - exact (Hheap _ _ Hst).
  - exact (Hheap _ _ Hr).
Qed.

Lemma keeps_set_upstream f : keeps (modify (set_upstream f)).
Proof. apply keeps_modify. intros w. by apply inv_frame. Qed.

(** Cancelling makes no promise: it changes the state of promises that are
    there. *)
Lemma cancel_down_dom (fuel : nat) (p : nat) (ps : gmap nat pstate) (r : nat) :
  is_Some (cancel_down fuel p ps !! r) → is_Some (ps !! r).
Proof.
  revert p ps. induction fuel as [|fuel IH]; intros p ps; cbn [cancel_down].
  - destruct (ps !! p) as [[reactions|o|]|] eqn:Hp; try done.
    intros [st [[<- _]|[_ Hr]]%lookup_insert_Some]; by eexists.
  - destruct (ps !! p) as [[reactions|o|]|] eqn:Hp; try done.
    assert (Hstart : is_Some (<[p := Cancelled]> ps !! r) → is_Some (ps !! r)).
    { intros [st [[<- _]|[_ Hr]]%lookup_insert_Some]; by eexists. }
    revert Hstart. generalize (<[p := Cancelled]> ps). clear Hp.
    induction reactions as [|reaction rest IHrest]; intros ps' Hstart; cbn [foldl]; [done|].
    apply IHrest. intros Hr. apply Hstart. by eapply IH.
Qed.

Lemma cancel_up_dom (fuel : nat) (up : gmap nat source) (budget p : nat)
    (from : option nat) (ps : gmap nat pstate) (r : nat) :
  is_Some (cancel_up fuel up budget p from ps !! r) → is_Some (ps !! r).
Proof.
  revert p from ps. induction fuel as [|fuel IH]; intros p from ps;
    cbn [cancel_up];
    destruct (ps !! p) as [[reactions|o|]|] eqn:Hp; try done.
  all: assert (Hbranch : ∀ c,
         is_Some (<[p := Pending (without_branch c reactions)]> ps !! r) →
         is_Some (ps !! r))
    by (intros c [st [[<- _]|[_ Hr]]%lookup_insert_Some]; by eexists).
  all: destruct from as [c|];
    try destruct (other_branches c reactions) as [|other others];
    try destruct (up !! c) as [[parent'|followee']|];
    destruct (up !! p) as [[parent|followee]|];
    try destruct (is_pending (ps !! parent));
    try done;
    try (by apply cancel_down_dom);
    try (by intros Hr%cancel_down_dom; eapply Hbranch);
    try (by apply Hbranch);
    try (by apply IH);
    try (by intros Hr%IH; eapply Hbranch).
Qed.

Lemma keeps_cancel_behind (q : nat) : keeps (cancel_behind q).
Proof.
  apply keeps_modify. intros w [Hheap Hids].
  destruct (upstream w !! q) as [[p|followee]|]; [|done|done].
  split; [|done]. intros r st Hr. cbn in Hr |- *.
  destruct (cancel_up_dom _ _ _ _ _ _ _ (mk_is_Some _ _ Hr)) as [st' Hst'].
  exact (Hheap _ _ Hst').
Qed.

Lemma keeps_delete (id : string) : keeps (modify (set_kernelClients (delete id))).
Proof.
  apply keeps_modify. intros w [Hheap Hids]. split; [done|].
  intros id' [p Hp]. cbn in *. apply lookup_delete_Some in Hp as [_ Hp].
  apply Hids. by eexists.
Qed.

Lemma keeps_new_promise (st : pstate) : keeps (new_promise st).
Proof.
  intros w [Hheap Hids]. split; [|done].
  intros r st' Hr. cbn in *. apply lookup_insert_Some in Hr as [[<- _]|[_ Hr]]; [lia|].
  pose proof (Hheap _ _ Hr) as Hlt. cbn in Hlt. lia.
Qed.

Create HintDb keeps discriminated.
Hint Resolve keeps_ret keeps_throw keeps_gets keeps_lift keeps_set_jobs keeps_set_timers
  keeps_set_listeners keeps_set_calls keeps_set_logs keeps_set_files keeps_set_urls
  keeps_set_upstream keeps_cancel_behind keeps_alter keeps_delete keeps_new_promise : keeps.

Ltac keeps_auto :=
  repeat first
    [ solve [auto with keeps]
    | apply keeps_bind; [|intros ?]
    | apply keeps_attempt
    | match goal with
      | |- keeps (match ?x with _ => _ end) => destruct x
      | |- keeps (if ?b then _ else _) => destruct b
      | |- keeps (let _ := _ in _) => cbv zeta
      end ].

Lemma keeps_log level args : keeps (log level args).
Proof. unfold log. keeps_auto. Qed.
Lemma keeps_record_call c : keeps (record_call c).
Proof. unfold record_call. keeps_auto. Qed.
Lemma keeps_settle p o : keeps (settle p o).
Proof. unfold settle. keeps_auto. Qed.
Lemma keeps_subscribe p r : keeps (subscribe p r).
Proof. unfold subscribe. keeps_auto. Qed.
Hint Resolve keeps_log keeps_record_call keeps_settle keeps_subscribe : keeps.

Lemma keeps_then p h : keeps (then_ p h).
Proof. unfold then_. keeps_auto. Qed.
Lemma keeps_catch p h : keeps (catch_ p h).
Proof. unfold catch_. keeps_auto. Qed.
Lemma keeps_timeout p ms message : keeps (timeout p ms message).
Proof. unfold timeout. keeps_auto. Qed.
Lemma keeps_resolve q v : keeps (resolve q v).
Proof. unfold resolve. keeps_auto. Qed.
Lemma keeps_request mk : keeps (request mk).
Proof. unfold request. keeps_auto. Qed.
Lemma keeps_client_on c name l : keeps (client_on c name l).
Proof. unfold client_on. keeps_auto. Qed.
Hint Resolve keeps_then keeps_catch keeps_timeout keeps_resolve keeps_request
  keeps_client_on : keeps.

Lemma keeps_subscribeWindowToKernelEvents windowName client :
  keeps (subscribeWindowToKernelEvents windowName client).
Proof.
  unfold subscribeWindowToKernelEvents, subscribeBrowserWindowToEvent. keeps_auto.
Qed.

Lemma keeps_saveToTemporaryFile extension data : keeps (saveToTemporaryFile extension data).
Proof. unfold saveToTemporaryFile. keeps_auto. Qed.
Lemma keeps_addRouteToFile filepath route : keeps (addRouteToFile filepath route).
Proof. unfold addRouteToFile. keeps_auto. Qed.
Hint Resolve keeps_subscribeWindowToKernelEvents keeps_saveToTemporaryFile
  keeps_addRouteToFile : keeps.

Lemma keeps_replace extension data property :
  keeps (replacePropertyWithTemporaryFile extension data property).
Proof. unfold replacePropertyWithTemporaryFile. keeps_auto. Qed.
Hint Resolve keeps_replace : keeps.

Lemma keeps_displayDataTransform event : keeps (displayDataTransform event).
Proof. unfold displayDataTransform. keeps_auto. Qed.
Hint Resolve keeps_displayDataTransform : keeps.

Lemma keeps_transform_all args : keeps (transform_all args).
Proof. induction args as [|arg rest IH]; cbn [transform_all]; keeps_auto. Qed.
Hint Resolve keeps_transform_all : keeps.

Lemma keeps_run_listener l client args : keeps (run_listener l client args).
Proof. unfold run_listener. keeps_auto. Qed.

Lemma keeps_run_handler h o : keeps (run_handler h o).
Proof. unfold run_handler. keeps_auto. Qed.
Hint Resolve keeps_run_listener keeps_run_handler : keeps.

Lemma keeps_run_job j : keeps (run_job j).
Proof. unfold run_job. keeps_auto. Qed.

Lemma keeps_emit_to ls client eventName args : keeps (emit_to ls client eventName args).
Proof.
  induction ls as [|[[c name] l] rest IH]; cbn [emit_to]; keeps_auto.
Qed.
Hint Resolve keeps_run_job keeps_emit_to : keeps.

Lemma keeps_emit client eventName args : keeps (emit client eventName args).
Proof. unfold emit. keeps_auto. Qed.

Lemma keeps_fire t : keeps (fire t).
Proof. unfold fire. keeps_auto. Qed.

Lemma keeps_forward options method args : keeps (forward options method args).
Proof. unfold forward, getKernelInstanceById. keeps_auto. Qed.
Hint Resolve keeps_emit keeps_fire keeps_forward : keeps.

Lemma keeps_onCreateKernelInstance options : keeps (onCreateKernelInstance options).
Proof.
  intros w [Hheap Hids]. unfold onCreateKernelInstance.
  destruct (assertValidObject options kernelOptions) as [[]|e] eqn:Hvalid;
    [|rewrite bind_lift_throw; by split].
  destruct w as [kc pr n js ts t ls cs lg cc fs us up]. js_eval. split.
  - intros r st Hr. cbn in Hr |- *.
    assert (Hold : ∀ i x, pr !! i = Some x → (i < S (S (S (S (S n)))))%nat).
    { intros i x Hi. pose proof (Hheap _ _ Hi) as Hlt. cbn in Hlt. lia. }
    repeat first
      [ apply lookup_insert_Some in Hr as [[<- _]|[_ Hr]]; [lia|]
      | apply lookup_alter_Some in Hr as [(<- & ? & Hr & _)|[_ Hr]] ].
    all: try (by eapply Hold); lia.
  - intros id [p Hp]. cbn in Hp |- *.
    apply lookup_insert_Some in Hp as [[<- _]|[_ Hp]].
    + exists cc. split; [lia|done].
    + destruct (Hids id) as (k & Hk & ->); [by eexists|]. cbn in Hk.
      exists k. split; [lia|done].
Qed.

Lemma keeps_handle r : keeps (handle r).
Proof.
  destruct r; cbn [handle];
    [ | apply keeps_onCreateKernelInstance | .. ];
    unfold onCheckKernel, onKillKernelInstance, onExecuteWithKernel, onGetAutoComplete,
      onIsComplete, onGetInspection, onGetStatus, onExecuteHidden, onEval, onInterrupt,
      onSavePlot;
    keeps_auto.
Qed.

Lemma drain_keeps (fuel : nat) (w w' : world) :
  inv w → drain fuel w = Some w' → inv w' ∧ jobs w' = [].
Proof.
  revert w. induction fuel as [|fuel IH]; intros w Hw; cbn [drain].
  - destruct (jobs w) eqn:Hj; [|done]. intros [= <-]. done.
  - destruct (jobs w) as [|j rest] eqn:Hj; [intros [= <-]; done|].
    apply IH. apply keeps_run_job. revert Hw. by apply inv_frame.
Qed.

Lemma inv_empty_world : inv empty_world.
Proof.
  split.
  - intros r st Hr. cbn in Hr. by rewrite lookup_empty in Hr.
  - intros id [p Hp]. cbn in Hp. by rewrite lookup_empty in Hp.
Qed.

(** In every state that the event loop reaches, promise references are below
    the next one to be handed out, the ids in the table are results of [cuid]
    already handed out, and the queue of reactions is empty. *)
Theorem reachable_invariant (w : world) :
  reachable w → heap_ok w ∧ ids_ok w ∧ jobs w = [].
Proof.
  induction 1 as [|fuel e w w' Hreach [Hheap [Hids Hq]] Hstep].
  - destruct inv_empty_world. done.
  - assert (Hw : inv w) by done.
    assert (Hgoal : inv w' ∧ jobs w' = []); [|by destruct Hgoal as [[? ?] ?]].
    destruct e as [r|p o|client eventName args|ms|t]; cbn [step] in Hstep.
    + eapply drain_keeps; [|exact Hstep]. by apply keeps_handle.
    + destruct (answers_call p w); [|done].
      eapply drain_keeps; [|exact Hstep]. by apply keeps_settle.
    + eapply drain_keeps; [|exact Hstep]. by apply keeps_emit.
    + injection Hstep as <-. split; [|done]. revert Hw. by apply inv_frame.
    + destruct (is_due t w); [|done].
      eapply drain_keeps; [|exact Hstep]. by apply keeps_fire.
Qed.

End Invariant.

(** ** Killing a session *)

Section Kill.
Context `{Platform}.

(** C2 (the code does not do what the claim says). For a session in the
    table whose client is ready, [onKillKernelInstance] logs that the
    reference is deleted and asks the client to kill its process, but it does
    not remove the entry: the table is the same after the request, and the
    same again after the kill is answered, whether it resolves or rejects.
    Only a [close] event of the client removes the entry. *)
Theorem kill_leaves_the_entry (w : world) (id : string) (p c fuel : nat) :
  reachable w →
  kernelClients w !! id = Some p →
  promises w !! p = Some (Settled (Fulfilled (VClient c))) →
  (2 ≤ fuel)%nat →
  let killed := S (next_ref w) in
  let r := S (S (next_ref w)) in
  ∃ w1,
    step fuel (Calls (KillKernelInstance id)) w = Some w1
    ∧ calls w1 = calls w ++ [ClientRequest c "kill" [] r]
    ∧ logs w1 = logs w ++ [("info", ["deleted python kernel process reference"; id])]
    ∧ kernelClients w1 = kernelClients w
    ∧ ∀ o, ∃ w2,
        step fuel (Settles r o) w1 = Some w2
        ∧ kernelClients w2 = kernelClients w
        ∧ kernelClients w2 !! id = Some p
        ∧ promises w2 !! killed
          = Some (Settled match o with
                          | Fulfilled _ => Fulfilled VUndefined
                          | Rejected e => Rejected e
                          end).
Proof.
  intros Hreach Hid Hp Hfuel killed r.
  destruct (reachable_invariant w Hreach) as (Hok & _ & Hq).
  pose proof (heap_ok_lt _ _ _ Hok Hp) as Hlt.
  pose proof (heap_ok_fresh w (next_ref w) Hok ltac:(lia)) as Hn0.
  pose proof (heap_ok_fresh w (S (next_ref w)) Hok ltac:(lia)) as Hn1.
  pose proof (heap_ok_fresh w (S (S (next_ref w))) Hok ltac:(lia)) as Hn2.
  subst killed r.
  destruct w as [kc pr n js ts t ls cs lg cc fs us up].
  cbn in Hid, Hp, Hlt, Hn0, Hn1, Hn2, Hq. subst js.
  destruct fuel as [|[|fuel]]; [lia|lia|].
  unfold step at 1, handle, onKillKernelInstance. js_eval.
  eexists. split; [reflexivity|]. cbn [calls logs kernelClients next_ref].
  do 3 (split; [reflexivity|]).
  intros o. unfold step.
  rewrite answers_call_last by reflexivity.
  destruct o as [v|e]; js_eval.
  - eexists. split; [reflexivity|]. cbn [kernelClients promises].
    do 2 (split; [done|]). by heap_lookups.
  - eexists. split; [reflexivity|]. cbn [kernelClients promises].
    do 2 (split; [done|]). by heap_lookups.
Qed.

End Kill.

(** ** Creating a session *)

Lemma omit_allowed (options : object) :
  forallb (λ key, String.eqb key "cmd" || String.eqb key "cwd") (object_keys options) = true →
  lodash_omit options ["cmd"; "cwd"] = [].
Proof.
  unfold lodash_omit, object_keys.
  induction options as [|[k v] rest IH]; [done|].
  cbn [map forallb fst]. intros [Hk Hrest]%andb_prop.
  rewrite filter_cons. cbn [fst existsb]. rewrite orb_false_r, Hk. cbn. by apply IH.
Qed.

Lemma valid_options_pass (options : object) :
  valid_options options = true → assertValidObject options kernelOptions = Return tt.
Proof.
  unfold valid_options. intros [[Hkeys Hcmd]%andb_prop Hcwd]%andb_prop.
  unfold assertValidObject.
  change (object_keys kernelOptions) with ["cmd"; "cwd"].
  rewrite omit_allowed by done.
  change (lodash_each kernelOptions) with kernelOptions.
  change (0 <? lodash_size [])%Z with false.
  cbn [assertValidProperties kernelOptions].
  unfold assertValidProperty, get_prop.
  destruct (get_own options "cmd") as [[| | | |cmd| | | |]|]; try discriminate.
  destruct (get_own options "cwd") as [[| | | |cwd| | | |]|]; try discriminate; done.
Qed.

Section Create.
Context `{Platform}.

Lemma next_id_is_fresh (w : world) :
  ids_ok w → kernelClients w !! cuid (cuid_count w) = None.
Proof.
  intros Hids. destruct (kernelClients w !! cuid (cuid_count w)) as [p|] eqn:Hp; [|done].
  destruct (Hids (cuid (cuid_count w))) as (n & Hn & Heq); [by eexists|].
  apply cuid_inj in Heq. lia.
Qed.

(** C9. For valid options, [onCreateKernelInstance] returns a promise that
    is already fulfilled with an id which the table did not hold. When it
    returns, the table maps the id to the readiness promise, that promise is
    pending, the request to create the client is recorded but not answered,
    and no listener has been added: no client exists yet. A kill request made
    in that state finds the entry and does not throw; it records no call to
    any client and queues nothing, its reaction is held by the pending
    readiness promise, and the promise it returns is pending. *)
Theorem created_session_is_registered_first (options : object) (w : world) :
  valid_options options = true → reachable w →
  let id := cuid (cuid_count w) in
  let ready := next_ref w in
  let created := S (next_ref w) in
  ∃ outer w1,
    onCreateKernelInstance options w = (Return (VPromise outer), w1)
    ∧ promises w1 !! outer = Some (Settled (Fulfilled (VString id)))
    ∧ kernelClients w !! id = None
    ∧ kernelClients w1 = <[id := ready]> (kernelClients w)
    ∧ promises w1 !! ready = Some (Pending [])
    ∧ calls w1 = calls w ++ [CreateClient options created]
    ∧ (∃ r, promises w1 !! created = Some (Pending [r]))
    ∧ listeners w1 = listeners w
    ∧ jobs w1 = jobs w
    ∧ ∃ killing killed w2,
        onKillKernelInstance id w1 = (Return (VPromise killed), w2)
        ∧ promises w2 !! ready
          = Some (Pending [Reaction (Some (HClientCall "kill" [])) None killing])
        ∧ promises w2 !! killed = Some (Pending [])
        ∧ kernelClients w2 = kernelClients w1
        ∧ calls w2 = calls w1
        ∧ jobs w2 = jobs w1.
Proof.
  intros Hvalid Hreach id ready created.
  destruct (reachable_invariant w Hreach) as (Hok & Hids & _).
  pose proof (valid_options_pass _ Hvalid) as Hpass.
  pose proof (next_id_is_fresh w Hids) as Hfresh.
  pose proof (heap_ok_fresh w (next_ref w) Hok ltac:(lia)) as Hn0.
  pose proof (heap_ok_fresh w (S (next_ref w)) Hok ltac:(lia)) as Hn1.
  pose proof (heap_ok_fresh w (S (S (next_ref w))) Hok ltac:(lia)) as Hn2.
  pose proof (heap_ok_fresh w (S (S (S (next_ref w)))) Hok ltac:(lia)) as Hn3.
  subst id ready created.
  destruct w as [kc pr n js ts t ls cs lg cc fs us up].
  cbn in Hfresh, Hn0, Hn1, Hn2, Hn3.
  cbn [next_ref cuid_count kernelClients calls listeners jobs].
  unfold onCreateKernelInstance. rewrite Hpass. js_eval.
  eexists _, _. split; [reflexivity|].
  cbn [kernelClients promises calls listeners jobs].
  split; [by heap_lookups|].
  split; [done|]. split; [done|].
  split; [by heap_lookups|].
  split; [done|].
  split; [eexists; by heap_lookups|].
  split; [done|]. split; [by rewrite !app_nil_r|].
  unfold onKillKernelInstance. js_eval.
  eexists _, _, _. split; [reflexivity|].
  cbn [kernelClients promises calls jobs].
  split; [by heap_lookups|].
  split; [by heap_lookups|].
  by rewrite !app_nil_r.
Qed.

End Create.

(** ** Construction that fails *)

Section Construction.
Context `{Platform}.

Lemma create_starts_construction (options : object) (w : world) :
  valid_options options = true → reachable w →
  under_construction (onCreateKernelInstance options w).2
    (cuid (cuid_count w)) (next_ref w) (S (next_ref w)).
Proof.
  intros Hvalid Hreach.
  destruct (reachable_invariant w Hreach) as (Hok & _ & Hq).
  pose proof (valid_options_pass _ Hvalid) as Hpass.
  pose proof (heap_ok_fresh w (next_ref w) Hok ltac:(lia)) as Hn0.
  destruct w as [kc pr n js ts t ls cs lg cc fs us up]. cbn in Hn0, Hq. subst js.
  cbn [next_ref cuid_count].
  unfold onCreateKernelInstance. rewrite Hpass. js_eval.
  exists (S (S n)), (S (S (S n))), [].
  cbn [kernelClients promises jobs].
  split; [by rewrite lookup_insert_eq|].
  do 4 (split; [by heap_lookups|]).
  split; [lia|].
  split; [|done].
  unfold answers_call. cbn [calls]. rewrite existsb_app. cbn.
  by rewrite Nat.eqb_refl, orb_true_r.
Qed.

(** C3, as the code has it. When the creation of the client rejects, the
    [catch] callback logs the failure and removes the entry from the table,
    and that is all: the readiness promise is not settled, so it stays pending
    together with the reactions of those who wait on it, nothing is queued,
    no call is made again, and a request that comes after finds no session. *)
Theorem failed_construction_removes_the_entry (w : world) (id : string)
    (ready created fuel : nat) (e : error) :
  under_construction w id ready created → (2 ≤ fuel)%nat →
  ∃ w',
    step fuel (Settles created (Rejected e)) w = Some w'
    ∧ kernelClients w' = delete id (kernelClients w)
    ∧ kernelClients w' !! id = None
    ∧ logs w' = logs w ++ [("error", ["failed to create instance"; id])]
    ∧ promises w' !! ready = promises w !! ready
    ∧ (∃ waiting, promises w' !! ready = Some (Pending waiting))
    ∧ jobs w' = []
    ∧ calls w' = calls w.
Proof.
  intros (wired & caught & waiting & Hid & Hready & Hcreated & Hwired & Hcaught
          & Hne & Hanswers & Hq) Hfuel.
  destruct fuel as [|[|fuel]]; [lia|lia|].
  unfold step. rewrite Hanswers.
  destruct w as [kc pr n js ts t ls cs lg cc fs us up].
  cbn in Hid, Hready, Hcreated, Hwired, Hcaught, Hq. subst js.
  cbn [kernelClients promises logs calls jobs].
  js_eval.
  eexists. split; [reflexivity|]. cbn [kernelClients promises logs calls jobs].
  split; [done|]. split; [by rewrite lookup_delete_eq|]. split; [done|].
  split; [by heap_lookups|].
  split; [exists waiting; heap_lookups; by use_lookups|].
  done.
Qed.

End Construction.

(** ** A kill request that waits *)

Section KillWaits.
Context `{Platform}.

(** A kill request made right after the creation waits: no call goes to any
    client when the request is made, nor when the client is created; the kill
    is passed to the client when it emits [ready], and the entry is still in
    the table then. *)
Lemma kill_waits_for_readiness (options : object) (w : world) (c fuel : nat) :
  valid_options options = true → reachable w →
  Forall (λ x : nat * string * listener, x.1.1 ≠ c) (listeners w) →
  (3 ≤ fuel)%nat →
  let id := cuid (cuid_count w) in
  let ready := next_ref w in
  let created := S (next_ref w) in
  ∃ w1 w2 w3 w4 asked,
    step fuel (Calls (CreateKernelInstance options)) w = Some w1
    ∧ step fuel (Calls (KillKernelInstance id)) w1 = Some w2
    ∧ calls w2 = calls w1
    ∧ step fuel (Settles created (Fulfilled (VClient c))) w2 = Some w3
    ∧ calls w3 = calls w1
    ∧ step fuel (Emits c "ready" []) w3 = Some w4
    ∧ calls w4 = calls w1 ++ [ClientRequest c "kill" [] asked]
    ∧ kernelClients w4 !! id = Some ready.
Proof.
  intros Hvalid Hreach Hnew Hfuel id ready created.
  destruct (reachable_invariant w Hreach) as (Hok & Hids & Hq).
  pose proof (valid_options_pass _ Hvalid) as Hpass.
  pose proof (heap_ok_fresh w (next_ref w) Hok ltac:(lia)) as Hn0.
  subst id ready created.
  destruct w as [kc pr n js ts t ls cs lg cc fs us up].
  cbn in Hn0, Hq, Hnew. subst js.
  destruct fuel as [|[|[|fuel]]]; [lia|lia|lia|].
  cbn [next_ref cuid_count].
  unfold step at 1, handle, onCreateKernelInstance. rewrite Hpass. js_eval.
  eexists. eexists. eexists. eexists. eexists.
  split; [reflexivity|].
  unfold step at 1, handle, onKillKernelInstance. js_eval.
  split; [reflexivity|]. split; [reflexivity|].
  unfold step at 1. rewrite answers_call_last by reflexivity. js_eval.
  split; [reflexivity|]. split; [reflexivity|].
  unfold step at 1. js_eval. rewrite <- !app_assoc. cbn [app].
  rewrite emit_to_skip by done. js_emit.
  split; [reflexivity|]. cbn [calls kernelClients].
  split; [by rewrite <- app_assoc|]. by rewrite lookup_insert_eq.
Qed.
End KillWaits.

(** ** Autocompletion that is not answered *)

Lemma autocomplete_message :
  "AutoComplete failed to finish in " +:+ to_string (VNumber autoCompleteTimeout)
  +:+ " seconds"
  = "AutoComplete failed to finish in 5 seconds".
Proof. reflexivity. Qed.

Lemma autocomplete_delay : Z.to_N (autoCompleteTimeout * second) = 5000%N.
Proof. reflexivity. Qed.

Lemma timer_eqb_refl (t : timer) : timer_eqb t t = true.
Proof.
  unfold timer_eqb. by rewrite N.eqb_refl, Nat.eqb_refl, String.eqb_refl.
Qed.

Section AutoComplete.
Context `{Platform}.

(** C5, as the code has it. For a session in the table whose client is ready,
    an autocomplete
    request is passed to the client once and a timer is set 5000 ms ahead.
    While the client does not answer, the returned promise is pending and the
    timer cannot fire before 5000 ms have passed; once they have, the timer
    fires and rejects the promise with the timeout error. Nothing is asked of
    the client a second time, and the table and the readiness promise are as
    before: the session is still there with its client. What the timeout
    cancels is the request that was not answered. *)
Theorem autocomplete_times_out (w : world) (options : object) (text cursorPos : value)
    (id : string) (ready c fuel : nat) :
  to_string (get_prop options "instanceId") = id →
  kernelClients w !! id = Some ready →
  promises w !! ready = Some (Settled (Fulfilled (VClient c))) →
  reachable w → (1 ≤ fuel)%nat →
  let timed := S (next_ref w) in
  let asked := S (S (next_ref w)) in
  let late := TimeoutError "AutoComplete failed to finish in 5 seconds" in
  let tm := Timer (now w + 5000) timed "AutoComplete failed to finish in 5 seconds" in
  ∃ w1,
    (onGetAutoComplete options text cursorPos w).1 = Return (VPromise timed)
    ∧ step fuel (Calls (GetAutoComplete options text cursorPos)) w = Some w1
    ∧ calls w1 = calls w ++ [ClientRequest c "getAutoComplete" [text; cursorPos] asked]
    ∧ timers w1 = timers w ++ [tm]
    ∧ promises w1 !! timed = Some (Pending [])
    ∧ kernelClients w1 = kernelClients w
    ∧ ∀ ms, ∃ w2,
        step fuel (Passes ms) w1 = Some w2
        ∧ promises w2 !! timed = Some (Pending [])
        ∧ ((ms < 5000)%N → step fuel (Fires tm) w2 = None)
        ∧ ((5000 ≤ ms)%N → ∃ w3,
             step fuel (Fires tm) w2 = Some w3
             ∧ promises w3 !! timed = Some (Settled (Rejected late))
             ∧ calls w3 = calls w1
             ∧ kernelClients w3 = kernelClients w
             ∧ promises w3 !! ready = Some (Settled (Fulfilled (VClient c)))).
Proof.
  intros Hoptions Hid Hready Hreach Hfuel timed asked late tm.
  destruct (reachable_invariant w Hreach) as (Hok & _ & Hq).
  pose proof (heap_ok_lt _ _ _ Hok Hready) as Hlt.
  pose proof (heap_ok_fresh w (next_ref w) Hok ltac:(lia)) as Hn0.
  pose proof (heap_ok_fresh w (S (next_ref w)) Hok ltac:(lia)) as Hn1.
  pose proof (heap_ok_fresh w (S (S (next_ref w))) Hok ltac:(lia)) as Hn2.
  subst timed asked late tm.
  destruct w as [kc pr n js ts t ls cs lg cc fs us up].
  cbn in Hid, Hready, Hlt, Hn0, Hn1, Hn2, Hq. subst js.
  destruct fuel as [|fuel]; [lia|].
  cbn [next_ref now calls timers kernelClients].
  unfold step at 1, handle, onGetAutoComplete.
  rewrite autocomplete_message. js_unfold. rewrite autocomplete_delay, Hoptions.
  js_eval.
  eexists. split; [reflexivity|]. split; [reflexivity|].
  cbn [calls timers promises kernelClients].
  split; [done|]. split; [done|]. split; [by heap_lookups|]. split; [done|].
  intros ms. eexists. split; [reflexivity|].
  world_norm. split; [by heap_lookups|]. split.
  - intros Hearly. unfold step, is_due. cbn [timers now deadline].
    replace (t + 5000 <=? t + ms)%N with false by (symmetry; apply N.leb_gt; lia).
    by rewrite andb_false_r.
  - intros Hlate. unfold step, is_due. cbn [timers now deadline].
    rewrite existsb_app. cbn [existsb]. rewrite timer_eqb_refl.
    replace (t + 5000 <=? t + ms)%N with true by (symmetry; apply N.leb_le; lia).
    rewrite orb_true_r. cbn [orb andb].
    js_eval. cbn [timed timeout_message]. js_eval. cancel_eval.
    eexists. split; [reflexivity|]. cbn [calls promises kernelClients].
    split; [by heap_lookups|]. split; [done|]. split; [done|].
    heap_lookups. by use_lookups.
Qed.

End AutoComplete.

(** ** Runs on a concrete session *)

Section Runs.
Context `{Platform}.

Lemma run_reachable (fuel : nat) (es : list event) (w w' : world) :
  reachable w → run fuel es w = Some w' → reachable w'.
Proof.
  revert w. induction es as [|e rest IH]; intros w Hw; cbn [run].
  - by intros [= <-].
  - destruct (step fuel e w) as [w1|] eqn:Hstep; [|done].
    apply IH. by eapply reachable_step.
Qed.

End Runs.

Lemma ready_world_reachable : reachable ready_world.
Proof.
  apply (run_reachable 8 ready_events empty_world); [apply reachable_start|].
  vm_compute. reflexivity.
Qed.

(** A run of C2: the ready session [c0] is killed and the kill is answered. *)
Lemma kill_leaves_the_entry_witness :
  ∃ w1,
    step 4 (Calls (KillKernelInstance "c0")) ready_world = Some w1
    ∧ calls w1 = calls ready_world ++ [ClientRequest 0 "kill" [] 7]
    ∧ logs w1
      = logs ready_world ++ [("info", ["deleted python kernel process reference"; "c0"])]
    ∧ kernelClients w1 = kernelClients ready_world
    ∧ ∀ o, ∃ w2,
        step 4 (Settles 7 o) w1 = Some w2
        ∧ kernelClients w2 = kernelClients ready_world
        ∧ kernelClients w2 !! "c0" = Some 0
        ∧ promises w2 !! 6
          = Some (Settled match o with
                          | Fulfilled _ => Fulfilled VUndefined
                          | Rejected e => Rejected e
                          end).
Proof.
  apply (kill_leaves_the_entry ready_world "c0" 0 0 4).
  - apply ready_world_reachable.
  - vm_compute. reflexivity.
  - vm_compute. reflexivity.
  - lia.
Defined.

(** A run of C9 in a fresh process. *)
Lemma created_session_is_registered_first_witness :
  ∃ outer w1,
    onCreateKernelInstance python3_options empty_world = (Return (VPromise outer), w1)
    ∧ promises w1 !! outer = Some (Settled (Fulfilled (VString "c0")))
    ∧ kernelClients empty_world !! "c0" = None
    ∧ kernelClients w1 = <["c0" := 0]> (kernelClients empty_world)
    ∧ promises w1 !! 0 = Some (Pending [])
    ∧ calls w1 = calls empty_world ++ [CreateClient python3_options 1]
    ∧ (∃ r, promises w1 !! 1 = Some (Pending [r]))
    ∧ listeners w1 = listeners empty_world
    ∧ jobs w1 = jobs empty_world
    ∧ ∃ killing killed w2,
        onKillKernelInstance "c0" w1 = (Return (VPromise killed), w2)
        ∧ promises w2 !! 0
          = Some (Pending [Reaction (Some (HClientCall "kill" [])) None killing])
        ∧ promises w2 !! killed = Some (Pending [])
        ∧ kernelClients w2 = kernelClients w1
        ∧ calls w2 = calls w1
        ∧ jobs w2 = jobs w1.
Proof.
  change "c0" with (cuid (cuid_count empty_world)).
  apply (created_session_is_registered_first python3_options empty_world).
  - reflexivity.
  - apply reachable_start.
Defined.

(** A run of the amended C3: the creation of [c0] rejects. *)
Lemma failed_construction_removes_the_entry_witness :
  ∃ w',
    step 4 (Settles 1 (Rejected (Error "spawn python3 ENOENT"))) creating_world = Some w'
    ∧ kernelClients w' = delete "c0" (kernelClients creating_world)
    ∧ kernelClients w' !! "c0" = None
    ∧ logs w' = logs creating_world ++ [("error", ["failed to create instance"; "c0"])]
    ∧ promises w' !! 0 = promises creating_world !! 0
    ∧ (∃ waiting, promises w' !! 0 = Some (Pending waiting))
    ∧ jobs w' = []
    ∧ calls w' = calls creating_world.
Proof.
  apply (failed_construction_removes_the_entry creating_world "c0" 0 1 4).
  - exists 2, 3, [].
    repeat split; try (vm_compute; reflexivity); discriminate.
  - lia.
Defined.

(** C3 as stated does not hold: a kill request waits on the readiness of
    [c0], then the creation rejects. The entry is removed, but the readiness
    promise still holds the reaction of the kill request and the promise
    returned to that request is pending: with no job queued and no timer set,
    nothing remains that would settle either. *)
Lemma awaiting_caller_is_left_pending :
  ∃ w,
    run 4 [Calls (CreateKernelInstance python3_options);
           Calls (KillKernelInstance "c0");
           Settles 1 (Rejected (Error "spawn python3 ENOENT"))] empty_world = Some w
    ∧ kernelClients w !! "c0" = None
    ∧ promises w !! 0
      = Some (Pending [Reaction (Some (HClientCall "kill" [])) None 5])
    ∧ promises w !! 6 = Some (Pending [])
    ∧ jobs w = []
    ∧ timers w = [].
Proof.
  eexists. split; [vm_compute; reflexivity|].
  repeat split; vm_compute; reflexivity.
Qed.

(** A run of C5: autocompletion on the ready session [c0]. *)
Lemma autocomplete_times_out_witness :
  let options := [("instanceId", VString "c0")] in
  let late := TimeoutError "AutoComplete failed to finish in 5 seconds" in
  let tm := Timer 5000 6 "AutoComplete failed to finish in 5 seconds" in
  ∃ w1,
    (onGetAutoComplete options (VString "im") (VNumber 2) ready_world).1
    = Return (VPromise 6)
    ∧ step 4 (Calls (GetAutoComplete options (VString "im") (VNumber 2))) ready_world
      = Some w1
    ∧ calls w1
      = calls ready_world
        ++ [ClientRequest 0 "getAutoComplete" [VString "im"; VNumber 2] 7]
    ∧ timers w1 = timers ready_world ++ [tm]
    ∧ promises w1 !! 6 = Some (Pending [])
    ∧ kernelClients w1 = kernelClients ready_world
    ∧ ∀ ms, ∃ w2,
        step 4 (Passes ms) w1 = Some w2
        ∧ promises w2 !! 6 = Some (Pending [])
        ∧ ((ms < 5000)%N → step 4 (Fires tm) w2 = None)
        ∧ ((5000 ≤ ms)%N → ∃ w3,
             step 4 (Fires tm) w2 = Some w3
             ∧ promises w3 !! 6 = Some (Settled (Rejected late))
             ∧ calls w3 = calls w1
             ∧ kernelClients w3 = kernelClients ready_world
             ∧ promises w3 !! 0 = Some (Settled (Fulfilled (VClient 0)))).
Proof.
  intros options late tm.
  apply (autocomplete_times_out ready_world options (VString "im") (VNumber 2) "c0" 0 0 4).
  - reflexivity.
  - vm_compute. reflexivity.
  - vm_compute. reflexivity.
  - apply ready_world_reachable.
  - lia.
Defined.

(** C5 as stated does not hold for a session whose client is still being
    created. The autocomplete request waits on the readiness promise and is
    the only one to do so; when the timer fires, the promise returned to the
    request is rejected with the timeout error and the cancellation that
    [timeout] starts reaches the readiness promise. When the python client is
    created afterwards, the callback returns the cancelled readiness promise,
    which rejects the chain, and the [catch] callback removes the entry: the
    session is gone, and a request for it finds no kernel. *)
Lemma autocomplete_during_creation_removes_the_session :
  let options := [("instanceId", VString "c0")] in
  let tm := Timer 5000 6 "AutoComplete failed to finish in 5 seconds" in
  ∃ w1 w2 w3,
    run 4 [Calls (CreateKernelInstance python3_options);
           Calls (GetAutoComplete options (VString "im") (VNumber 2))] empty_world
    = Some w1
    ∧ kernelClients w1 !! "c0" = Some 0
    ∧ calls w1 = [CreateClient python3_options 1]
    ∧ run 4 [Passes 5000; Fires tm] w1 = Some w2
    ∧ promises w2 !! 6
      = Some (Settled (Rejected
                (TimeoutError "AutoComplete failed to finish in 5 seconds")))
    ∧ kernelClients w2 !! "c0" = Some 0
    ∧ promises w2 !! 0 = Some Cancelled
    ∧ step 4 (Settles 1 (Fulfilled (VClient 0))) w2 = Some w3
    ∧ kernelClients w3 !! "c0" = None
    ∧ last (logs w3) = Some ("error", ["failed to create instance"; "c0"])
    ∧ (onGetStatus options w3).1
      = Throw (Error "Kernel with this id does not exist: c0").
Proof.
  intros options tm. eexists _, _, _.
  split; [vm_compute; reflexivity|]. split; [vm_compute; reflexivity|].
  split; [vm_compute; reflexivity|]. split; [vm_compute; reflexivity|].
  split; [vm_compute; reflexivity|]. split; [vm_compute; reflexivity|].
  split; [vm_compute; reflexivity|]. split; [vm_compute; reflexivity|].
  split; [vm_compute; reflexivity|]. split; vm_compute; reflexivity.
Qed.

(** A run of C7 on a status message. *)
Lemma transform_leaves_other_events_alone_witness :
  displayDataTransform status_event empty_world = (Return status_event, empty_world).
Proof.
  apply (proj1 (transform_leaves_other_events_alone status_event empty_world)).
  left. reflexivity.
Defined.

(** * Further properties of the code *)

(** ** What the validator accepts *)

Lemma assertValidProperties_all (obj validOptions : object) :
  assertValidProperties obj validOptions = Return tt
  ↔ ∀ key definition, (key, definition) ∈ validOptions →
      assertValidProperty obj definition key = Return tt.
Proof.
  induction validOptions as [|[k d] rest IH]; cbn [assertValidProperties].
  - split; [|done]. intros _ key definition Hin. by apply elem_of_nil in Hin.
  - destruct (assertValidProperty obj d k) as [[]|e] eqn:Hkd.
    + rewrite IH. split.
      * intros Hrest key definition [[= -> ->]|Hin]%elem_of_cons; [done|by apply Hrest].
      * intros Hall key definition Hin. apply Hall. by right.
    + split; [done|]. intros Hall. rewrite Hall in Hkd by left. done.
Qed.

Lemma get_own_elem_of (obj : object) (key : string) (v : value) :
  get_own obj key = Some v → (key, v) ∈ obj.
Proof.
  induction obj as [|[k v0] rest IH]; cbn [get_own]; [done|].
  destruct (String.eqb k key) eqn:Hk.
  - apply String.eqb_eq in Hk as ->. intros [= ->]. by left.
  - intros Hrest. right. by apply IH.
Qed.

Lemma get_own_is_Some (obj : object) (key : string) :
  key ∈ object_keys obj ↔ is_Some (get_own obj key).
Proof.
  unfold object_keys. induction obj as [|[k v0] rest IH]; cbn [get_own map fst].
  - split; [intros Hin; by apply elem_of_nil in Hin|by intros [? ?]].
  - destruct (String.eqb k key) eqn:Hk.
    + apply String.eqb_eq in Hk as ->. split; [by eexists|]. intros _. by left.
    + apply String.eqb_neq in Hk. rewrite <- IH. split.
      * by intros [->|Hin]%elem_of_cons.
      * intros Hin. by right.
Qed.

Lemma ordinary_no_length (validOptions : object) :
  ordinary validOptions = true → "length" ∉ object_keys validOptions.
Proof.
  unfold ordinary. intros [_ Hall]%andb_prop Hin.
  apply list_elem_of_fmap in Hin as [[k d] [Hk Hkd]]. cbn in Hk. subst k.
  rewrite forallb_forall in Hall. apply list_elem_of_In in Hkd.
  specialize (Hall _ Hkd). cbn [fst] in Hall.
  by apply andb_prop in Hall as [[Hk _]%andb_prop _].
Qed.

Lemma ordinary_each (validOptions : object) :
  ordinary validOptions = true → lodash_each validOptions = validOptions.
Proof.
  intros Hnone%ordinary_no_length. unfold lodash_each, get_prop.
  destruct (get_own validOptions "length") as [v|] eqn:Hv; [|done].
  exfalso. apply Hnone. apply get_own_is_Some. by eexists.
Qed.

(** X1. [onCheckKernel] and [onCreateKernelInstance] accept exactly the
    options in which [cmd] and [cwd], if they hold anything, hold a string,
    and which either have no other property or carry a [length] of 0; options
    without [cmd] are among them. *)
Theorem kernel_options_are_accepted_iff (options : object) :
  assertValidObject options kernelOptions = Return tt
  ↔ ((∀ key, key ∈ object_keys options → key = "cmd" ∨ key = "cwd")
     ∨ get_prop options "length" = VNumber 0)
    ∧ string_or_undefined (get_prop options "cmd") = true
    ∧ string_or_undefined (get_prop options "cwd") = true.
Proof.
  assert (Hkeys : lodash_omit options (object_keys kernelOptions) = []
                  ↔ ∀ key, key ∈ object_keys options → key = "cmd" ∨ key = "cwd").
  { rewrite omit_nil_keys. change (object_keys kernelOptions) with ["cmd"; "cwd"].
    split; intros Hall key Hkey; specialize (Hall key Hkey).
    - apply elem_of_cons in Hall as [->|Hall]; [by left|].
      apply elem_of_cons in Hall as [->|Hall]; [by right|]. by apply elem_of_nil in Hall.
    - destruct Hall as [-> | ->]; [by left|]. right. by left. }
  rewrite <- Hkeys, <- (length_outside_kernelOptions options), <- size_not_positive.
  rewrite <- kernel_properties_pass, <- each_kernelOptions at 1.
  split.
  - by intros [Hb Hp]%assertValidObject_accepts.
  - intros [Hb Hp]. by rewrite assertValidObject_no_banned.
Qed.

(** X2. For ordinary definitions, an object that [assertValidObject] accepts
    and that carries no [length] of 0 has no property outside them, and each
    of its properties that holds something passes the validator of its
    declared type, which is one of the four of the table. *)
Theorem accepted_properties_have_their_type (obj validOptions : object)
    (key : string) (v : value) :
  ordinary validOptions = true →
  assertValidObject obj validOptions = Return tt →
  get_prop obj "length" ≠ VNumber 0 →
  get_own obj key = Some v → v ≠ VUndefined →
  ∃ definition validator,
    get_own validOptions key = Some definition
    ∧ validators (expected_type definition) = Some validator
    ∧ validator v = true.
Proof.
  intros Hordinary [Hb Hp]%assertValidObject_accepts Hlength Hkey Hv.
  rewrite (ordinary_each _ Hordinary) in Hp.
  assert (Hin : key ∈ object_keys validOptions).
  { destruct (decide (key ∈ object_keys validOptions)) as [|Hout]; [done|exfalso].
    assert (Hown : key ∈ object_keys obj) by (apply get_own_is_Some; by eexists).
    apply size_not_positive in Hb as [Hnone|Hzero].
    - pose proof (omit_keeps _ _ _ Hown Hout) as Hkept.
      rewrite Hnone in Hkept. by apply elem_of_nil in Hkept.
    - apply Hlength. rewrite <- Hzero. unfold get_prop.
      by rewrite get_own_omit by by apply ordinary_no_length. }
  apply get_own_is_Some in Hin as [definition Hdef].
  pose proof (proj1 (assertValidProperties_all _ _) Hp key definition
                (get_own_elem_of _ _ _ Hdef)) as Hok.
  unfold assertValidProperty, get_prop in Hok. rewrite Hkey in Hok.
  cbv zeta in Hok. cbn [default] in Hok. unfold id in Hok.
  assert (Hdefined : isUndefined v = false) by by destruct v.
  exists definition. unfold expected_type.
  destruct (isObject definition).
  - destruct (validators (to_string (member definition "type"))) as [validator|];
      [|discriminate Hok].
    exists validator. split; [done|]. split; [done|].
    rewrite Hdefined, andb_false_r in Hok. cbn [negb andb] in Hok.
    destruct (validator v); [done|discriminate Hok].
  - destruct (isString definition); [|discriminate Hok].
    destruct (validators (to_string definition)) as [validator|]; [|discriminate Hok].
    exists validator. split; [done|]. split; [done|].
    rewrite Hdefined, andb_false_r in Hok. cbn [negb andb] in Hok.
    destruct (validator v); [done|discriminate Hok].
Qed.

(** X3. Among ordinary definitions, a property whose definition carries a true
    [required] flag must be there: an object without it is never accepted, and
    when the definition comes first and nothing else is wrong, the error names
    the property that is missing. *)
Theorem required_property_must_be_present (obj validOptions : object)
    (key : string) (definition : value) :
  ordinary validOptions = true →
  (key, definition) ∈ validOptions →
  isObject definition = true →
  truthy (member definition "required") = true →
  get_prop obj key = VUndefined →
  (∃ e, assertValidObject obj validOptions = Throw e)
  ∧ (∀ rest, validOptions = (key, definition) :: rest →
       lodash_omit obj (object_keys validOptions) = [] →
       is_Some (validators (expected_type definition)) →
       assertValidObject obj validOptions
       = Throw (Error ("Missing required property " +:+ key))).
Proof.
  intros Hordinary Hin Hobj Hreq Hmissing.
  assert (Hthrows : ∃ e, assertValidProperty obj definition key = Throw e).
  { unfold assertValidProperty. rewrite Hobj, Hreq, Hmissing.
    destruct (validators (to_string (member definition "type"))); by eexists. }
  split.
  - destruct (assertValidObject obj validOptions) as [[]|e] eqn:Hres; [|by eexists].
    apply assertValidObject_accepts in Hres as [_ Hp]. destruct Hthrows as [e He].
    rewrite (ordinary_each _ Hordinary) in Hp.
    rewrite (proj1 (assertValidProperties_all _ _) Hp key definition Hin) in He. done.
  - intros rest -> Hbanned [validator Hvalidator]. unfold expected_type in Hvalidator.
    rewrite Hobj in Hvalidator.
    rewrite assertValidObject_no_banned by (apply size_not_positive; by left).
    rewrite (ordinary_each _ Hordinary).
    cbn [assertValidProperties]. unfold assertValidProperty.
    rewrite Hobj, Hreq, Hmissing, Hvalidator. done.
Qed.

Lemma accepted_properties_have_their_type_witness :
  ∃ definition validator,
    get_own kernelOptions "cmd" = Some definition
    ∧ validators (expected_type definition) = Some validator
    ∧ validator (VString "python3") = true.
Proof.
  apply (accepted_properties_have_their_type [("cmd", VString "python3")] kernelOptions
           "cmd" (VString "python3"));
    [reflexivity|reflexivity|discriminate|reflexivity|discriminate].
Defined.

Lemma required_property_must_be_present_witness :
  let definition := VObject [("type", VString "string"); ("required", VBool true)] in
  let validOptions := [("cmd", definition); ("cwd", VString "string")] in
  (∃ e, assertValidObject [("cwd", VString "/home")] validOptions = Throw e)
  ∧ (∀ rest, validOptions = ("cmd", definition) :: rest →
       lodash_omit [("cwd", VString "/home")] (object_keys validOptions) = [] →
       is_Some (validators (expected_type definition)) →
       assertValidObject [("cwd", VString "/home")] validOptions
       = Throw (Error ("Missing required property " +:+ "cmd"))).
Proof.
  apply (required_property_must_be_present [("cwd", VString "/home")] _ "cmd"
           (VObject [("type", VString "string"); ("required", VBool true)]));
    [reflexivity|by left|reflexivity|reflexivity|reflexivity].
Defined.

(** ** Requests to a session whose client is ready *)

Section Requests.
Context `{Platform}.

Lemma step_request (r : ipc) (method : string) (args : list value) :
  client_method r = Some (method, args) → has_text r = true →
  ∃ options prefix,
    session_of r = Some (to_string (get_prop options "instanceId"))
    ∧ ∀ fuel w,
        step fuel (Calls r) w
        = drain fuel (forward options method args (set_logs (λ l, l ++ prefix) w)).2
        ∧ (handle r w).1
          = match (forward options method args (set_logs (λ l, l ++ prefix) w)).1 with
            | Return q => Return (VPromise q)
            | Throw e => Throw e
            end.
Proof.
  intros Hmethod Htext.
  destruct r; try discriminate Hmethod; cbn in Hmethod, Htext;
    injection Hmethod as <- <-; exists options.
  1: exists [("info", ["onExecuteWithKernel"; to_string text])].
  2-7: exists [].
  all: split; [reflexivity|]; intros fuel w;
    unfold step, handle, onExecuteWithKernel, onIsComplete, onGetInspection,
      onGetStatus, onExecuteHidden, onEval, onInterrupt;
    rewrite ?Htext; cbn [negb];
    destruct w as [kc pr n js ts t ls cs lg cc fs us up];
    unfold log; repeat (js_law; world_norm); world_norm; rewrite ?app_nil_r;
    unfold bind;
    destruct (forward options _ _ _) as [[q|e] w']; done.
Qed.

(** X4. A request for a session whose client is ready is passed to the client
    once, under the method name of the request, and the promise handed back
    settles as the client answers: it fulfils with the client's value and
    rejects with the client's error. The table is not touched. *)
Theorem request_goes_to_the_ready_client (w : world) (r : ipc) (id method : string)
    (args : list value) (ready c fuel : nat) :
  reachable w →
  session_of r = Some id → client_method r = Some (method, args) → has_text r = true →
  kernelClients w !! id = Some ready →
  promises w !! ready = Some (Settled (Fulfilled (VClient c))) →
  (1 ≤ fuel)%nat →
  let returned := next_ref w in
  let asked := S (next_ref w) in
  ∃ w1,
    (handle r w).1 = Return (VPromise returned)
    ∧ step fuel (Calls r) w = Some w1
    ∧ calls w1 = calls w ++ [ClientRequest c method args asked]
    ∧ kernelClients w1 = kernelClients w
    ∧ promises w1 !! returned = Some (Pending [])
    ∧ ∀ o, ∃ w2,
        step fuel (Settles asked o) w1 = Some w2
        ∧ promises w2 !! returned = Some (Settled o)
        ∧ calls w2 = calls w1
        ∧ kernelClients w2 = kernelClients w.
Proof.
  intros Hreach Hsession Hmethod Htext Hid Hready Hfuel returned asked.
  destruct (reachable_invariant w Hreach) as (Hok & _ & Hq).
  pose proof (heap_ok_lt _ _ _ Hok Hready) as Hlt.
  pose proof (heap_ok_fresh w (next_ref w) Hok ltac:(lia)) as Hn0.
  pose proof (heap_ok_fresh w (S (next_ref w)) Hok ltac:(lia)) as Hn1.
  subst returned asked.
  destruct (step_request r method args Hmethod Htext) as (options & prefix & Hs & Hstep).
  rewrite Hsession in Hs. injection Hs as ->.
  destruct (Hstep fuel w) as [-> ->]. clear Hstep.
  destruct w as [kc pr n js ts t ls cs lg cc fs us up].
  cbn in Hid, Hready, Hlt, Hn0, Hn1, Hq. subst js.
  destruct fuel as [|fuel]; [lia|].
  js_eval.
  eexists. split; [reflexivity|]. split; [reflexivity|].
  cbn [calls kernelClients promises next_ref].
  split; [reflexivity|]. split; [reflexivity|].
  split; [by heap_lookups|].
  intros o. unfold step. rewrite answers_call_last by reflexivity.
  destruct o as [v|e]; js_eval; eexists; (split; [reflexivity|]);
    cbn [calls kernelClients promises]; (split; [by heap_lookups|]); done.
Qed.

End Requests.

(** ** Requests made while the client is being created *)

Section Waiting.
Context `{Platform}.

(** X5. A request made right after the creation of its session waits:
    nothing is asked of any client when the request is made, nor when the
    client has been created; when the client emits [ready], the request is
    passed to it, once, and the promise handed back at the start settles as
    the client answers. *)
Theorem request_waits_for_readiness (options : object) (w : world) (r : ipc)
    (method : string) (args : list value) (c fuel : nat) :
  valid_options options = true → reachable w → fresh_client c w →
  session_of r = Some (cuid (cuid_count w)) →
  client_method r = Some (method, args) → has_text r = true →
  (3 ≤ fuel)%nat →
  let created := S (next_ref w) in
  ∃ w1 w2 w3 w4 returned asked,
    step fuel (Calls (CreateKernelInstance options)) w = Some w1
    ∧ (handle r w1).1 = Return (VPromise returned)
    ∧ step fuel (Calls r) w1 = Some w2
    ∧ calls w2 = calls w1
    ∧ step fuel (Settles created (Fulfilled (VClient c))) w2 = Some w3
    ∧ calls w3 = calls w1
    ∧ promises w3 !! returned = Some (Pending [])
    ∧ step fuel (Emits c "ready" []) w3 = Some w4
    ∧ calls w4 = calls w1 ++ [ClientRequest c method args asked]
    ∧ ∀ o, ∃ w5,
        step fuel (Settles asked o) w4 = Some w5
        ∧ promises w5 !! returned = Some (Settled o).
Proof.
  intros Hvalid Hreach Hnew Hsession Hmethod Htext Hfuel created.
  destruct (reachable_invariant w Hreach) as (Hok & Hids & Hq).
  pose proof (valid_options_pass _ Hvalid) as Hpass.
  pose proof (heap_ok_fresh w (next_ref w) Hok ltac:(lia)) as Hn0.
  destruct (step_request r method args Hmethod Htext) as (ropts & prefix & Hs & Hstep).
  rewrite Hsession in Hs. injection Hs as Hs.
  subst created.
  destruct w as [kc pr n js ts t ls cs lg cc fs us up].
  unfold fresh_client in Hnew. cbn in Hn0, Hq, Hnew, Hs. subst js.
  destruct fuel as [|[|[|fuel]]]; [lia|lia|lia|].
  cbn [next_ref cuid_count].
  unfold step at 1, handle, onCreateKernelInstance. rewrite Hpass. js_eval.
  eexists. eexists. eexists. eexists. eexists. eexists.
  split; [reflexivity|].
  split.
  { rewrite (proj2 (Hstep 0%nat _)). js_eval. rewrite <- Hs. js_eval. reflexivity. }
  split.
  { rewrite (proj1 (Hstep _ _)). js_eval. rewrite <- Hs. js_eval. reflexivity. }
  split; [reflexivity|].
  unfold step at 1. rewrite answers_call_last by reflexivity. js_eval.
  split; [reflexivity|]. split; [reflexivity|].
  cbn [promises]. split; [by heap_lookups|].
  unfold step at 1. js_eval. rewrite <- !app_assoc. cbn [app].
  rewrite emit_to_skip by done. js_emit.
  split; [reflexivity|]. cbn [calls].
  split; [by rewrite <- app_assoc|].
  intros o. unfold step. rewrite answers_call_last by reflexivity.
  destruct o as [v|e]; js_eval; eexists; (split; [reflexivity|]);
    cbn [promises]; by heap_lookups.
Qed.

End Waiting.

(** ** Events of a client *)

Section ClientEvents.
Context `{Platform}.

Lemma emit_to_filter ls (c : nat) (name : string) (args : list value) (w : world) :
  emit_to ls c name args w
  = emit_to (List.filter (λ x : nat * string * listener, Nat.eqb x.1.1 c) ls) c name args w.
Proof.
  revert w. induction ls as [|[[c' name'] l] rest IH]; intros w; [done|].
  cbn [List.filter fst]. destruct (Nat.eqb c' c) eqn:Hc; cbn [emit_to]; rewrite Hc.
  - cbn [andb]. destruct (String.eqb name' name); [|apply IH].
    unfold bind. destruct (run_listener l c args w) as [[[]|e] w']; [apply IH|done].
  - cbn [andb]. apply IH.
Qed.

Lemma emit_attached (w : world) (id : string) (ready c : nat) (name : string)
    (args : list value) :
  attached w id ready c →
  emit c name args w = emit_to (session_listeners id ready c) c name args w.
Proof.
  intros [Hls _]. unfold emit. rewrite bind_gets, emit_to_filter.
  unfold listeners_of in Hls. by rewrite Hls.
Qed.

Lemma transform_all_plain (args : list value) (w : world) :
  plain args = true → transform_all args w = (Return args, w).
Proof.
  unfold plain. induction args as [|arg rest IH]; [done|].
  cbn [forallb transform_all]. intros [Harg Hrest]%andb_prop.
  rewrite (bind_return _ _ w w arg).
  - rewrite (bind_return _ _ w w rest); [done|by apply IH].
  - apply transform_not_display. apply negb_true_iff in Harg.
    by apply andb_false_iff in Harg.
Qed.

Lemma fresh_client_listeners (c : nat) (w : world) :
  fresh_client c w →
  List.filter (λ x : nat * string * listener, Nat.eqb x.1.1 c) (listeners w) = [].
Proof.
  unfold fresh_client. induction (listeners w) as [|x rest IH]; [done|].
  intros [Hx Hrest]%Forall_cons. cbn [List.filter].
  apply Nat.eqb_neq in Hx. rewrite Hx. by apply IH.
Qed.

(** X6. While the client of a session is being created, a creation that
    succeeds attaches to the client the listeners for [ready], [event], [error]
    and [close] and then those that pass its seven kinds of events to the main
    window, in that order; nothing is sent anywhere yet, the table is as it
    was, and the readiness promise still waits for the [ready] event. *)
Theorem creation_wires_the_client (w : world) (id : string) (ready created c fuel : nat) :
  under_construction w id ready created → fresh_client c w → (1 ≤ fuel)%nat →
  ∃ w1,
    step fuel (Settles created (Fulfilled (VClient c))) w = Some w1
    ∧ attached w1 id ready c
    ∧ listeners w1 = listeners w ++ session_listeners id ready c
    ∧ kernelClients w1 = kernelClients w
    ∧ calls w1 = calls w
    ∧ (∃ waiting, promises w1 !! ready = Some (Pending waiting)).
Proof.
  intros (wired & caught & waiting & Hid & Hready & Hcreated & Hwired & Hcaught
          & Hne & Hanswers & Hq) Hnew Hfuel.
  pose proof (fresh_client_listeners c w Hnew) as Hnone.
  destruct fuel as [|fuel]; [lia|].
  unfold step. rewrite Hanswers.
  destruct w as [kc pr n js ts t ls cs lg cc fs us up].
  cbn in Hid, Hready, Hcreated, Hwired, Hcaught, Hq, Hnone. subst js.
  js_eval.
  eexists. split; [reflexivity|].
  unfold attached, listeners_of. cbn [listeners kernelClients calls promises jobs].
  rewrite <- !app_assoc. cbn [app].
  split.
  { split; [|done]. rewrite List.filter_app, Hnone. cbn [List.filter fst app].
    by rewrite Nat.eqb_refl. }
  do 3 (split; [done|]).
  eexists. heap_lookups. use_lookups. done.
Qed.

(** X7. A [close] event of the client of a session removes the session from
    the table and is passed to the main window with its arguments; a request to
    kill the session then fails with the error for an unknown kernel (the id
    is no name that the table inherits). The promises are as they were: a
    readiness promise that was pending stays so. *)
Theorem client_close_removes_the_session (w : world) (id : string) (ready c fuel : nat)
    (args : list value) :
  attached w id ready c → plain args = true → id ∉ inherited_names →
  ∃ w1,
    step fuel (Emits c "close" args) w = Some w1
    ∧ kernelClients w1 = delete id (kernelClients w)
    ∧ calls w1 = calls w ++ [WindowSend "mainWindow" "close" args]
    ∧ promises w1 = promises w
    ∧ (onKillKernelInstance id w1).1 = Throw (Error "Kernel with that id does not exist.").
Proof.
  intros Hattached Hplain Hout. unfold step.
  rewrite (emit_attached _ _ _ _ _ _ Hattached).
  destruct Hattached as [_ Hq].
  destruct w as [kc pr n js ts t ls cs lg cc fs us up]. cbn in Hq. subst js.
  unfold session_listeners. js_emit.
  rewrite (bind_return _ _ _ _ _ (transform_all_plain args _ Hplain)).
  js_emit.
  eexists. split; [reflexivity|]. cbn [kernelClients calls promises].
  do 3 (split; [done|]).
  unfold onKillKernelInstance. rewrite bind_gets. cbn [kernelClients].
  by rewrite table_get_unknown by (by rewrite ?lookup_delete_eq).
Qed.

End ClientEvents.

Section MoreClientEvents.
Context `{Platform}.

(** X8. Once the readiness promise of a session is settled, a further
    [ready] event of its client changes nothing but the log, to which it adds
    one line. *)
Theorem ready_settles_once (w : world) (id : string) (ready c fuel : nat) (o : outcome)
    (args : list value) :
  attached w id ready c → promises w !! ready = Some (Settled o) →
  step fuel (Emits c "ready" args) w
  = Some (set_logs (λ l, l ++ [("info", ["new python kernel process is ready"; id;
                                         "process"])]) w).
Proof.
  intros Hattached Hready. unfold step.
  rewrite (emit_attached _ _ _ _ _ _ Hattached).
  destruct Hattached as [_ Hq].
  destruct w as [kc pr n js ts t ls cs lg cc fs us up]. cbn in Hq, Hready. subst js.
  unfold session_listeners. js_emit. world_norm.
  do 2 f_equal. apply alter_id. intros st Hst. rewrite Hready in Hst. by injection Hst as <-.
Qed.

(** X9. Each of the seven kinds of events that a client emits goes to the main
    window once, under its own name and with its arguments; an event of
    another name, [ready] apart, has no listener and changes nothing. *)
Theorem kernel_events_reach_the_window (w : world) (id : string) (ready c fuel : nat)
    (name : string) (args : list value) :
  attached w id ready c → plain args = true →
  (name ∈ kernel_channels →
   ∃ w1,
     step fuel (Emits c name args) w = Some w1
     ∧ calls w1 = calls w ++ [WindowSend "mainWindow" name args]
     ∧ promises w1 = promises w
     ∧ (name ≠ "close" → kernelClients w1 = kernelClients w))
  ∧ (name ∉ kernel_channels → name ≠ "ready" → step fuel (Emits c name args) w = Some w).
Proof.
  intros Hattached Hplain. unfold step.
  rewrite (emit_attached _ _ _ _ _ _ Hattached).
  destruct Hattached as [_ Hq].
  destruct w as [kc pr n js ts t ls cs lg cc fs us up]. cbn in Hq. subst js.
  unfold session_listeners. split.
  - intros Hname. unfold kernel_channels in Hname.
    repeat (apply elem_of_cons in Hname as [->|Hname]); [..|by apply elem_of_nil in Hname].
    all: js_emit; rewrite (bind_return _ _ _ _ _ (transform_all_plain args _ Hplain));
      js_emit; eexists; (split; [reflexivity|]); cbn [kernelClients calls promises]; done.
  - intros Hname Hready.
    assert (Hne : ∀ name', name' ∈ "ready" :: kernel_channels → String.eqb name' name = false).
    { intros name' Hin. apply String.eqb_neq. intros ->.
      apply elem_of_cons in Hin as [->|Hin]; done. }
    repeat (rewrite emit_to_miss by (apply Hne; unfold kernel_channels; set_solver)).
    rewrite emit_to_nil. cbn [snd]. by rewrite drain_nil.
Qed.

End MoreClientEvents.

(** ** Two sessions *)

Section TwoSessions.
Context `{Platform}.

(** X27. Two sessions created one after the other get different ids and
    different readiness promises; the second creation leaves the entry of the
    first as it is, and each creation asks for a client of its own with its
    own options. *)
Theorem sessions_do_not_share (options1 options2 : object) (w : world) (fuel : nat) :
  valid_options options1 = true → valid_options options2 = true → reachable w →
  let id1 := cuid (cuid_count w) in
  let id2 := cuid (S (cuid_count w)) in
  ∃ w1 w2 ready1 ready2 created1 created2,
    step fuel (Calls (CreateKernelInstance options1)) w = Some w1
    ∧ step fuel (Calls (CreateKernelInstance options2)) w1 = Some w2
    ∧ id1 ≠ id2 ∧ ready1 ≠ ready2 ∧ created1 ≠ created2
    ∧ kernelClients w !! id1 = None ∧ kernelClients w !! id2 = None
    ∧ kernelClients w2 = <[id2 := ready2]> (<[id1 := ready1]> (kernelClients w))
    ∧ kernelClients w2 !! id1 = Some ready1
    ∧ promises w2 !! ready1 = Some (Pending [])
    ∧ promises w2 !! ready2 = Some (Pending [])
    ∧ calls w2 = calls w ++ [CreateClient options1 created1; CreateClient options2 created2].
Proof.
  intros Hvalid1 Hvalid2 Hreach id1 id2.
  destruct (reachable_invariant w Hreach) as (Hok & Hids & Hq).
  pose proof (valid_options_pass _ Hvalid1) as Hpass1.
  pose proof (valid_options_pass _ Hvalid2) as Hpass2.
  pose proof (next_id_is_fresh w Hids) as Hfresh1.
  assert (Hfresh2 : kernelClients w !! id2 = None).
  { destruct (kernelClients w !! id2) as [p|] eqn:Hp; [|done].
    destruct (Hids id2) as (k & Hk & Heq); [by eexists|].
    apply cuid_inj in Heq. lia. }
  assert (Hne : id1 ≠ id2).
  { intros Heq. apply cuid_inj in Heq. lia. }
  pose proof (heap_ok_fresh w (next_ref w) Hok ltac:(lia)) as Hn0.
  pose proof (heap_ok_fresh w (S (next_ref w)) Hok ltac:(lia)) as Hn1.
  subst id1 id2.
  destruct w as [kc pr n js ts t ls cs lg cc fs us up].
  cbn in Hfresh1, Hfresh2, Hne, Hn0, Hn1, Hq. subst js.
  cbn [next_ref cuid_count kernelClients calls].
  unfold step, handle, onCreateKernelInstance. rewrite Hpass1. js_eval.
  eexists _, _, n, (S (S (S (S (S n))))), (S n), (S (S (S (S (S (S n)))))).
  split; [reflexivity|]. rewrite Hpass2. js_eval.
  split; [reflexivity|]. cbn [kernelClients promises calls].
  split; [done|]. split; [lia|]. split; [lia|]. split; [done|]. split; [done|].
  split; [done|].
  split; [by rewrite lookup_insert_ne, lookup_insert_eq|].
  split; [by heap_lookups|]. split; [by heap_lookups|].
  by rewrite <- app_assoc.
Qed.

End TwoSessions.

(** ** Killing twice, and answers that race the timer *)

Section Races.
Context `{Platform}.

(** X10. A second kill request for the same session is not refused: as long
    as the client has not emitted [close], the entry is still in the table, so
    the second request is passed to the client like the first, whatever the
    answer to the first kill was. *)
Theorem second_kill_reaches_the_client (w : world) (id : string) (ready c fuel : nat) :
  reachable w → kernelClients w !! id = Some ready →
  promises w !! ready = Some (Settled (Fulfilled (VClient c))) →
  (2 ≤ fuel)%nat →
  let first := S (S (next_ref w)) in
  ∃ w1,
    step fuel (Calls (KillKernelInstance id)) w = Some w1
    ∧ calls w1 = calls w ++ [ClientRequest c "kill" [] first]
    ∧ ∀ o, ∃ w2 w3 killed second,
        step fuel (Settles first o) w1 = Some w2
        ∧ (handle (KillKernelInstance id) w2).1 = Return (VPromise killed)
        ∧ step fuel (Calls (KillKernelInstance id)) w2 = Some w3
        ∧ calls w3
          = calls w ++ [ClientRequest c "kill" [] first; ClientRequest c "kill" [] second]
        ∧ first ≠ second.
Proof.
  intros Hreach Hid Hready Hfuel first.
  destruct (reachable_invariant w Hreach) as (Hok & _ & Hq).
  pose proof (heap_ok_lt _ _ _ Hok Hready) as Hlt.
  pose proof (heap_ok_fresh w (next_ref w) Hok ltac:(lia)) as Hn0.
  pose proof (heap_ok_fresh w (S (next_ref w)) Hok ltac:(lia)) as Hn1.
  pose proof (heap_ok_fresh w (S (S (next_ref w))) Hok ltac:(lia)) as Hn2.
  subst first.
  destruct w as [kc pr n js ts t ls cs lg cc fs us up].
  cbn in Hid, Hready, Hlt, Hn0, Hn1, Hn2, Hq. subst js.
  destruct fuel as [|[|fuel]]; [lia|lia|].
  unfold step at 1, handle, onKillKernelInstance. js_eval.
  eexists. split; [reflexivity|]. cbn [calls next_ref]. split; [reflexivity|].
  intros o. unfold step at 1. rewrite answers_call_last by reflexivity.
  destruct o as [v|e]; js_eval.
  all: eexists; eexists; eexists; eexists.
  all: split; [reflexivity|].
  all: unfold step, handle, onKillKernelInstance; js_eval.
  all: split; [reflexivity|]; (split; [reflexivity|]); cbn [calls].
  all: split; [by rewrite <- app_assoc|lia].
Qed.

(** X11. An autocompletion that the client answers before the timer fires
    settles as the client answers, and the timer firing afterwards changes
    nothing: the promise keeps the client's answer. *)
Theorem autocomplete_answer_beats_the_timer (w : world) (options : object)
    (text cursorPos : value) (id : string) (ready c fuel : nat) :
  to_string (get_prop options "instanceId") = id →
  kernelClients w !! id = Some ready →
  promises w !! ready = Some (Settled (Fulfilled (VClient c))) →
  reachable w → (2 ≤ fuel)%nat →
  let timed := S (next_ref w) in
  let asked := S (S (next_ref w)) in
  let tm := Timer (now w + 5000) timed "AutoComplete failed to finish in 5 seconds" in
  ∃ w1,
    (onGetAutoComplete options text cursorPos w).1 = Return (VPromise timed)
    ∧ step fuel (Calls (GetAutoComplete options text cursorPos)) w = Some w1
    ∧ ∀ o ms, (5000 ≤ ms)%N → ∃ w2 w3 w4,
        step fuel (Settles asked o) w1 = Some w2
        ∧ promises w2 !! timed = Some (Settled o)
        ∧ step fuel (Passes ms) w2 = Some w3
        ∧ step fuel (Fires tm) w3 = Some w4
        ∧ promises w4 !! timed = Some (Settled o)
        ∧ calls w4 = calls w1.
Proof.
  intros Hoptions Hid Hready Hreach Hfuel timed asked tm.
  destruct (reachable_invariant w Hreach) as (Hok & _ & Hq).
  pose proof (heap_ok_lt _ _ _ Hok Hready) as Hlt.
  pose proof (heap_ok_fresh w (next_ref w) Hok ltac:(lia)) as Hn0.
  pose proof (heap_ok_fresh w (S (next_ref w)) Hok ltac:(lia)) as Hn1.
  pose proof (heap_ok_fresh w (S (S (next_ref w))) Hok ltac:(lia)) as Hn2.
  subst timed asked tm.
  destruct w as [kc pr n js ts t ls cs lg cc fs us up].
  cbn in Hid, Hready, Hlt, Hn0, Hn1, Hn2, Hq. subst js.
  destruct fuel as [|[|fuel]]; [lia|lia|].
  cbn [next_ref now].
  unfold step at 1, handle, onGetAutoComplete.
  rewrite autocomplete_message. js_unfold. rewrite autocomplete_delay, Hoptions.
  js_eval.
  eexists. split; [reflexivity|]. split; [reflexivity|].
  intros o ms Hms.
  unfold step at 1. rewrite answers_call_last by reflexivity.
  destruct o as [v|e]; js_eval.
  all: eexists; eexists; eexists.
  all: split; [reflexivity|]; cbn [promises]; (split; [by heap_lookups|]).
  all: unfold step at 1; (split; [reflexivity|]).
  all: unfold step, is_due; world_norm; cbn [deadline];
    rewrite existsb_app; cbn [existsb]; rewrite timer_eqb_refl, orb_true_r;
    cbn [orb andb].
  all: assert ((t + 5000 <=? t + ms)%N = true) as -> by (apply N.leb_le; lia).
  all: js_eval; cbn [timed timeout_message]; js_eval.
  all: split; [reflexivity|]; cbn [promises calls]; (split; [by heap_lookups|done]).
Qed.

(** X12. An answer of the client that comes after the timer has fired is
    dropped: the promise handed back stays rejected with the timeout error,
    and nothing more is asked of the client. *)
Theorem autocomplete_late_answer_is_dropped (w : world) (options : object)
    (text cursorPos : value) (id : string) (ready c fuel : nat) (ms : N) :
  to_string (get_prop options "instanceId") = id →
  kernelClients w !! id = Some ready →
  promises w !! ready = Some (Settled (Fulfilled (VClient c))) →
  reachable w → (2 ≤ fuel)%nat → (5000 ≤ ms)%N →
  let timed := S (next_ref w) in
  let asked := S (S (next_ref w)) in
  let late := TimeoutError "AutoComplete failed to finish in 5 seconds" in
  let tm := Timer (now w + 5000) timed "AutoComplete failed to finish in 5 seconds" in
  ∃ w1 w2 w3,
    step fuel (Calls (GetAutoComplete options text cursorPos)) w = Some w1
    ∧ step fuel (Passes ms) w1 = Some w2
    ∧ step fuel (Fires tm) w2 = Some w3
    ∧ promises w3 !! timed = Some (Settled (Rejected late))
    ∧ ∀ o, ∃ w4,
        step fuel (Settles asked o) w3 = Some w4
        ∧ promises w4 !! timed = Some (Settled (Rejected late))
        ∧ calls w4 = calls w1
        ∧ kernelClients w4 = kernelClients w.
Proof.
  intros Hoptions Hid Hready Hreach Hfuel Hms timed asked late tm.
  destruct (reachable_invariant w Hreach) as (Hok & _ & Hq).
  pose proof (heap_ok_lt _ _ _ Hok Hready) as Hlt.
  pose proof (heap_ok_fresh w (next_ref w) Hok ltac:(lia)) as Hn0.
  pose proof (heap_ok_fresh w (S (next_ref w)) Hok ltac:(lia)) as Hn1.
  pose proof (heap_ok_fresh w (S (S (next_ref w))) Hok ltac:(lia)) as Hn2.
  subst timed asked late tm.
  destruct w as [kc pr n js ts t ls cs lg cc fs us up].
  cbn in Hid, Hready, Hlt, Hn0, Hn1, Hn2, Hq. subst js.
  destruct fuel as [|[|fuel]]; [lia|lia|].
  cbn [next_ref now].
  unfold step at 1, handle, onGetAutoComplete.
  rewrite autocomplete_message. js_unfold. rewrite autocomplete_delay, Hoptions.
  js_eval.
  eexists. eexists. eexists.
  split; [reflexivity|].
  unfold step at 1. split; [reflexivity|].
  unfold step at 1, is_due. world_norm. cbn [deadline].
  rewrite existsb_app. cbn [existsb]. rewrite timer_eqb_refl, orb_true_r.
  cbn [orb andb].
  assert ((t + 5000 <=? t + ms)%N = true) as -> by (apply N.leb_le; lia).
  js_eval. cbn [timed timeout_message]. js_eval. cancel_eval.
  split; [reflexivity|]. cbn [promises]. split; [by heap_lookups|].
  intros o. unfold step. rewrite answers_call_last by reflexivity.
  destruct o as [v|e]; js_eval.
  all: eexists; (split; [reflexivity|]); cbn [promises calls kernelClients];
    (split; [by heap_lookups|done]).
Qed.

End Races.

(** ** Autocompletion that times out while the client is being created *)

Section TimeoutDuringCreation.
Context `{Platform}.

(** X30. An autocomplete request for a session whose client is still being
    created waits on the readiness promise. When its timer fires, the promise
    returned to the request is rejected with the timeout error and the
    request is cancelled. If nothing else waits on the readiness promise, the
    cancellation reaches that promise: the session is still in the table, but
    when the python client is created afterwards its listeners are attached,
    the chain is rejected by the cancelled promise and the [catch] callback
    removes the session, without anything having been asked of the client. If
    a kill request waits on the readiness promise as well, that promise stays
    pending: the client is created, and when it is ready the kill is passed to
    it and the session is still in the table. *)
Theorem timeout_during_creation (options request : object) (text cursorPos : value)
    (w : world) (c fuel : nat) (ms : N) :
  valid_options options = true → reachable w →
  to_string (get_prop request "instanceId") = cuid (cuid_count w) →
  fresh_client c w → (3 ≤ fuel)%nat → (5000 ≤ ms)%N →
  let id := cuid (cuid_count w) in
  let ready := next_ref w in
  let created := S (next_ref w) in
  let message := "AutoComplete failed to finish in 5 seconds" in
  (let timed := (6 + next_ref w)%nat in
   ∃ w1 w2 w3 w4 w5,
     step fuel (Calls (CreateKernelInstance options)) w = Some w1
     ∧ step fuel (Calls (GetAutoComplete request text cursorPos)) w1 = Some w2
     ∧ step fuel (Passes ms) w2 = Some w3
     ∧ step fuel (Fires (Timer (now w + 5000) timed message)) w3 = Some w4
     ∧ promises w4 !! timed = Some (Settled (Rejected (TimeoutError message)))
     ∧ promises w4 !! ready = Some Cancelled
     ∧ kernelClients w4 !! id = Some ready
     ∧ step fuel (Settles created (Fulfilled (VClient c))) w4 = Some w5
     ∧ kernelClients w5 = kernelClients w
     ∧ listeners_of c w5 = session_listeners id ready c
     ∧ last (logs w5) = Some ("error", ["failed to create instance"; id])
     ∧ calls w5 = calls w ++ [CreateClient options created])
  ∧ (let killing := (5 + next_ref w)%nat in
     let timed := (8 + next_ref w)%nat in
     ∃ w1 w2 w3 w4 w5 w6 w7 asked,
       step fuel (Calls (CreateKernelInstance options)) w = Some w1
       ∧ step fuel (Calls (KillKernelInstance id)) w1 = Some w2
       ∧ step fuel (Calls (GetAutoComplete request text cursorPos)) w2 = Some w3
       ∧ step fuel (Passes ms) w3 = Some w4
       ∧ step fuel (Fires (Timer (now w + 5000) timed message)) w4 = Some w5
       ∧ promises w5 !! timed = Some (Settled (Rejected (TimeoutError message)))
       ∧ promises w5 !! ready
         = Some (Pending [Reaction (Some (HClientCall "kill" [])) None killing])
       ∧ step fuel (Settles created (Fulfilled (VClient c))) w5 = Some w6
       ∧ step fuel (Emits c "ready" []) w6 = Some w7
       ∧ promises w7 !! ready = Some (Settled (Fulfilled (VClient c)))
       ∧ kernelClients w7 !! id = Some ready
       ∧ calls w7
         = calls w ++ [CreateClient options created; ClientRequest c "kill" [] asked]).
Proof.
  intros Hvalid Hreach Hrequest Hnew Hfuel Hlate id ready created message.
  destruct (reachable_invariant w Hreach) as (Hok & Hids & Hq).
  pose proof (valid_options_pass _ Hvalid) as Hpass.
  pose proof (next_id_is_fresh w Hids) as Hfresh.
  pose proof (heap_ok_fresh w (next_ref w) Hok ltac:(lia)) as Hn0.
  pose proof (fresh_client_listeners c w Hnew) as Hnone.
  unfold fresh_client in Hnew.
  subst id ready created message.
  destruct w as [kc pr n js ts t ls cs lg cc fs us up].
  cbn in Hn0, Hq, Hnew, Hfresh, Hrequest, Hnone. subst js.
  destruct fuel as [|[|[|fuel]]]; [lia|lia|lia|].
  assert (Hdue : (t + 5000 <=? t + ms)%N = true) by (apply N.leb_le; lia).
  cbn [next_ref cuid_count now Nat.add]. split.
  - unfold step at 1, handle, onCreateKernelInstance. rewrite Hpass. js_eval.
    eexists. eexists. eexists. eexists. eexists.
    split; [reflexivity|].
    unfold step at 1, handle, onGetAutoComplete.
    rewrite autocomplete_message. js_unfold. rewrite autocomplete_delay, Hrequest.
    js_eval.
    split; [reflexivity|]. split; [reflexivity|].
    unfold step at 1, is_due. world_norm. cbn [deadline].
    rewrite existsb_app. cbn [existsb]. rewrite timer_eqb_refl, Hdue, orb_true_r.
    cbn [orb andb].
    js_eval. cbn [timed timeout_message]. js_eval. cancel_eval.
    split; [reflexivity|]. cbn [promises kernelClients].
    split; [by heap_lookups|]. split; [by heap_lookups|].
    split; [by rewrite lookup_insert_eq|].
    unfold step at 1. rewrite answers_call_last by reflexivity. js_eval.
    split; [reflexivity|]. cbn [kernelClients calls logs].
    split; [by apply delete_insert_id|].
    split; [|split; [by rewrite last_snoc|done]].
    unfold listeners_of. cbn [listeners]. rewrite <- !app_assoc. cbn [app].
    rewrite List.filter_app, Hnone. cbn [List.filter fst app].
    by rewrite Nat.eqb_refl.
  - unfold step at 1, handle, onCreateKernelInstance. rewrite Hpass. js_eval.
    eexists. eexists. eexists. eexists. eexists. eexists. eexists. eexists.
    split; [reflexivity|].
    unfold step at 1, handle, onKillKernelInstance. js_eval.
    split; [reflexivity|].
    unfold step at 1, handle, onGetAutoComplete.
    rewrite autocomplete_message. js_unfold. rewrite autocomplete_delay, Hrequest.
    js_eval.
    split; [reflexivity|]. split; [reflexivity|].
    unfold step at 1, is_due. world_norm. cbn [deadline].
    rewrite existsb_app. cbn [existsb]. rewrite timer_eqb_refl, Hdue, orb_true_r.
    cbn [orb andb].
    js_eval. cbn [timed timeout_message]. js_eval. cancel_eval.
    split; [reflexivity|]. cbn [promises kernelClients].
    split; [by heap_lookups|]. split; [by heap_lookups|].
    unfold step at 1. rewrite answers_call_last by reflexivity. js_eval.
    split; [reflexivity|].
    unfold step at 1. js_eval. rewrite <- !app_assoc. cbn [app].
    rewrite emit_to_skip by done. js_emit.
    split; [reflexivity|]. cbn [calls kernelClients promises].
    split; [by heap_lookups|]. split; [by rewrite lookup_insert_eq|].
    by rewrite <- app_assoc.
Qed.

End TimeoutDuringCreation.

(** ** Temporary files and routes across events *)

Section Stores.
Context `{Platform}.
Variable P : gmap string value → gmap string string → Prop.
Hypothesis P_served : ∀ fs us filepath data route,
  fs !! filepath = None → us !! route = None →
  P fs us → P (<[filepath := data]> fs) (<[route := filepath]> us).

Lemma preserves_ret {A} (a : A) : preserves P (ret a).
Proof. by intros w. Qed.
Lemma preserves_throw {A} (e : error) : preserves P (@throw A e).
Proof. by intros w. Qed.
Lemma preserves_gets {A} (f : world → A) : preserves P (gets f).
Proof. by intros w. Qed.
Lemma preserves_lift {A} (r : result A) : preserves P (lift r).
Proof. by intros w. Qed.

Lemma preserves_bind {A B} (m : M A) (k : A → M B) :
  preserves P m → (∀ a, preserves P (k a)) → preserves P (bind m k).
Proof.
  intros Hm Hk w Hw. unfold bind. specialize (Hm w Hw).
  destruct (m w) as [[a|e] w']; [by apply Hk|done].
Qed.

Lemma preserves_attempt {A} (m : M A) : preserves P m → preserves P (attempt m).
Proof.
  intros Hm w Hw. unfold attempt. specialize (Hm w Hw). by destruct (m w).
Qed.

Lemma preserves_set_kernelClients f : preserves P (modify (set_kernelClients f)).
Proof. by intros w. Qed.
Lemma preserves_set_promises f : preserves P (modify (set_promises f)).
Proof. by intros w. Qed.
Lemma preserves_set_next_ref n : preserves P (modify (set_next_ref n)).
Proof. by intros w. Qed.
Lemma preserves_set_jobs f : preserves P (modify (set_jobs f)).
Proof. by intros w. Qed.
Lemma preserves_set_timers f : preserves P (modify (set_timers f)).
Proof. by intros w. Qed.
Lemma preserves_set_listeners f : preserves P (modify (set_listeners f)).
Proof. by intros w. Qed.
Lemma preserves_set_calls f : preserves P (modify (set_calls f)).
Proof. by intros w. Qed.
Lemma preserves_set_logs f : preserves P (modify (set_logs f)).
Proof. by intros w. Qed.
Lemma preserves_set_cuid_count n : preserves P (modify (set_cuid_count n)).
Proof. by intros w. Qed.
Lemma preserves_set_upstream f : preserves P (modify (set_upstream f)).
Proof. by intros w. Qed.
Lemma preserves_cancel_behind q : preserves P (cancel_behind q).
Proof.
  intros w. unfold cancel_behind, modify, holds. cbn.
  by destruct (upstream w !! q) as [[]|].
Qed.

Create HintDb preserves discriminated.
Hint Resolve preserves_ret preserves_throw preserves_gets preserves_lift
  preserves_set_kernelClients preserves_set_promises preserves_set_next_ref
  preserves_set_jobs preserves_set_timers preserves_set_listeners preserves_set_calls
  preserves_set_logs preserves_set_cuid_count preserves_set_upstream
  preserves_cancel_behind : preserves.

Ltac preserves_auto :=
  repeat first
    [ solve [auto with preserves]
    | apply preserves_bind; [|intros ?]
    | apply preserves_attempt
    | match goal with
      | |- preserves _ (match ?x with _ => _ end) => destruct x
      | |- preserves _ (if ?b then _ else _) => destruct b
      | |- preserves _ (let _ := _ in _) => cbv zeta
      end ].

Lemma preserves_replace extension data property :
  preserves P (replacePropertyWithTemporaryFile extension data property).
Proof.
  intros w Hw. destruct (truthy (member data property)) eqn:Htruthy.
  - rewrite replace_saves by done. cbn. apply P_served; [apply tmp_path_fresh| |done].
    apply route_key_fresh.
  - rewrite replace_skips by done. done.
Qed.
Hint Resolve preserves_replace : preserves.

Lemma preserves_displayDataTransform event : preserves P (displayDataTransform event).
Proof. unfold displayDataTransform. preserves_auto. Qed.
Hint Resolve preserves_displayDataTransform : preserves.

Lemma preserves_transform_all args : preserves P (transform_all args).
Proof. induction args; cbn [transform_all]; preserves_auto. Qed.
Hint Resolve preserves_transform_all : preserves.

Lemma preserves_primitives :
  (∀ level args, preserves P (log level args))
  ∧ (∀ c, preserves P (record_call c))
  ∧ (∀ st, preserves P (new_promise st))
  ∧ (∀ p o, preserves P (settle p o))
  ∧ (∀ p r, preserves P (subscribe p r))
  ∧ (∀ c name l, preserves P (client_on c name l)).
Proof.
  repeat split; intros;
    unfold log, record_call, new_promise, settle, subscribe, client_on; preserves_auto.
Qed.

Lemma preserves_log level args : preserves P (log level args).
Proof. apply preserves_primitives. Qed.
Lemma preserves_record_call c : preserves P (record_call c).
Proof. apply preserves_primitives. Qed.
Lemma preserves_new_promise st : preserves P (new_promise st).
Proof. apply preserves_primitives. Qed.
Lemma preserves_settle p o : preserves P (settle p o).
Proof. apply preserves_primitives. Qed.
Lemma preserves_subscribe p r : preserves P (subscribe p r).
Proof. apply preserves_primitives. Qed.
Lemma preserves_client_on c name l : preserves P (client_on c name l).
Proof. apply preserves_primitives. Qed.
Hint Resolve preserves_log preserves_record_call preserves_new_promise preserves_settle
  preserves_subscribe preserves_client_on : preserves.

Lemma preserves_run_listener l client args : preserves P (run_listener l client args).
Proof. destruct l; cbn [run_listener]; unfold resolve; preserves_auto. Qed.

Lemma preserves_run_handler h o : preserves P (run_handler h o).
Proof.
  destruct h; cbn [run_handler];
    unfold subscribeWindowToKernelEvents, subscribeBrowserWindowToEvent, request;
    preserves_auto.
Qed.
Hint Resolve preserves_run_listener preserves_run_handler : preserves.

Lemma preserves_run_job j : preserves P (run_job j).
Proof. unfold run_job, resolve. preserves_auto. Qed.

Lemma preserves_emit client eventName args : preserves P (emit client eventName args).
Proof.
  unfold emit. apply preserves_bind; [auto with preserves|]. intros ls.
  induction ls as [|[[c name] l] rest IH]; cbn [emit_to]; preserves_auto.
Qed.

Lemma preserves_fire t : preserves P (fire t).
Proof. unfold fire. preserves_auto. Qed.

Lemma preserves_handle r : preserves P (handle r).
Proof.
  destruct r; cbn [handle];
    unfold onCheckKernel, onCreateKernelInstance, onKillKernelInstance,
      onExecuteWithKernel, onGetAutoComplete, onIsComplete, onGetInspection, onGetStatus,
      onExecuteHidden, onEval, onInterrupt, onSavePlot, forward, getKernelInstanceById,
      then_, catch_, timeout, request;
    preserves_auto.
Qed.

Lemma preserves_drain (fuel : nat) (w w' : world) :
  holds P w → drain fuel w = Some w' → holds P w'.
Proof.
  revert w. induction fuel as [|fuel IH]; intros w Hw; cbn [drain].
  - destruct (jobs w); [|done]. by intros [= <-].
  - destruct (jobs w) as [|j rest]; [by intros [= <-]|].
    apply IH. by apply preserves_run_job.
Qed.

Lemma preserves_step (fuel : nat) (e : event) (w w' : world) :
  holds P w → step fuel e w = Some w' → holds P w'.
Proof.
  intros Hw. destruct e as [r|p o|client eventName args|ms|t]; cbn [step].
  - apply preserves_drain. by apply preserves_handle.
  - destruct (answers_call p w); [|done]. apply preserves_drain. by apply preserves_settle.
  - apply preserves_drain. by apply preserves_emit.
  - by intros [= <-].
  - destruct (is_due t w); [|done]. apply preserves_drain. by apply preserves_fire.
Qed.

Lemma preserves_run (fuel : nat) (es : list event) (w w' : world) :
  holds P w → run fuel es w = Some w' → holds P w'.
Proof.
  revert w. induction es as [|e rest IH]; intros w Hw; cbn [run]; [by intros [= <-]|].
  destruct (step fuel e w) as [w1|] eqn:Hstep; [|done].
  apply IH. by eapply preserves_step.
Qed.

End Stores.

Section Routes.
Context `{Platform}.

Lemma reachable_holds (P : gmap string value → gmap string string → Prop) (w : world) :
  (∀ fs us filepath data route,
     fs !! filepath = None → us !! route = None →
     P fs us → P (<[filepath := data]> fs) (<[route := filepath]> us)) →
  P ∅ ∅ → reachable w → holds P w.
Proof.
  intros Hserved Hempty. induction 1 as [|fuel e w w' _ IH Hstep]; [done|].
  by eapply preserves_step.
Qed.

Lemma routes_ok_served (fs : gmap string value) (us : gmap string string)
    (filepath : string) (data : value) (route : string) :
  fs !! filepath = None → us !! route = None →
  routes_ok fs us → routes_ok (<[filepath := data]> fs) (<[route := filepath]> us).
Proof.
  intros Hfile Hroute Hok route' filepath' Hlookup.
  apply lookup_insert_Some in Hlookup as [[<- <-]|[_ Hlookup]].
  - rewrite lookup_insert_eq. by eexists.
  - destruct (Hok _ _ Hlookup) as [data' Hdata]. exists data'.
    rewrite lookup_insert_ne; [done|]. by intros <-; rewrite Hfile in Hdata.
Qed.

Lemma extends_served (fs0 : gmap string value) (us0 : gmap string string)
    (fs : gmap string value) (us : gmap string string)
    (filepath : string) (data : value) (route : string) :
  fs !! filepath = None → us !! route = None →
  extends fs0 us0 fs us → extends fs0 us0 (<[filepath := data]> fs) (<[route := filepath]> us).
Proof.
  intros Hfile Hroute [Hfs Hus]. split.
  - etrans; [exact Hfs|]. by apply insert_subseteq.
  - etrans; [exact Hus|]. by apply insert_subseteq.
Qed.

(** X13. In every state that the event loop reaches, each route of the plot
    server leads to a temporary file that has been written. So [onSavePlot]
    either finds no such route, throws and does nothing, or asks for a copy of
    a file that exists, to the destination it was given. *)
Theorem saved_plot_comes_from_a_file (w : world) (url filename : string) :
  reachable w →
  match urls w !! url with
  | None => onSavePlot url filename w = (Throw (Error ("No such url: " +:+ url)), w)
  | Some tempFilename =>
      is_Some (files w !! tempFilename)
      ∧ ∃ w', onSavePlot url filename w = (Return (VPromise (next_ref w)), w')
          ∧ calls w' = calls w ++ [CopyFile tempFilename filename (next_ref w)]
          ∧ files w' = files w ∧ urls w' = urls w
  end.
Proof.
  intros Hreach.
  pose proof (reachable_holds routes_ok w routes_ok_served) as Hok.
  destruct (urls w !! url) as [tempFilename|] eqn:Hurl.
  - split.
    { eapply Hok; [|done|exact Hurl]. intros route filepath Hlookup.
      by rewrite lookup_empty in Hlookup. }
    unfold onSavePlot. destruct w as [kc pr n js ts t ls cs lg cc fs us up].
    cbn in Hurl. js_eval. eexists. split; [reflexivity|]. done.
  - unfold onSavePlot. destruct w as [kc pr n js ts t ls cs lg cc fs us up].
    cbn in Hurl. js_eval. done.
Qed.

(** X14. No event removes or replaces a temporary file or a route: what the
    plot server served before a run of the event loop, it serves after it,
    from the same file with the same content. *)
Theorem routes_are_kept (fuel : nat) (es : list event) (w w' : world) :
  run fuel es w = Some w' → files w ⊆ files w' ∧ urls w ⊆ urls w'.
Proof.
  intros Hrun.
  apply (preserves_run (extends (files w) (urls w)) (extends_served _ _) fuel es w w');
    [|done].
  by split.
Qed.

End Routes.

Section TwoPayloads.
Context `{Platform}.

(** X15. A display-data message that carries both an HTML text and a PNG
    image gets a file and a route for each: the two routes differ, the two
    files differ, the first file holds the HTML text as it came and the second
    the decoded bytes of the image. *)
Theorem payloads_get_routes_of_their_own (event : value) (html png : string) (w : world) :
  is_display_data (event_type event) = true →
  member (event_data event) "text/html" = VString html → html ≠ "" →
  member (event_data event) "image/png" = VString png → png ≠ "" →
  ∃ event' w' route1 route2 file1 file2,
    displayDataTransform event w = (Return event', w')
    ∧ member (event_data event') "text/html" = VString route1
    ∧ member (event_data event') "image/png" = VString route2
    ∧ route1 ≠ route2 ∧ file1 ≠ file2
    ∧ urls w' !! route1 = Some file1 ∧ urls w' !! route2 = Some file2
    ∧ files w' !! file1 = Some (VString html)
    ∧ files w' !! file2 = Some (VBuffer (base64_decode png)).
Proof.
  intros Htype Hhtml Hhtml_text Hpng Hpng_text.
  assert (Hpng_truthy : truthy (member (event_data event) "image/png") = true).
  { rewrite Hpng. by apply truthy_text. }
  pose proof (member_truthy_data _ _ Hpng_truthy) as Hdata.
  set (data := set_member (event_data event) "image/png" (VBuffer (base64_decode png))).
  assert (Hbuffered : buffered (event_data event) (Return data)).
  { apply buffered_some; [done|]. by rewrite Hpng. }
  destruct (transform_steps event data w Htype Hdata Hbuffered)
    as (d1 & w1 & d2 & w2 & d3 & w3 & H1 & H2 & H3 & Hresult).
  assert (Hd_html : member data "text/html" = VString html).
  { unfold data. rewrite member_set_member_ne by done. done. }
  assert (Hd_png : member data "image/png" = VBuffer (base64_decode png)).
  { unfold data. by rewrite member_set_member_eq. }
  destruct (replace_moves ".html" data "text/html" w) as
    (d1' & w1' & route1 & file1 & H1' & Hm1 & Hfresh1 & Hroute1 & Hnofile1 & Hfile1).
  { rewrite Hd_html. by apply truthy_text. }
  rewrite H1 in H1'. injection H1' as <- <-.
  destruct (replace_keeps _ _ _ _ _ _ H1) as (_ & Hsame1 & _ & _).
  destruct (replace_moves ".png" d1 "image/png" w1) as
    (d2' & w2' & route2 & file2 & H2' & Hm2 & Hfresh2 & Hroute2 & Hnofile2 & Hfile2).
  { rewrite Hsame1 by done. by rewrite Hd_png. }
  rewrite H2 in H2'. injection H2' as <- <-.
  destruct (replace_keeps _ _ _ _ _ _ H2) as (_ & Hsame2 & Hfiles2 & Hurls2).
  destruct (replace_keeps _ _ _ _ _ _ H3) as (_ & Hsame3 & Hfiles3 & Hurls3).
  exists (update_in event ["result"; "content"; "data"] d3), w3, route1, route2, file1, file2.
  split; [done|]. rewrite event_data_transformed by done.
  split; [by rewrite Hsame3, Hsame2|].
  split; [by rewrite Hsame3|].
  split; [by intros ->; rewrite Hroute1 in Hfresh2|].
  split; [by intros ->; rewrite Hfile1 in Hnofile2|].
  split; [eapply lookup_weaken; [|exact Hurls3]; eapply lookup_weaken; done|].
  split; [eapply lookup_weaken; done|].
  split.
  - eapply lookup_weaken; [|exact Hfiles3]. eapply lookup_weaken; [|exact Hfiles2].
    by rewrite Hfile1, Hd_html.
  - eapply lookup_weaken; [|exact Hfiles3]. rewrite Hfile2, Hsame1 by done. by rewrite Hd_png.
Qed.

End TwoPayloads.

Section Unreadable.
Context `{Platform}.

(** X16. A display-data message whose [image/png] field holds something that
    no buffer can be made from, such as [true] or an empty object, makes the
    transform throw before anything is saved: the listener that passes the
    event to the window throws, so nothing is sent to the window, and no file
    and no route is made. *)
Theorem unreadable_image_is_not_forwarded (w : world) (id : string) (ready c fuel : nat)
    (event : value) (rest : list value) (e : error) :
  attached w id ready c →
  is_display_data (event_type event) = true →
  truthy (member (event_data event) "image/png") = true →
  array_like (member (event_data event) "image/png") = false →
  new_Buffer (member (event_data event) "image/png") = Throw e →
  displayDataTransform event w = (Throw e, w)
  ∧ ∃ w1,
      step fuel (Emits c "iopub" (event :: rest)) w = Some w1
      ∧ calls w1 = calls w ∧ files w1 = files w ∧ urls w1 = urls w
      ∧ kernelClients w1 = kernelClients w.
Proof.
  intros Hattached Htype Hpng _ Hthrows.
  pose proof (member_truthy_data _ _ Hpng) as Hdata.
  assert (Htransform : ∀ w', displayDataTransform event w' = (Throw e, w')).
  { intros w'. apply transform_throws; [done|done|]. by apply buffered_throw. }
  split; [apply Htransform|].
  unfold step. rewrite (emit_attached _ _ _ _ _ _ Hattached).
  destruct Hattached as [_ Hq].
  destruct w as [kc pr n js ts t ls cs lg cc fs us up]. cbn in Hq. subst js.
  unfold session_listeners. js_emit. cbn [transform_all].
  rewrite bind_bind, (bind_throw _ _ _ _ _ (Htransform _)). cbn [snd]. rewrite drain_nil.
  eexists. split; [reflexivity|]. done.
Qed.

End Unreadable.

(** ** The desktop: what the requests do and never do *)

Section DesktopFacts.
Context `{Host}.
Local Open Scope desk_scope.

(** X17. [onToggleFullScreen] reads [this] inside the function it gives to
    the promise, where [this] is [undefined]: whatever window sent the
    request, no window changes its full-screen state and the promise is
    rejected with a [TypeError]. [onToggleDevTools], which reads [this] before
    it builds the promise, toggles the tools of the sender. *)
Theorem toggle_full_screen_never_toggles (this : option nat) :
  onToggleFullScreen this
  = ([], Rejected (TypeError "Cannot read property 'isFullScreen' of undefined"))
  ∧ (∀ window, onToggleDevTools (Some window)
               = ([ToggleDevTools window], Fulfilled VUndefined)).
Proof. split; [reflexivity|]. intros window. reflexivity. Qed.

Lemma prefix_app (needle rest : string) : String.prefix needle (needle +:+ rest) = true.
Proof.
  induction needle as [|c needle IH]; [by destruct rest|].
  change (String c needle +:+ rest) with (String c (needle +:+ rest)).
  cbn [String.prefix]. destruct (ascii_dec c c); [exact IH|done].
Qed.

Lemma prefix_refl (s : string) : String.prefix s s = true.
Proof.
  induction s as [|c s IH]; [done|]. cbn [String.prefix].
  destruct (ascii_dec c c); [exact IH|done].
Qed.

Lemma includes_app (needle s : string) : includes needle (s +:+ needle) = true.
Proof.
  induction s as [|c s IH].
  - change ("" +:+ needle) with needle. destruct needle as [|a needle]; [done|].
    cbn [includes]. by rewrite prefix_refl.
  - change (String c s +:+ needle) with (String c (s +:+ needle)).
    cbn [includes]. rewrite IH. apply orb_true_r.
Qed.

(** X18. The name that goes to the main window after the save dialog always
    contains [.pdf]: a name that contains it anywhere is passed as it is, any
    other gets [.pdf] appended; a cancelled dialog, which passes [undefined],
    makes the window receive the name [undefined.pdf]. *)
Theorem pdf_name_contains_the_extension (destfile : value) :
  (∃ sent,
     onPDF_chosen destfile = ([SendToWindow "mainWindow" "pdf" [sent]], Return tt)
     ∧ includes ".pdf" (to_string sent) = true
     ∧ (includes ".pdf" (to_string destfile) = true → sent = destfile)
     ∧ (includes ".pdf" (to_string destfile) = false
        → sent = VString (to_string destfile +:+ ".pdf")))
  ∧ onPDF_chosen VUndefined
    = ([SendToWindow "mainWindow" "pdf" [VString "undefined.pdf"]], Return tt).
Proof.
  split; [|reflexivity]. unfold onPDF_chosen.
  destruct (includes ".pdf" (to_string destfile)) eqn:Hpdf.
  - exists destfile. done.
  - eexists. split; [reflexivity|]. split; [|done]. cbn [to_string]. apply includes_app.
Qed.

Lemma each_tell_filter {A} (f : A → action) (keep : A → bool) (xs : list A) :
  each (λ x, if keep x then tell (f x) else pure tt) xs
  = (map f (List.filter keep xs), Return tt).
Proof.
  induction xs as [|x rest IH]; [done|]. cbn [each List.filter].
  rewrite IH. by destruct (keep x).
Qed.

Lemma each_tell {A} (f : A → action) (xs : list A) :
  each (λ x, tell (f x)) xs = (map f xs, Return tt).
Proof. induction xs as [|x rest IH]; [done|]. cbn [each]. by rewrite IH. Qed.

(** X19. An action shared by a window goes, marked with the name of that
    window, to every other window once and in the order of the names, and not
    to the window that shared it; shared by something that is not a window,
    it goes to every window, marked with no name. *)
Theorem shared_action_skips_the_sender (sender : nat) (action : object) :
  (∀ senderName,
     senderName ∈ getWindowNames → getByName senderName = Some sender →
     (∀ name, name ∈ getWindowNames → getByName name = Some sender → name = senderName) →
     let shared := VObject (set_prop action "senderName" (VString senderName)) in
     onShareAction (Some sender) action
     = (map (λ name, SendToWindow name "sharedAction" [shared])
          (List.filter (λ name, negb (String.eqb name senderName)) getWindowNames),
        Return tt))
  ∧ ((∀ name, name ∈ getWindowNames → getByName name ≠ Some sender) →
     let shared := VObject (set_prop action "senderName" VUndefined) in
     onShareAction (Some sender) action
     = (map (λ name, SendToWindow name "sharedAction" [shared]) getWindowNames, Return tt)).
Proof.
  split.
  - intros senderName Hin Hsender Hunique shared. unfold onShareAction.
    set (is_sender := λ name, match getByName name with
                              | Some window => bool_decide (Some sender = Some window)
                              | None => false
                              end).
    assert (Hfind : List.find is_sender getWindowNames = Some senderName).
    { destruct (List.find is_sender getWindowNames) as [name|] eqn:Hfound.
      - apply find_some in Hfound as [Hname Hmatch]. f_equal. apply Hunique.
        + by apply list_elem_of_In.
        + unfold is_sender in Hmatch. destruct (getByName name) as [window|]; [|done].
          apply bool_decide_eq_true in Hmatch. by injection Hmatch as ->.
      - apply list_elem_of_In in Hin. pose proof (find_none _ _ Hfound _ Hin) as Hno.
        unfold is_sender in Hno. rewrite Hsender in Hno.
        by rewrite bool_decide_eq_false in Hno. }
    rewrite Hfind. fold shared.
    rewrite (each_tell_filter (λ name, SendToWindow name "sharedAction" [shared])
               (λ name, negb (bool_decide (Some name = Some senderName)))).
    f_equal. f_equal. apply List.filter_ext. intros name. f_equal.
    destruct (String.eqb name senderName) eqn:Heq.
    + apply String.eqb_eq in Heq as ->. by apply bool_decide_eq_true.
    + apply String.eqb_neq in Heq. apply bool_decide_eq_false. by intros [= ->].
  - intros Hnone shared. unfold onShareAction.
    set (is_sender := λ name, match getByName name with
                              | Some window => bool_decide (Some sender = Some window)
                              | None => false
                              end).
    assert (Hfind : List.find is_sender getWindowNames = None).
    { destruct (List.find is_sender getWindowNames) as [name|] eqn:Hfound; [|done].
      apply find_some in Hfound as [Hname Hmatch]. exfalso.
      apply list_elem_of_In in Hname. apply (Hnone name Hname).
      unfold is_sender in Hmatch. destruct (getByName name) as [window|]; [|done].
      apply bool_decide_eq_true in Hmatch. by injection Hmatch as ->. }
    rewrite Hfind. fold shared.
    rewrite (each_tell_filter (λ name, SendToWindow name "sharedAction" [shared])
               (λ name, negb (bool_decide (Some name = None)))).
    f_equal. f_equal. clear. induction getWindowNames as [|name rest IH]; [done|].
    cbn [List.filter]. rewrite bool_decide_eq_false_2 by done. cbn [negb]. by f_equal.
Qed.

(** The four entry points. *)
Lemma window_entry_own (key : string) :
  key ∈ object_keys windowUrls ↔ ∃ file, window_entry key = OwnEntry file.
Proof.
  unfold window_entry. rewrite get_own_is_Some.
  destruct (get_own windowUrls key) as [file|].
  - split; [by eexists|]. by eexists.
  - split; [by intros [? ?]|]. intros [file Hfile].
    by destruct (bool_decide (key ∈ inherited_names)).
Qed.

(** X20. [onCreateWindow] creates a window only for one of the four entry
    points [mainWindow], [startupWindow], [designWindow] and
    [freeTabsOnlyWindow], and then from the page of that entry point below the
    directory of the browser files; for any other [url], and for none, it
    throws and creates nothing. *)
Theorem window_is_created_for_entry_points_only (name : string) (options : object) :
  let url := get_prop options "url" in
  (truthy url = true → to_string url ∈ object_keys windowUrls →
   ∃ file,
     get_own windowUrls (to_string url) = Some (VString file)
     ∧ onCreateWindow name options
       = (CreateWindow "create" name
            (set_prop options "url" (VString ("file://" +:+ path_join staticFileDir file)))
          :: (if is_true argv_dev then [OpenDevTools (created name)] else []),
          Return (created name)))
  ∧ (truthy url = false ∨ to_string url ∉ object_keys windowUrls →
     ∃ e, onCreateWindow name options = ([], Throw e)).
Proof.
  intros url. subst url. unfold onCreateWindow. split.
  - intros -> Hentry. cbn [negb].
    unfold window_entry. apply get_own_is_Some in Hentry as [file Hfile]. rewrite Hfile.
    assert (Hstring : ∃ text, file = VString text).
    { apply get_own_elem_of in Hfile. unfold windowUrls in Hfile.
      repeat (apply elem_of_cons in Hfile as [[= _ ->]|Hfile]; [by eexists|]).
      by apply elem_of_nil in Hfile. }
    destruct Hstring as [text ->]. exists text. split; [done|].
    cbn [to_string]. by destruct (is_true argv_dev).
  - intros [-> | Hnone]; [by eexists|].
    destruct (truthy (get_prop options "url")); cbn [negb]; [|by eexists].
    destruct (window_entry (to_string (get_prop options "url"))) as [file| |] eqn:Hentry;
      [|by eexists|by eexists].
    exfalso. apply Hnone. apply window_entry_own. by eexists.
Qed.

Lemma get_own_pick (obj : object) (keys : list string) (key : string) :
  get_own (lodash_pick obj keys) key
  = if bool_decide (key ∈ keys) then get_own obj key else None.
Proof.
  induction keys as [|key' rest IH]; cbn [lodash_pick].
  - by rewrite bool_decide_eq_false_2 by apply not_elem_of_nil.
  - destruct (decide (key' = key)) as [->|Hne].
    + rewrite bool_decide_eq_true_2 by left.
      destruct (get_own obj key) as [v|] eqn:Hkey.
      * cbn [get_own]. by rewrite String.eqb_refl.
      * rewrite IH. by destruct (bool_decide (key ∈ rest)).
    + assert (Hrest : bool_decide (key ∈ key' :: rest) = bool_decide (key ∈ rest)).
      { apply bool_decide_ext. rewrite elem_of_cons.
        split; [by intros [->|Hin]|by right]. }
      rewrite Hrest. destruct (get_own obj key') as [v|]; [|exact IH].
      cbn [get_own]. apply String.eqb_neq in Hne. by rewrite Hne.
Qed.

Lemma get_own_dialog_options (options : value) (keys : list string) (key : string) :
  get_own (dialog_options options keys) key
  = if bool_decide (key ∈ keys) then
      if String.eqb key "defaultPath"
      then (λ v, if truthy v then resolveHomeDirectory v else v)
             <$> get_own (object_or_empty options) key
      else get_own (object_or_empty options) key
    else None.
Proof.
  unfold dialog_options. set (picked := lodash_pick (object_or_empty options) keys).
  pose proof (get_own_pick (object_or_empty options) keys key) as Hkey.
  pose proof (get_own_pick (object_or_empty options) keys "defaultPath") as Hpath.
  fold picked in Hkey, Hpath. unfold get_prop.
  destruct (String.eqb key "defaultPath") eqn:Heq.
  - apply String.eqb_eq in Heq as ->.
    destruct (get_own picked "defaultPath") as [v|] eqn:Hv; cbn [default]; unfold id.
    + destruct (truthy v) eqn:Htruthy.
      * rewrite get_own_set_prop_eq.
        destruct (bool_decide ("defaultPath" ∈ keys)); [|done].
        rewrite <- Hkey. cbn. by rewrite Htruthy.
      * rewrite Hv. destruct (bool_decide ("defaultPath" ∈ keys)); [|done].
        rewrite <- Hkey. cbn. by rewrite Htruthy.
    + cbn [truthy]. rewrite Hv. destruct (bool_decide ("defaultPath" ∈ keys)); [|done].
      by rewrite <- Hkey.
  - apply String.eqb_neq in Heq.
    destruct (truthy (default VUndefined (get_own picked "defaultPath"))); [|done].
    by rewrite get_own_set_prop_ne.
Qed.

(** X21. The dialogs are asked with the picked options only: a property
    outside the list never reaches the dialog, [properties] never reaches
    the save dialog, the title and the filters arrive as they were given,
    and a default path that holds something arrives resolved against the
    home directory. *)
Theorem dialog_receives_the_picked_options (options : value) :
  ∃ open save,
    onOpenDialog options = ShowOpenDialog open
    ∧ onSaveDialog options = ShowSaveDialog save
    ∧ (∀ key, key ∉ ["title"; "defaultPath"; "properties"; "filters"] →
         get_own open key = None ∧ get_own save key = None)
    ∧ get_own save "properties" = None
    ∧ get_own open "properties" = get_own (object_or_empty options) "properties"
    ∧ (∀ key, key ∈ ["title"; "filters"] →
         get_own open key = get_own (object_or_empty options) key
         ∧ get_own save key = get_own (object_or_empty options) key)
    ∧ get_own open "defaultPath" = get_own save "defaultPath"
    ∧ get_own open "defaultPath"
      = (λ v, if truthy v then resolveHomeDirectory v else v)
          <$> get_own (object_or_empty options) "defaultPath".
Proof.
  eexists _, _. split; [reflexivity|]. split; [reflexivity|].
  split.
  { intros key Hkey. rewrite !get_own_dialog_options.
    rewrite bool_decide_eq_false_2 by done.
    rewrite bool_decide_eq_false_2; [done|].
    intros Hin. apply Hkey.
    repeat (apply elem_of_cons in Hin as [->|Hin]);
      [by left|right; by left|do 3 right; by left|by apply elem_of_nil in Hin]. }
  rewrite !get_own_dialog_options.
  split; [done|]. split; [done|].
  split; [|done].
  intros key Hkey. rewrite !get_own_dialog_options.
  repeat (apply elem_of_cons in Hkey as [->|Hkey]); [done|done|by apply elem_of_nil in Hkey].
Qed.

(** X22. [getPkg] never reads the package file of its own directory: it
    returns what the nearest directory strictly above holds, the root last, as
    long as that reads as something, and [false] when none does. So
    [onCheckForUpdates] asks the updater only for a version that it found
    there, and otherwise logs an error and resolves. *)
Theorem package_is_found_above (dir : list string) :
  (truthy (getPkg_above dir) = true →
   ∃ k, (0 < k ≤ length dir)%nat
     ∧ getPkg_above dir = getJSONFileSafeSync (drop k dir)
     ∧ ∀ j, (0 < j < k)%nat → truthy (getJSONFileSafeSync (drop j dir)) = false)
  ∧ (truthy (getPkg_above dir) = false →
     getPkg_above dir = VBool false
     ∧ ∀ j, (0 < j ≤ length dir)%nat → truthy (getJSONFileSafeSync (drop j dir)) = false)
  ∧ ((onCheckForUpdates
      = ([UpdateTo (member getPkg "version")], update (member getPkg "version"))
      ∧ truthy getPkg = true
      ∧ truthy (member getPkg "version") = true)
     ∨ ∃ complaint, onCheckForUpdates = ([LogLine "error" [complaint]], Fulfilled VUndefined)).
Proof.
  split; [|split].
  - induction dir as [|name parent IH]; cbn [getPkg_above]; [done|].
    destruct (truthy (getJSONFileSafeSync parent)) eqn:Hparent.
    + intros _. exists 1%nat. cbn [length drop]. rewrite drop_0.
      split; [lia|]. split; [done|]. intros j Hj. lia.
    + intros Hfound. destruct (IH Hfound) as (k & Hk & Hpkg & Hnearer).
      exists (S k). cbn [length drop]. split; [lia|]. split; [done|].
      intros [|[|j]] Hj; [lia| |].
      * cbn [drop]. by rewrite drop_0.
      * cbn [drop]. apply (Hnearer (S j)). lia.
  - induction dir as [|name parent IH]; cbn [getPkg_above].
    + intros _. split; [done|]. cbn [length]. intros j Hj. lia.
    + destruct (truthy (getJSONFileSafeSync parent)) eqn:Hparent; [congruence|].
      intros Hnone. destruct (IH Hnone) as [Hfalse Hall]. split; [done|].
      intros [|[|j]] Hj; [lia| |].
      * cbn [drop]. by rewrite drop_0.
      * cbn [drop length] in Hj |- *. apply (Hall (S j)). lia.
  - unfold onCheckForUpdates.
    destruct (truthy getPkg); cbn [negb]; [|right; by eexists].
    destruct (truthy (member getPkg "version")); cbn [negb]; [by left|right; by eexists].
Qed.

Lemma each_kills : each (λ child, tell (KillProcess child)) getChildren
                   = (map KillProcess getChildren, Return tt).
Proof. apply each_tell. Qed.

Lemma each_reports :
  ∃ reports,
    each report_kill getChildren = (reports, Return tt)
    ∧ length reports = length getChildren
    ∧ Forall (λ a, ∃ how, a = LogLine "info" ["process"; how]) reports.
Proof.
  induction getChildren as [|child rest (reports & Hrest & Hlength & Hall)].
  - exists []. done.
  - cbn [each]. rewrite Hrest. unfold report_kill, dlog, tell.
    destruct (kill child); eexists (_ :: reports); cbn;
      (split; [reflexivity|]; split; [by f_equal|]; constructor; [by eexists|done]).
Qed.

(** X23. Quitting does not depend on the kills: every child process is asked
    to die, and whether those requests succeed or fail the application is
    told to quit, once and after all of them; on linux the process then
    exits with code 0. *)
Theorem quit_follows_the_kills :
  ∃ reports,
    quitApplication
    = (LogLine "info" ["killing all children processes"]
       :: map KillProcess getChildren ++ reports
       ++ [LogLine "info" ["quiting"]; QuitApp]
       ++ (if String.eqb process_platform "linux"
           then [LogLine "info" ["forcing quit on linux"]; ExitProcess 0] else []),
       Return tt)
    ∧ length reports = length getChildren
    ∧ Forall (λ a, ∃ how, a = LogLine "info" ["process"; how]) reports.
Proof.
  destruct each_reports as (reports & Hreports & Hlength & Hall).
  exists reports. split; [|done].
  unfold quitApplication. rewrite each_kills, Hreports.
  unfold dlog, tell, and_then, pure. cbn [app].
  by destruct (String.eqb process_platform "linux").
Qed.

(** *** Starting up *)

Lemma stat_search_truthy (arg : string) : truthy (stat_search arg) = true.
Proof. done. Qed.

Lemma compact_stat_search (args : list string) :
  lodash_compact (map stat_search args) = map stat_search args.
Proof.
  unfold lodash_compact. induction args as [|arg rest IH]; [done|].
  cbn [map List.filter]. rewrite stat_search_truthy. by f_equal.
Qed.

(** X24. With file arguments on the command line, the first one alone
    decides how the application starts, and the branch for "no files found"
    is never taken. When the first file cannot be examined, reading the
    directory flag of its missing stats throws: after the stats of all the
    arguments have been asked for, the error is logged, no window is created
    and the requests of the windows are never attached. *)
Theorem first_file_argument_decides (arg : string) (rest : list string) :
  start_with_files (map stat_search (arg :: rest)) = start_with_files [stat_search arg]
  ∧ (truthy argv_design = false → argv_files = arg :: rest →
     (∃ e, getStats arg = Rejected e) →
     onReady
     = (LogLine "info" ["onReady"] :: map StatFile (arg :: rest) ++ [LogLine "error" []],
        Return tt)).
Proof.
  split.
  - unfold start_with_files. by rewrite !compact_stat_search.
  - intros Hdesign Hfiles [e Hstats]. unfold onReady. rewrite Hdesign, Hfiles.
    cbn [length Nat.ltb Nat.leb]. rewrite each_tell.
    unfold start_with_files. rewrite compact_stat_search. cbn [map head].
    unfold stat_search at 1 2. rewrite Hstats. cbn.
    by rewrite <- app_assoc.
Qed.

Lemma and_then_actions {A B} (m : D A) (k : A → D B) (a : action) :
  a ∈ (and_then m k).1 → a ∈ m.1 ∨ ∃ x, a ∈ (k x).1.
Proof.
  unfold and_then. destruct m as [acts [x|e]]; cbn [fst]; [|by left].
  destruct (k x) as [acts' r] eqn:Hk. cbn [fst].
  intros [Hin|Hin]%elem_of_app; [by left|]. right. exists x. by rewrite Hk.
Qed.

Ltac no_such_action :=
  repeat first
    [ progress cbn [fst pure fail tell dlog] in *
    | match goal with
      | Hin : _ ∈ (and_then _ _).1 |- _ => apply and_then_actions in Hin as [Hin|[? Hin]]
      | Hin : _ ∈ (match ?x with _ => _ end).1 |- _ => destruct x
      | Hin : _ ∈ (if ?b then _ else _).1 |- _ => destruct b
      | Hin : _ ∈ [] |- _ => by apply elem_of_nil in Hin
      | Hin : _ ∈ _ :: _ |- _ => apply elem_of_cons in Hin as [Hin|Hin]; [discriminate Hin|]
      end ].

Lemma start_never_attaches :
  (AttachIpcMainEvents ∉ fst startMainWindow)
  ∧ (AttachIpcMainEvents ∉ fst startStartupWindow)
  ∧ (∀ filename stats, AttachIpcMainEvents ∉ (startMainWindowWithOpenFile filename stats).1)
  ∧ (∀ filename, AttachIpcMainEvents ∉ (startMainWindowWithWorkingDirectory filename).1).
Proof.
  assert (Hstartup : AttachIpcMainEvents ∉ fst startStartupWindow).
  { intros Hin. unfold startStartupWindow, preloadMainWindow, createMainWindow in Hin.
    no_such_action. }
  split; [|split; [done|split]].
  - intros Hin.
    unfold startMainWindow, getMainWindow, createMainWindow, attachApplicationMenu in Hin.
    no_such_action.
  - intros filename stats Hin.
    unfold startMainWindowWithOpenFile, createMainWindow, attachApplicationMenu in Hin.
    no_such_action.
  - intros filename Hin.
    unfold startMainWindowWithWorkingDirectory, createMainWindow, attachApplicationMenu in Hin.
    no_such_action. all: try done.
Qed.

(** X25. [onReady] never fails: what goes wrong while the first window is
    started is logged and the promise still resolves. The requests of the
    windows are attached when the start succeeded, as the last thing, and
    are not attached at all when it failed. With [--design] the design
    window is created and shown, whatever else the command line says. *)
Theorem ready_attaches_after_a_start :
  (∃ acts,
     onReady = (acts, Return tt)
     ∧ ((last acts = Some AttachIpcMainEvents)
        ∨ (last acts = Some (LogLine "error" []) ∧ AttachIpcMainEvents ∉ acts)))
  ∧ (truthy argv_design = true →
     onReady
     = ([LogLine "info" ["onReady"];
         CreateWindow "create" "designWindow" [("url", VString (window_url "designWindow"))];
         ShowWindow (created "designWindow");
         AttachIpcMainEvents],
        Return tt)).
Proof.
  split; [|intros Hdesign; unfold onReady; by rewrite Hdesign].
  destruct start_never_attaches as (Hmain & Hstartup & Hopen & Hdir).
  unfold onReady.
  set (start := if truthy argv_design then _ else _).
  assert (Hstart : AttachIpcMainEvents ∉ start.1).
  { subst start. intros Hin.
    destruct (truthy argv_design); [no_such_action|].
    destruct (0 <? length argv_files)%nat; [|by destruct argv_startup as [| |[]| | | | | |]].
    apply and_then_actions in Hin as [Hin|[_ Hin]].
    - rewrite each_tell in Hin. cbn [fst] in Hin.
      apply list_elem_of_fmap in Hin as (arg & Harg & _). discriminate Harg.
    - unfold start_with_files in Hin.
      destruct (head _) as [file|]; [|no_such_action; by apply Hstartup].
      apply and_then_actions in Hin as [Hin|[isDirectory Hin]];
        [by apply elem_of_nil in Hin|].
      destruct (truthy isDirectory); [by eapply Hdir|by eapply Hopen]. }
  destruct start as [acts [v|e]]; cbn [fst] in Hstart.
  - exists (LogLine "info" ["onReady"] :: acts ++ [AttachIpcMainEvents]).
    split; [done|]. left. rewrite app_comm_cons. by rewrite last_snoc.
  - exists (LogLine "info" ["onReady"] :: acts ++ [LogLine "error" []]).
    split; [done|]. right.
    split; [rewrite app_comm_cons; by rewrite last_snoc|].
    intros [Hin|Hin]%elem_of_cons; [discriminate Hin|].
    apply elem_of_app in Hin as [Hin|Hin]; [done|].
    apply elem_of_cons in Hin as [Hin|Hin]; [discriminate Hin|by apply elem_of_nil in Hin].
Qed.

End DesktopFacts.

(** ** System facts *)

Lemma system_facts_delay : Z.to_N (systemFactTimeout * second) = 120000%N.
Proof. reflexivity. Qed.

Lemma system_facts_message :
  "Unable to call " +:+ quote +:+ "get system facts" +:+ quote
  +:+ " in under " +:+ to_string (VNumber systemFactTimeout) +:+ " seconds"
  = "Unable to call " +:+ quote +:+ "get system facts" +:+ quote
    +:+ " in under 120 seconds".
Proof. reflexivity. Qed.

Section SystemFactsNeverLate.
Context `{Platform} `{Host}.

(** X26. The promise of [onGetSystemFacts] is fulfilled with the three facts
    as soon as the reactions have run, long before its timer of 120 seconds
    is due; when that timer fires, the promise keeps the facts. *)
Theorem system_facts_never_time_out (w : world) (fuel : nat) (ms : N) :
  reachable w → (1 ≤ fuel)%nat →
  let facts := VObject [ ("homedir", VString homedir);
                         ("pathSep", VString (String path_sep ""));
                         ("delimiter", VString path_delimiter) ] in
  let timed := S (next_ref w) in
  let message := "Unable to call " +:+ quote +:+ "get system facts" +:+ quote
                 +:+ " in under 120 seconds" in
  ∃ w1,
    (onGetSystemFacts w).1 = Return (VPromise timed)
    ∧ drain fuel (onGetSystemFacts w).2 = Some w1
    ∧ promises w1 !! timed = Some (Settled (Fulfilled facts))
    ∧ timers w1 = timers w ++ [Timer (now w + 120000) timed message]
    ∧ calls w1 = calls w
    ∧ ∃ w2 w3,
        step fuel (Passes (120000 + ms)) w1 = Some w2
        ∧ step fuel (Fires (Timer (now w + 120000) timed message)) w2 = Some w3
        ∧ promises w3 !! timed = Some (Settled (Fulfilled facts)).
Proof.
  intros Hreach Hfuel facts timed message.
  destruct (reachable_invariant w Hreach) as (Hok & _ & Hq).
  pose proof (heap_ok_fresh w (next_ref w) Hok ltac:(lia)) as Hn0.
  pose proof (heap_ok_fresh w (S (next_ref w)) Hok ltac:(lia)) as Hn1.
  subst facts timed message.
  destruct w as [kc pr n js ts t ls cs lg cc fs us up].
  cbn in Hn0, Hn1, Hq. subst js.
  destruct fuel as [|fuel]; [lia|].
  cbn [next_ref now timers calls].
  unfold onGetSystemFacts. rewrite system_facts_message.
  js_unfold. rewrite system_facts_delay. js_eval.
  eexists. split; [reflexivity|]. split; [reflexivity|].
  cbn [promises timers calls].
  split; [by heap_lookups|]. split; [reflexivity|]. split; [done|].
  eexists _, _. unfold step at 1. split; [reflexivity|].
  unfold step, is_due. world_norm. cbn [deadline].
  rewrite existsb_app. cbn [existsb]. rewrite timer_eqb_refl, orb_true_r. cbn [orb andb].
  assert ((t + 120000 <=? t + (120000 + ms))%N = true) as -> by (apply N.leb_le; lia).
  js_eval. cbn [timed timeout_message]. js_eval.
  split; [reflexivity|]. cbn [promises]. by heap_lookups.
Qed.

End SystemFactsNeverLate.

(** ** Runs of the further properties *)

Lemma plotted_world_reachable : reachable plotted_world.
Proof.
  apply (run_reachable 8 (ready_events ++ [Emits 0 "iopub" [png_event]]) empty_world);
    [apply reachable_start|].
  vm_compute. reflexivity.
Qed.

Lemma ready_world_attached : attached ready_world "c0" 0 0.
Proof. split; vm_compute; reflexivity. Qed.

(** A run of X4: [getStatus] on the ready session [c0]. *)
Lemma request_goes_to_the_ready_client_witness :
  ∃ w1,
    (handle (GetStatus [("instanceId", VString "c0")]) ready_world).1 = Return (VPromise 5)
    ∧ step 4 (Calls (GetStatus [("instanceId", VString "c0")])) ready_world = Some w1
    ∧ calls w1 = calls ready_world ++ [ClientRequest 0 "getStatus" [] 6]
    ∧ kernelClients w1 = kernelClients ready_world
    ∧ promises w1 !! 5 = Some (Pending [])
    ∧ ∀ o, ∃ w2,
        step 4 (Settles 6 o) w1 = Some w2
        ∧ promises w2 !! 5 = Some (Settled o)
        ∧ calls w2 = calls w1
        ∧ kernelClients w2 = kernelClients ready_world.
Proof.
  apply (request_goes_to_the_ready_client ready_world
           (GetStatus [("instanceId", VString "c0")]) "c0" "getStatus" [] 0 0 4).
  - apply ready_world_reachable.
  - reflexivity.
  - reflexivity.
  - reflexivity.
  - vm_compute. reflexivity.
  - vm_compute. reflexivity.
  - lia.
Defined.

(** A run of X5: [getStatus] right after the creation of [c0]. *)
Lemma request_waits_for_readiness_witness :
  let r := GetStatus [("instanceId", VString "c0")] in
  ∃ w1 w2 w3 w4 returned asked,
    step 4 (Calls (CreateKernelInstance python3_options)) empty_world = Some w1
    ∧ (handle r w1).1 = Return (VPromise returned)
    ∧ step 4 (Calls r) w1 = Some w2
    ∧ calls w2 = calls w1
    ∧ step 4 (Settles 1 (Fulfilled (VClient 0))) w2 = Some w3
    ∧ calls w3 = calls w1
    ∧ promises w3 !! returned = Some (Pending [])
    ∧ step 4 (Emits 0 "ready" []) w3 = Some w4
    ∧ calls w4 = calls w1 ++ [ClientRequest 0 "getStatus" [] asked]
    ∧ ∀ o, ∃ w5,
        step 4 (Settles asked o) w4 = Some w5
        ∧ promises w5 !! returned = Some (Settled o).
Proof.
  intros r.
  apply (request_waits_for_readiness python3_options empty_world r "getStatus" [] 0 4).
  - reflexivity.
  - apply reachable_start.
  - apply Forall_nil_2.
  - reflexivity.
  - reflexivity.
  - reflexivity.
  - lia.
Defined.

Lemma creating_world_under_construction : under_construction creating_world "c0" 0 1.
Proof.
  exists 2%nat, 3%nat, []. repeat split; try (vm_compute; reflexivity); discriminate.
Qed.

(** A run of X6: the creation of the client of [c0] succeeds. *)
Lemma creation_wires_the_client_witness :
  ∃ w1,
    step 4 (Settles 1 (Fulfilled (VClient 0))) creating_world = Some w1
    ∧ attached w1 "c0" 0 0
    ∧ listeners w1 = listeners creating_world ++ session_listeners "c0" 0 0
    ∧ kernelClients w1 = kernelClients creating_world
    ∧ calls w1 = calls creating_world
    ∧ (∃ waiting, promises w1 !! 0 = Some (Pending waiting)).
Proof.
  apply (creation_wires_the_client creating_world "c0" 0 1 0 4).
  - apply creating_world_under_construction.
  - apply Forall_nil_2.
  - lia.
Defined.

(** A run of X7: the client of [c0] closes with code 0. *)
Lemma client_close_removes_the_session_witness :
  ∃ w1,
    step 4 (Emits 0 "close" [VNumber 0; VNull]) ready_world = Some w1
    ∧ kernelClients w1 = delete "c0" (kernelClients ready_world)
    ∧ calls w1 = calls ready_world ++ [WindowSend "mainWindow" "close" [VNumber 0; VNull]]
    ∧ promises w1 = promises ready_world
    ∧ (onKillKernelInstance "c0" w1).1 = Throw (Error "Kernel with that id does not exist.").
Proof.
  apply (client_close_removes_the_session ready_world "c0" 0 0 4 [VNumber 0; VNull]).
  - apply ready_world_attached.
  - reflexivity.
  - apply (bool_decide_eq_false_1 _). reflexivity.
Defined.

(** A run of X8: the client of [c0] emits [ready] a second time. *)
Lemma ready_settles_once_witness :
  step 4 (Emits 0 "ready" []) ready_world
  = Some (set_logs (λ l, l ++ [("info", ["new python kernel process is ready"; "c0";
                                         "process"])]) ready_world).
Proof.
  apply (ready_settles_once ready_world "c0" 0 0 4 (Fulfilled (VClient 0)) []).
  - apply ready_world_attached.
  - vm_compute. reflexivity.
Defined.

(** A run of X9: a status message on [iopub]. *)
Lemma kernel_events_reach_the_window_witness :
  ∃ w1,
    step 4 (Emits 0 "iopub" [status_event]) ready_world = Some w1
    ∧ calls w1 = calls ready_world ++ [WindowSend "mainWindow" "iopub" [status_event]]
    ∧ promises w1 = promises ready_world
    ∧ ("iopub" ≠ "close" → kernelClients w1 = kernelClients ready_world).
Proof.
  apply (proj1 (kernel_events_reach_the_window ready_world "c0" 0 0 4 "iopub" [status_event]
                  ready_world_attached eq_refl)).
  unfold kernel_channels. right. left.
Defined.

(** A run of X10: [c0] is killed twice, the first kill failing. *)
Lemma second_kill_reaches_the_client_witness :
  ∃ w1,
    step 4 (Calls (KillKernelInstance "c0")) ready_world = Some w1
    ∧ calls w1 = calls ready_world ++ [ClientRequest 0 "kill" [] 7]
    ∧ ∀ o, ∃ w2 w3 killed second,
        step 4 (Settles 7 o) w1 = Some w2
        ∧ (handle (KillKernelInstance "c0") w2).1 = Return (VPromise killed)
        ∧ step 4 (Calls (KillKernelInstance "c0")) w2 = Some w3
        ∧ calls w3
          = calls ready_world
            ++ [ClientRequest 0 "kill" [] 7; ClientRequest 0 "kill" [] second]
        ∧ 7%nat ≠ second.
Proof.
  apply (second_kill_reaches_the_client ready_world "c0" 0 0 4).
  - apply ready_world_reachable.
  - vm_compute. reflexivity.
  - vm_compute. reflexivity.
  - lia.
Defined.

(** A run of X11: the client answers the autocompletion in time. *)
Lemma autocomplete_answer_beats_the_timer_witness :
  let options := [("instanceId", VString "c0")] in
  let tm := Timer 5000 6 "AutoComplete failed to finish in 5 seconds" in
  ∃ w1,
    (onGetAutoComplete options (VString "im") (VNumber 2) ready_world).1
    = Return (VPromise 6)
    ∧ step 4 (Calls (GetAutoComplete options (VString "im") (VNumber 2))) ready_world
      = Some w1
    ∧ ∀ o ms, (5000 ≤ ms)%N → ∃ w2 w3 w4,
        step 4 (Settles 7 o) w1 = Some w2
        ∧ promises w2 !! 6 = Some (Settled o)
        ∧ step 4 (Passes ms) w2 = Some w3
        ∧ step 4 (Fires tm) w3 = Some w4
        ∧ promises w4 !! 6 = Some (Settled o)
        ∧ calls w4 = calls w1.
Proof.
  intros options tm.
  apply (autocomplete_answer_beats_the_timer ready_world options (VString "im") (VNumber 2)
           "c0" 0 0 4).
  - reflexivity.
  - vm_compute. reflexivity.
  - vm_compute. reflexivity.
  - apply ready_world_reachable.
  - lia.
Defined.

(** A run of X12: the client answers six seconds after the request. *)
Lemma autocomplete_late_answer_is_dropped_witness :
  let options := [("instanceId", VString "c0")] in
  let late := TimeoutError "AutoComplete failed to finish in 5 seconds" in
  let tm := Timer 5000 6 "AutoComplete failed to finish in 5 seconds" in
  ∃ w1 w2 w3,
    step 4 (Calls (GetAutoComplete options (VString "im") (VNumber 2))) ready_world
    = Some w1
    ∧ step 4 (Passes 6000) w1 = Some w2
    ∧ step 4 (Fires tm) w2 = Some w3
    ∧ promises w3 !! 6 = Some (Settled (Rejected late))
    ∧ ∀ o, ∃ w4,
        step 4 (Settles 7 o) w3 = Some w4
        ∧ promises w4 !! 6 = Some (Settled (Rejected late))
        ∧ calls w4 = calls w1
        ∧ kernelClients w4 = kernelClients ready_world.
Proof.
  intros options late tm.
  apply (autocomplete_late_answer_is_dropped ready_world options (VString "im") (VNumber 2)
           "c0" 0 0 4 6000).
  - reflexivity.
  - vm_compute. reflexivity.
  - vm_compute. reflexivity.
  - apply ready_world_reachable.
  - lia.
  - lia.
Defined.

(** A run of X13: the plot that [c0] sent is saved as [plot.png]. *)
Lemma saved_plot_comes_from_a_file_witness :
  is_Some (files plotted_world !! "/tmp/rodeo-0.png")
  ∧ ∃ w', onSavePlot "/rodeo-0.png" "plot.png" plotted_world
          = (Return (VPromise (next_ref plotted_world)), w')
      ∧ calls w' = calls plotted_world
                   ++ [CopyFile "/tmp/rodeo-0.png" "plot.png" (next_ref plotted_world)]
      ∧ files w' = files plotted_world ∧ urls w' = urls plotted_world.
Proof.
  pose proof (saved_plot_comes_from_a_file plotted_world "/rodeo-0.png" "plot.png"
                plotted_world_reachable) as Hsaved.
  replace (urls plotted_world !! "/rodeo-0.png") with (Some "/tmp/rodeo-0.png") in Hsaved
    by (vm_compute; reflexivity).
  exact Hsaved.
Defined.

(** A run of X14: the route of the first plot after a second plot. *)
Lemma routes_are_kept_witness :
  ∃ w', run 4 [Emits 0 "iopub" [png_event]] plotted_world = Some w'
    ∧ files plotted_world ⊆ files w' ∧ urls plotted_world ⊆ urls w'.
Proof.
  destruct (run 4 [Emits 0 "iopub" [png_event]] plotted_world) as [w'|] eqn:Hrun.
  - exists w'. split; [done|]. by apply (routes_are_kept 4 [Emits 0 "iopub" [png_event]]).
  - exfalso. revert Hrun. vm_compute. discriminate.
Defined.

(** A run of X15 on a message with a text and an image. *)
Lemma payloads_get_routes_of_their_own_witness :
  ∃ event' w' route1 route2 file1 file2,
    displayDataTransform rich_event empty_world = (Return event', w')
    ∧ member (event_data event') "text/html" = VString route1
    ∧ member (event_data event') "image/png" = VString route2
    ∧ route1 ≠ route2 ∧ file1 ≠ file2
    ∧ urls w' !! route1 = Some file1 ∧ urls w' !! route2 = Some file2
    ∧ files w' !! file1 = Some (VString "<b>plot</b>")
    ∧ files w' !! file2 = Some (VBuffer (base64_decode "iVBORw0KGgo=")).
Proof.
  apply (payloads_get_routes_of_their_own rich_event "<b>plot</b>" "iVBORw0KGgo=" empty_world);
    [reflexivity|reflexivity|discriminate|reflexivity|discriminate].
Defined.

(** A run of X16 on a message whose image is [true]. *)
Lemma unreadable_image_is_not_forwarded_witness :
  let e := TypeError "must start with number, buffer, array or string" in
  displayDataTransform broken_event ready_world = (Throw e, ready_world)
  ∧ ∃ w1,
      step 4 (Emits 0 "iopub" [broken_event]) ready_world = Some w1
      ∧ calls w1 = calls ready_world ∧ files w1 = files ready_world
      ∧ urls w1 = urls ready_world
      ∧ kernelClients w1 = kernelClients ready_world.
Proof.
  apply (unreadable_image_is_not_forwarded ready_world "c0" 0 0 4 broken_event []);
    [apply ready_world_attached|reflexivity|reflexivity|reflexivity|reflexivity].
Defined.

(** A run of X19 on the sample desktop: the main window shares an action. *)
Lemma shared_action_skips_the_sender_witness :
  onShareAction (Some 0%nat) [("type", VString "ADD_FILE")]
  = ([SendToWindow "startupWindow" "sharedAction"
        [VObject [("type", VString "ADD_FILE"); ("senderName", VString "mainWindow")]]],
     Return tt).
Proof.
  rewrite (proj1 (shared_action_skips_the_sender 0 [("type", VString "ADD_FILE")])
             "mainWindow").
  - reflexivity.
  - by left.
  - reflexivity.
  - intros name Hname Hsender.
    repeat (apply elem_of_cons in Hname as [->|Hname]);
      [done|discriminate Hsender|by apply elem_of_nil in Hname].
Defined.

(** A run of X24 on the sample desktop, started with [missing.py notes.py]. *)
Lemma first_file_argument_decides_witness :
  onReady
  = ([LogLine "info" ["onReady"]; StatFile "missing.py"; StatFile "notes.py";
      LogLine "error" []],
     Return tt).
Proof.
  apply (proj2 (first_file_argument_decides "missing.py" ["notes.py"]));
    [reflexivity|reflexivity|by eexists].
Defined.

(** A run of X26 in a fresh process. *)
Lemma system_facts_never_time_out_witness :
  let facts := VObject [ ("homedir", VString "/home/user");
                         ("pathSep", VString "/");
                         ("delimiter", VString ":") ] in
  let message := "Unable to call " +:+ quote +:+ "get system facts" +:+ quote
                 +:+ " in under 120 seconds" in
  ∃ w1,
    (onGetSystemFacts empty_world).1 = Return (VPromise 1)
    ∧ drain 4 (onGetSystemFacts empty_world).2 = Some w1
    ∧ promises w1 !! 1 = Some (Settled (Fulfilled facts))
    ∧ timers w1 = timers empty_world ++ [Timer 120000 1 message]
    ∧ calls w1 = calls empty_world
    ∧ ∃ w2 w3,
        step 4 (Passes (120000 + 0)) w1 = Some w2
        ∧ step 4 (Fires (Timer 120000 1 message)) w2 = Some w3
        ∧ promises w3 !! 1 = Some (Settled (Fulfilled facts)).
Proof.
  intros facts message.
  exact (system_facts_never_time_out empty_world 4 0 reachable_start ltac:(lia)).
Defined.

(** The sample desktop at work. *)

Example quit_on_the_sample_desktop :
  quitApplication
  = ([LogLine "info" ["killing all children processes"];
      KillProcess 7; KillProcess 8;
      LogLine "info" ["process"; "successfully killed"];
      LogLine "info" ["process"; "unable to be killed"];
      LogLine "info" ["quiting"]; QuitApp;
      LogLine "info" ["forcing quit on linux"]; ExitProcess 0],
     Return tt).
Proof. reflexivity. Qed.

Example package_of_the_sample_desktop :
  getPkg = VObject [("name", VString "rodeo"); ("version", VString "2.0.0")]
  ∧ onCheckForUpdates = ([UpdateTo (VString "2.0.0")], Fulfilled VUndefined).
Proof. split; reflexivity. Qed.

Example free_tabs_window :
  onCreateWindow "tabs" [("url", VString "freeTabsOnlyWindow"); ("width", VNumber 800)]
  = ([CreateWindow "create" "tabs"
        [("url", VString "file:///app/src/browser/free-tabs-only.html");
         ("width", VNumber 800)]],
     Return 2%nat).
Proof. reflexivity. Qed.

Example inherited_name_is_no_entry_point :
  ∃ message,
    onCreateWindow "tabs" [("url", VString "constructor")]
    = ([], Throw (TypeError message)).
Proof. by eexists. Qed.

Example save_dialog_options :
  onSaveDialog (VObject [("title", VString "Save"); ("properties", VString "openFile");
                         ("defaultPath", VString "~/plot.png"); ("color", VString "red")])
  = ShowSaveDialog [("title", VString "Save"); ("defaultPath", VString "~/plot.png")].
Proof. reflexivity. Qed.

Example pdf_name_in_the_middle :
  onPDF_chosen (VString "report.pdf.bak")
  = ([SendToWindow "mainWindow" "pdf" [VString "report.pdf.bak"]], Return tt).
Proof. reflexivity. Qed.

(** A run of X27: two sessions from the start. *)
Lemma sessions_do_not_share_witness :
  ∃ w1 w2 ready1 ready2 created1 created2,
    step 4 (Calls (CreateKernelInstance python3_options)) empty_world = Some w1
    ∧ step 4 (Calls (CreateKernelInstance [("cmd", VString "python2")])) w1 = Some w2
    ∧ "c0" ≠ "c1" ∧ ready1 ≠ ready2 ∧ created1 ≠ created2
    ∧ kernelClients empty_world !! "c0" = None ∧ kernelClients empty_world !! "c1" = None
    ∧ kernelClients w2 = <["c1" := ready2]> (<["c0" := ready1]> (kernelClients empty_world))
    ∧ kernelClients w2 !! "c0" = Some ready1
    ∧ promises w2 !! ready1 = Some (Pending [])
    ∧ promises w2 !! ready2 = Some (Pending [])
    ∧ calls w2 = calls empty_world
                 ++ [CreateClient python3_options created1;
                     CreateClient [("cmd", VString "python2")] created2].
Proof.
  change "c0" with (cuid (cuid_count empty_world)).
  change "c1" with (cuid (S (cuid_count empty_world))).
  apply (sessions_do_not_share python3_options [("cmd", VString "python2")] empty_world 4);
    [reflexivity|reflexivity|apply reachable_start].
Defined.

(** A run of X30 from the start, with the client 0. *)
Lemma timeout_during_creation_witness :
  let options := python3_options in
  let request := [("instanceId", VString "c0")] in
  let message := "AutoComplete failed to finish in 5 seconds" in
  (∃ w1 w2 w3 w4 w5,
     step 4 (Calls (CreateKernelInstance options)) empty_world = Some w1
     ∧ step 4 (Calls (GetAutoComplete request (VString "im") (VNumber 2))) w1 = Some w2
     ∧ step 4 (Passes 5000) w2 = Some w3
     ∧ step 4 (Fires (Timer 5000 6 message)) w3 = Some w4
     ∧ promises w4 !! 6 = Some (Settled (Rejected (TimeoutError message)))
     ∧ promises w4 !! 0 = Some Cancelled
     ∧ kernelClients w4 !! "c0" = Some 0
     ∧ step 4 (Settles 1 (Fulfilled (VClient 0))) w4 = Some w5
     ∧ kernelClients w5 = kernelClients empty_world
     ∧ listeners_of 0 w5 = session_listeners "c0" 0 0
     ∧ last (logs w5) = Some ("error", ["failed to create instance"; "c0"])
     ∧ calls w5 = calls empty_world ++ [CreateClient options 1])
  ∧ (∃ w1 w2 w3 w4 w5 w6 w7 asked,
       step 4 (Calls (CreateKernelInstance options)) empty_world = Some w1
       ∧ step 4 (Calls (KillKernelInstance "c0")) w1 = Some w2
       ∧ step 4 (Calls (GetAutoComplete request (VString "im") (VNumber 2))) w2 = Some w3
       ∧ step 4 (Passes 5000) w3 = Some w4
       ∧ step 4 (Fires (Timer 5000 8 message)) w4 = Some w5
       ∧ promises w5 !! 8 = Some (Settled (Rejected (TimeoutError message)))
       ∧ promises w5 !! 0
         = Some (Pending [Reaction (Some (HClientCall "kill" [])) None 5])
       ∧ step 4 (Settles 1 (Fulfilled (VClient 0))) w5 = Some w6
       ∧ step 4 (Emits 0 "ready" []) w6 = Some w7
       ∧ promises w7 !! 0 = Some (Settled (Fulfilled (VClient 0)))
       ∧ kernelClients w7 !! "c0" = Some 0
       ∧ calls w7
         = calls empty_world
           ++ [CreateClient options 1; ClientRequest 0 "kill" [] asked]).
Proof.
  exact (timeout_during_creation python3_options [("instanceId", VString "c0")]
           (VString "im") (VNumber 2) empty_world 0 4 5000
           eq_refl reachable_start eq_refl (Forall_nil_2 _) ltac:(lia) ltac:(lia)).
Defined.
